(** * A shallow embedding of the IMEX chemistry + hydrodynamics driver

    The development follows three source files of the demonstration code:
    the driver [imex_chem_hydro_main.cpp] (set-up checks of [main], the
    implicit right-hand side [fimpl] and the custom block-diagonal linear
    solver [SUNLinSol_BDMPIMV]), the primordial chemistry network
    ([cvklu_setup_data], [cvklu_calculate_temperature],
    [calculate_rhs_cvklu], [setting_up_extra_variables]) and the smoke-test
    problem [compile_test.cpp].

    Conventions of the embedding.
    - [realtype] and [double] are read as real numbers ([R]); rounding,
      infinities and NaN are outside the model.  Decimal literals denote
      the decimal they spell.
    - [int] is a 32-bit two's-complement integer, kept as a [Z] with the
      wrap-around written out ([CInt.wrap]).
    - A serial [N_Vector] is the list of its entries; an MPIManyVector is
      the list of its sub-vectors.  Reading past the end of an array is
      undefined in the source; the model reads [0] there and drops a
      write past the end.
    - Results of calls into collaborators outside these files (profiling
      timers, ARKODE getters, MPI) are inputs of the model, gathered in
      small records next to the function using them. *)

From Stdlib Require Import Reals Lra Lia ZArith List Bool.
From stdpp Require Import list.

Open Scope R_scope.

(** ** Machine integers *)

Module CInt.

Definition INT_MIN : Z := (- 2 ^ 31)%Z.
Definition INT_MAX : Z := (2 ^ 31 - 1)%Z.

Definition in_range (z : Z) : Prop := (INT_MIN <= z <= INT_MAX)%Z.

(** Reduction of a mathematical integer to the value an [int] holds. *)
Definition wrap (z : Z) : Z := ((z + 2 ^ 31) mod 2 ^ 32 - 2 ^ 31)%Z.

(** Unary minus on [int]. *)
Definition neg (z : Z) : Z := wrap (- z).

End CInt.

(** ** Return-value checks *)

Definition MPI_SUCCESS : Z := 0%Z.
Definition SUNLS_MEM_FAIL : Z := (-803)%Z.

(** What a call hands to [check_flag]: a pointer (only its being non-NULL
    matters) or an integer flag. *)
Inductive flagvalue : Type :=
| FlagPtr (nonnull : bool)
| FlagInt (retval : Z).

(** Modelled from the spec: [check_flag] lives in the utility file of the
    repository, outside the files followed here.  Failures are signalled
    as negative status codes (section 7); the call sites use [opt = 0]
    on pointers, [opt = 1] on integer flags and [opt = 3] on MPI return
    codes.  The result [true] means "failed". *)
Definition check_flag (fv : flagvalue) (opt : Z) : bool :=
  match fv with
  | FlagPtr nonnull => if (opt =? 0)%Z then negb nonnull else false
  | FlagInt retval =>
      if (opt =? 1)%Z then (retval <? 0)%Z
      else if (opt =? 3)%Z then negb (retval =? MPI_SUCCESS)%Z
      else false
  end.

(** ** The chemistry network (cvklu) *)

Module Chem.

(** Modelled from the spec: the macro [NSPECIES] of the header
    [raja_primordial_network.hpp], outside the files followed here.  The
    chemistry block holds, per cell, the species densities and the
    internal gas energy (section 3); this network has the ten unknowns
    [H2_1 .. He_3], [de], [ge], entries 0 to 9 of [y_arr]. *)
Definition NSPECIES : nat := 10.

(** Array access: [a[i]], [a[i] = v] and [a[i] *= s]. *)
Definition rd (a : list R) (i : nat) : R := default 0 (a !! i).
Definition store (a : list R) (i : nat) (v : R) : list R := <[i := v]> a.
Definition scale_at (a : list R) (i : nat) (s : R) : list R :=
  store a i (rd a i * s).

(** The [(int)] conversion of a [double]: truncation toward zero. *)
Definition trunc_int (x : R) : Z :=
  if Rle_dec 0 x then Int_part x else (- Int_part (- x))%Z.

(** The tabulated reaction rates [r_*] and cooling rates [c_*].  The
    structure has one array of 1024 entries per name, [data->r_k01] and
    so on; the model keeps them as one family indexed by the name. *)
Inductive rate_table : Type :=
| r_k01 | r_k02 | r_k03 | r_k04
| r_k05 | r_k06 | r_k07 | r_k08
| r_k09 | r_k10 | r_k11 | r_k12
| r_k13 | r_k14 | r_k15 | r_k16
| r_k17 | r_k18 | r_k19 | r_k21
| r_k22 | c_brem_brem | c_ceHeI_ceHeI | c_ceHeII_ceHeII
| c_ceHI_ceHI | c_cie_cooling_cieco | c_ciHeI_ciHeI | c_ciHeII_ciHeII
| c_ciHeIS_ciHeIS | c_ciHI_ciHI | c_compton_comp_ | c_gloverabel08_gael
| c_gloverabel08_gaH2 | c_gloverabel08_gaHe | c_gloverabel08_gaHI | c_gloverabel08_gaHp
| c_gloverabel08_h2lte | c_h2formation_h2mcool | c_h2formation_h2mheat | c_h2formation_ncrd1
| c_h2formation_ncrd2 | c_h2formation_ncrn | c_reHeII1_reHeII1 | c_reHeII2_reHeII2
| c_reHeIII_reHeIII | c_reHII_reHII.

(** The fields of [cvklu_data] that the embedded functions touch.  The
    per-cell interpolated rates [rs_k01, ..., cs_reHII_reHII] and their
    derivatives [drs_k01, ..., dcs_reHII_reHII] are the families [rs]
    and [drs], indexed like [table]. *)
Record cvklu_data : Type := mk_cvklu_data {
  nstrip : Z;
  Ts : list R;
  dTs_ge : list R;
  mdensity : list R;
  inv_mdensity : list R;
  rs : rate_table -> list R;
  drs : rate_table -> list R;
  cie_optical_depth_approx : list R;
  h2_optical_depth_approx : list R;
  scale : list R;
  inv_scale : list R;
  current_z : R;
  bounds : R * R;
  nbins : Z;
  dbin : R;
  idbin : R;
  table : rate_table -> list R;
  g_gammaH2_1 : list R;
  g_dgammaH2_1_dT : list R;
  g_gammaH2_2 : list R;
  g_dgammaH2_2_dT : list R
}.

Definition set_Ts (v : list R) (d : cvklu_data) : cvklu_data :=
  mk_cvklu_data (nstrip d) v (dTs_ge d) (mdensity d) (inv_mdensity d)
    (rs d) (drs d) (cie_optical_depth_approx d) (h2_optical_depth_approx
    d) (scale d) (inv_scale d) (current_z d) (bounds d) (nbins d) (dbin
    d) (idbin d) (table d) (g_gammaH2_1 d) (g_dgammaH2_1_dT d)
    (g_gammaH2_2 d) (g_dgammaH2_2_dT d).

Definition set_dTs_ge (v : list R) (d : cvklu_data) : cvklu_data :=
  mk_cvklu_data (nstrip d) (Ts d) v (mdensity d) (inv_mdensity d) (rs d)
    (drs d) (cie_optical_depth_approx d) (h2_optical_depth_approx d)
    (scale d) (inv_scale d) (current_z d) (bounds d) (nbins d) (dbin d)
    (idbin d) (table d) (g_gammaH2_1 d) (g_dgammaH2_1_dT d) (g_gammaH2_2
    d) (g_dgammaH2_2_dT d).

Definition set_mdensity (v : list R) (d : cvklu_data) : cvklu_data :=
  mk_cvklu_data (nstrip d) (Ts d) (dTs_ge d) v (inv_mdensity d) (rs d)
    (drs d) (cie_optical_depth_approx d) (h2_optical_depth_approx d)
    (scale d) (inv_scale d) (current_z d) (bounds d) (nbins d) (dbin d)
    (idbin d) (table d) (g_gammaH2_1 d) (g_dgammaH2_1_dT d) (g_gammaH2_2
    d) (g_dgammaH2_2_dT d).

Definition set_inv_mdensity (v : list R) (d : cvklu_data) : cvklu_data :=
  mk_cvklu_data (nstrip d) (Ts d) (dTs_ge d) (mdensity d) v (rs d) (drs
    d) (cie_optical_depth_approx d) (h2_optical_depth_approx d) (scale
    d) (inv_scale d) (current_z d) (bounds d) (nbins d) (dbin d) (idbin
    d) (table d) (g_gammaH2_1 d) (g_dgammaH2_1_dT d) (g_gammaH2_2 d)
    (g_dgammaH2_2_dT d).

Definition set_rs (v : rate_table -> list R) (d : cvklu_data) : cvklu_data :=
  mk_cvklu_data (nstrip d) (Ts d) (dTs_ge d) (mdensity d) (inv_mdensity
    d) v (drs d) (cie_optical_depth_approx d) (h2_optical_depth_approx
    d) (scale d) (inv_scale d) (current_z d) (bounds d) (nbins d) (dbin
    d) (idbin d) (table d) (g_gammaH2_1 d) (g_dgammaH2_1_dT d)
    (g_gammaH2_2 d) (g_dgammaH2_2_dT d).

Definition set_drs (v : rate_table -> list R) (d : cvklu_data) : cvklu_data :=
  mk_cvklu_data (nstrip d) (Ts d) (dTs_ge d) (mdensity d) (inv_mdensity
    d) (rs d) v (cie_optical_depth_approx d) (h2_optical_depth_approx d)
    (scale d) (inv_scale d) (current_z d) (bounds d) (nbins d) (dbin d)
    (idbin d) (table d) (g_gammaH2_1 d) (g_dgammaH2_1_dT d) (g_gammaH2_2
    d) (g_dgammaH2_2_dT d).

Definition set_cie_optical_depth_approx (v : list R) (d : cvklu_data) : cvklu_data :=
  mk_cvklu_data (nstrip d) (Ts d) (dTs_ge d) (mdensity d) (inv_mdensity
    d) (rs d) (drs d) v (h2_optical_depth_approx d) (scale d) (inv_scale
    d) (current_z d) (bounds d) (nbins d) (dbin d) (idbin d) (table d)
    (g_gammaH2_1 d) (g_dgammaH2_1_dT d) (g_gammaH2_2 d) (g_dgammaH2_2_dT
    d).

Definition set_h2_optical_depth_approx (v : list R) (d : cvklu_data) : cvklu_data :=
  mk_cvklu_data (nstrip d) (Ts d) (dTs_ge d) (mdensity d) (inv_mdensity
    d) (rs d) (drs d) (cie_optical_depth_approx d) v (scale d)
    (inv_scale d) (current_z d) (bounds d) (nbins d) (dbin d) (idbin d)
    (table d) (g_gammaH2_1 d) (g_dgammaH2_1_dT d) (g_gammaH2_2 d)
    (g_dgammaH2_2_dT d).

(** *** [cvklu_setup_data]

    [ncells] and [current_z] are the arguments of the call.  [alloc]
    stands for the structure as allocated, together with the tables that
    [cvklu_read_rate_tables], [cvklu_read_cooling_tables] and
    [cvklu_read_gamma] read from file: whatever the function does not
    assign is taken from it. *)
Definition cvklu_setup_data (ncells : Z) (current_z : R)
    (alloc : cvklu_data) : cvklu_data :=
  let bounds_0 := 1.0 in
  let bounds_1 := 100000.0 in
  let nbins := (1024 - 1)%Z in
  let dbin := (ln bounds_1 - ln bounds_0) / IZR nbins in
  let idbin := 1.0 / dbin in
  {| nstrip := ncells;
     Ts := replicate (Z.to_nat ncells) 1000.0;
     dTs_ge := dTs_ge alloc;
     mdensity := mdensity alloc;
     inv_mdensity := inv_mdensity alloc;
     rs := rs alloc;
     drs := drs alloc;
     cie_optical_depth_approx := cie_optical_depth_approx alloc;
     h2_optical_depth_approx := h2_optical_depth_approx alloc;
     scale := scale alloc;
     inv_scale := inv_scale alloc;
     current_z := current_z;
     bounds := (bounds_0, bounds_1);
     nbins := nbins;
     dbin := dbin;
     idbin := idbin;
     table := table alloc;
     g_gammaH2_1 := g_gammaH2_1 alloc;
     g_dgammaH2_1_dT := g_dgammaH2_1_dT alloc;
     g_gammaH2_2 := g_gammaH2_2 alloc;
     g_dgammaH2_2_dT := g_dgammaH2_2_dT alloc |}.

(** *** Table look-up

    The same statements open the Newton loop body and the rate
    interpolation: the bin of a temperature, clamped into the table, and
    the position [Tdef] inside the bin. *)
Definition clamp_bin (data : cvklu_data) (bin_id : Z) : Z :=
  if (bin_id <=? 0)%Z then 0%Z
  else if (bin_id >=? nbins data)%Z then (nbins data - 1)%Z
  else bin_id.

Definition find_bin (data : cvklu_data) (Ts : R) : Z :=
  let lb := ln (fst (bounds data)) in
  clamp_bin data (trunc_int (idbin data * (ln Ts - lb))).

Definition bin_t1 (data : cvklu_data) (bin_id : Z) : R :=
  ln (fst (bounds data)) + IZR bin_id * dbin data.

Definition bin_t2 (data : cvklu_data) (bin_id : Z) : R :=
  ln (fst (bounds data)) + IZR (bin_id + 1) * dbin data.

Definition find_Tdef (data : cvklu_data) (Ts : R) (bin_id : Z) : R :=
  let t1 := bin_t1 data bin_id in
  let t2 := bin_t2 data bin_id in
  (ln Ts - t1) / (t2 - t1).

(** [tab[bin_id] + Tdef * (tab[bin_id+1] - tab[bin_id])]. *)
Definition interpolate (tab : list R) (bin_id : Z) (Tdef : R) : R :=
  rd tab (Z.to_nat bin_id) +
  Tdef * (rd tab (Z.to_nat (bin_id + 1)) - rd tab (Z.to_nat bin_id)).

(** [(tab[bin_id+1] - tab[bin_id]) * Tfactor]. *)
Definition slope (tab : list R) (bin_id : Z) (Tfactor : R) : R :=
  (rd tab (Z.to_nat (bin_id + 1)) - rd tab (Z.to_nat bin_id)) * Tfactor.

(** *** [cvklu_calculate_temperature] *)

(** The variables the Newton loop assigns.  [Ts] is the reference
    parameter, bound to [data->Ts[i]] by the caller. *)
Record newton_vars : Type := mk_newton_vars {
  nv_T : R;
  nv_Tnew : R;
  nv_Tdiff : R;
  nv_dge_dT : R;
  nv_Ts : R
}.

(** [for (int j = lo; j < hi; j++) body]: the body has no [break],
    [continue] or [return].  The result carries the number of times the
    body ran. *)
Fixpoint for_steps {S : Type} (n : nat) (j : Z) (body : Z -> S -> S)
    (s : S) : S * nat :=
  match n with
  | O => (s, O)
  | Datatypes.S n' =>
      let (s', runs) := for_steps n' (j + 1)%Z body (body j s) in
      (s', Datatypes.S runs)
  end.

Definition for_loop {S : Type} (lo hi : Z) (body : Z -> S -> S) (s : S)
    : S * nat :=
  for_steps (Z.to_nat (hi - lo)) lo body s.

Section Temperature.

Variable data : cvklu_data.
Variable y_arr : list R.

Let kb : R := 1.3806504e-16.
Let mh : R := 1.67e-24.
Let gamma : R := 5.0e0 / 3.0e0.
Let _gamma_m1 : R := 1.0 / (gamma - 1).

Let H2_1 := rd y_arr 0.
Let H2_2 := rd y_arr 1.
Let H_1 := rd y_arr 2.
Let H_2 := rd y_arr 3.
Let H_m0 := rd y_arr 4.
Let He_1 := rd y_arr 5.
Let He_2 := rd y_arr 6.
Let He_3 := rd y_arr 7.
Let de := rd y_arr 8.
Let ge := rd y_arr 9.
Let density : R :=
  2.0*H2_1 + 2.0*H2_2 + 1.0079400000000001*H_1
  + 1.0079400000000001*H_2 + 1.0079400000000001*H_m0
  + 4.0026020000000004*He_1
  + 4.0026020000000004*He_2 + 4.0026020000000004*He_3.

(** The body of the Newton loop. *)
Definition newton_body (j : Z) (s : newton_vars) : newton_vars :=
  let Ts := nv_Ts s in
  let T := Ts in
  let bin_id := find_bin data Ts in
  let Tdef := find_Tdef data Ts bin_id in
  let gammaH2_2 := interpolate (g_gammaH2_2 data) bin_id Tdef in
  let dgammaH2_2_dT := interpolate (g_dgammaH2_2_dT data) bin_id Tdef in
  let gammaH2_1 := interpolate (g_gammaH2_1 data) bin_id Tdef in
  let dgammaH2_1_dT := interpolate (g_dgammaH2_1_dT data) bin_id Tdef in
  let _gammaH2_1_m1 := 1.0 / (gammaH2_1 - 1.0) in
  let _gammaH2_2_m1 := 1.0 / (gammaH2_2 - 1.0) in
  let dge_dT :=
    T*kb*(-H2_1*_gammaH2_1_m1*_gammaH2_1_m1*dgammaH2_1_dT -
      H2_2*_gammaH2_2_m1*_gammaH2_2_m1*dgammaH2_2_dT)/(density*mh) +
      kb*(H2_1*_gammaH2_1_m1 + H2_2*_gammaH2_2_m1 + H_1*_gamma_m1 +
      H_2*_gamma_m1 + H_m0*_gamma_m1 + He_1*_gamma_m1 + He_2*_gamma_m1 +
      He_3*_gamma_m1 + _gamma_m1*de)/(density*mh) in
  let dge :=
    T*kb*(H2_1*_gammaH2_1_m1 + H2_2*_gammaH2_2_m1 + H_1*_gamma_m1 +
      H_2*_gamma_m1 + H_m0*_gamma_m1 + He_1*_gamma_m1 + He_2*_gamma_m1 +
      He_3*_gamma_m1 + _gamma_m1*de)/(density*mh) - ge in
  let Tnew := T - dge/dge_dT in
  let Ts := Tnew in
  let Tdiff := Rabs (T - Tnew) in
  mk_newton_vars T Tnew Tdiff dge_dT Ts.

(** The function proper.  [Ts] is the incoming value of [data->Ts[i]];
    the result is the value returned and the outgoing [Ts] and
    [dTs_ge].  The local [dge_dT] is not initialised in the source and
    is assigned by the loop; it starts at [0] here. *)
Definition cvklu_calculate_temperature (i : nat) (Ts : R) : Z * R * R :=
  let T := Ts in
  let Tnew := T*1.1 in
  let Tdiff := Tnew - T in
  let s := fst (for_loop 0 10 newton_body
                  (mk_newton_vars T Tnew Tdiff 0 Ts)) in
  let Tnew := nv_Tnew s in
  let dge_dT := nv_dge_dT s in
  let Ts := Tnew in
  let Ts :=
    if Rlt_dec Ts (fst (bounds data)) then fst (bounds data)
    else if Rgt_dec Ts (snd (bounds data)) then snd (bounds data)
    else Ts in
  let dTs_ge := 1.0 / dge_dT in
  (0%Z, Ts, dTs_ge).

End Temperature.

#[global] Arguments for_steps : simpl never.
#[global] Arguments for_loop : simpl never.
#[global] Arguments newton_body : simpl never.
#[global] Arguments cvklu_calculate_temperature : simpl never.


(** The scalars of the look-up as [cvklu_setup_data] leaves them. *)
Definition table_scalars_set_up (data : cvklu_data) : Prop :=
  bounds data = (1.0, 100000.0) /\
  nbins data = 1023%Z /\
  dbin data = (ln 100000.0 - ln 1.0) / IZR 1023 /\
  idbin data = 1.0 / dbin data.

(** *** [calculate_rhs_cvklu] *)

(** [RAJA::forall<EXECPOLICY>(RAJA::RangeSegment(lo, hi), body)] under
    the serial execution policy: the body runs once for each index, in
    increasing order. *)
Definition RAJA_forall {S : Type} (lo hi : Z) (body : nat -> S -> S)
    (s : S) : S :=
  foldl (fun s i => body i s) s (seq (Z.to_nat lo) (Z.to_nat (hi - lo))).

(** The block "Calculate reaction rates in this cell" of the loop body
    (the source keeps the call [cvklu_interpolate_rates(data, i)] as a
    comment above the statements it replaced). *)
Definition cvklu_interpolate_rates (data : cvklu_data) (i : nat)
    : cvklu_data :=
  let lb := ln (fst (bounds data)) in
  let bin_id := find_bin data (rd (Ts data) i) in
  let t1 := bin_t1 data bin_id in
  let t2 := bin_t2 data bin_id in
  let Tdef := find_Tdef data (rd (Ts data) i) bin_id in
  let dT := t2 - t1 in
  let invTs := 1.0 / rd (Ts data) i in
  let Tfactor := invTs/dT in
  let data :=
    set_rs (fun k => store (rs data k) i
                       (interpolate (table data k) bin_id Tdef)) data in
  let data :=
    set_drs (fun k => store (drs data k) i
                        (slope (table data k) bin_id Tfactor)) data in
  data.

(** The blocks "Set up some temporaries" and "Species: ..." of the loop
    body: the ten entries of the cell are assigned and rescaled in
    place. *)
Definition rhs_cell_species (data : cvklu_data) (i : nat)
    (H2_1 H2_2 H_1 H_2 H_m0 He_1 He_2 He_3 de ge : R)
    (ydotdata : list R) : list R :=
  let T := rd (Ts data) i in
  let z := current_z data in
  let mdensity := rd (mdensity data) i in
  let inv_mdensity := rd (inv_mdensity data) i in
  let k01 := rd (rs data r_k01) i in
  let k02 := rd (rs data r_k02) i in
  let k03 := rd (rs data r_k03) i in
  let k04 := rd (rs data r_k04) i in
  let k05 := rd (rs data r_k05) i in
  let k06 := rd (rs data r_k06) i in
  let k07 := rd (rs data r_k07) i in
  let k08 := rd (rs data r_k08) i in
  let k09 := rd (rs data r_k09) i in
  let k10 := rd (rs data r_k10) i in
  let k11 := rd (rs data r_k11) i in
  let k12 := rd (rs data r_k12) i in
  let k13 := rd (rs data r_k13) i in
  let k14 := rd (rs data r_k14) i in
  let k15 := rd (rs data r_k15) i in
  let k16 := rd (rs data r_k16) i in
  let k17 := rd (rs data r_k17) i in
  let k18 := rd (rs data r_k18) i in
  let k19 := rd (rs data r_k19) i in
  let k21 := rd (rs data r_k21) i in
  let k22 := rd (rs data r_k22) i in
  let brem_brem := rd (rs data c_brem_brem) i in
  let ceHeI_ceHeI := rd (rs data c_ceHeI_ceHeI) i in
  let ceHeII_ceHeII := rd (rs data c_ceHeII_ceHeII) i in
  let ceHI_ceHI := rd (rs data c_ceHI_ceHI) i in
  let cie_cooling_cieco := rd (rs data c_cie_cooling_cieco) i in
  let ciHeI_ciHeI := rd (rs data c_ciHeI_ciHeI) i in
  let ciHeII_ciHeII := rd (rs data c_ciHeII_ciHeII) i in
  let ciHeIS_ciHeIS := rd (rs data c_ciHeIS_ciHeIS) i in
  let ciHI_ciHI := rd (rs data c_ciHI_ciHI) i in
  let compton_comp_ := rd (rs data c_compton_comp_) i in
  let gloverabel08_gael := rd (rs data c_gloverabel08_gael) i in
  let gloverabel08_gaH2 := rd (rs data c_gloverabel08_gaH2) i in
  let gloverabel08_gaHe := rd (rs data c_gloverabel08_gaHe) i in
  let gloverabel08_gaHI := rd (rs data c_gloverabel08_gaHI) i in
  let gloverabel08_gaHp := rd (rs data c_gloverabel08_gaHp) i in
  let gloverabel08_h2lte := rd (rs data c_gloverabel08_h2lte) i in
  let h2formation_h2mcool := rd (rs data c_h2formation_h2mcool) i in
  let h2formation_h2mheat := rd (rs data c_h2formation_h2mheat) i in
  let h2formation_ncrd1 := rd (rs data c_h2formation_ncrd1) i in
  let h2formation_ncrd2 := rd (rs data c_h2formation_ncrd2) i in
  let h2formation_ncrn := rd (rs data c_h2formation_ncrn) i in
  let reHeII1_reHeII1 := rd (rs data c_reHeII1_reHeII1) i in
  let reHeII2_reHeII2 := rd (rs data c_reHeII2_reHeII2) i in
  let reHeIII_reHeIII := rd (rs data c_reHeIII_reHeIII) i in
  let reHII_reHII := rd (rs data c_reHII_reHII) i in
  let h2_optical_depth_approx := rd (h2_optical_depth_approx data) i in
  let cie_optical_depth_approx := rd (cie_optical_depth_approx data) i in
  let j := (i * NSPECIES)%nat in
  (* Species: H2_1 *)
  let ydotdata := store ydotdata j
    (k08*H_1*H_m0 + k10*H2_2*H_1 - k11*H2_1*H_2 - k12*H2_1*de - k13*H2_1*H_1
      + k19*H2_2*H_m0 + k21*H2_1*H_1*H_1 + k22*H_1*H_1*H_1) in
  let ydotdata := scale_at ydotdata j (rd (inv_scale data) j) in
  let j := (j + 1)%nat in
  (* Species: H2_2 *)
  let ydotdata := store ydotdata j
    (k09*H_1*H_2 - k10*H2_2*H_1 + k11*H2_1*H_2 + k17*H_2*H_m0 - k18*H2_2*de
      - k19*H2_2*H_m0) in
  let ydotdata := scale_at ydotdata j (rd (inv_scale data) j) in
  let j := (j + 1)%nat in
  (* Species: H_1 *)
  let ydotdata := store ydotdata j
    (-k01*H_1*de + k02*H_2*de - k07*H_1*de - k08*H_1*H_m0 - k09*H_1*H_2 -
      k10*H2_2*H_1 + k11*H2_1*H_2 + 2*k12*H2_1*de + 2*k13*H2_1*H_1 +
      k14*H_m0*de + k15*H_1*H_m0 + 2*k16*H_2*H_m0 + 2*k18*H2_2*de +
      k19*H2_2*H_m0 - 2*k21*H2_1*H_1*H_1 - 2*k22*H_1*H_1*H_1) in
  let ydotdata := scale_at ydotdata j (rd (inv_scale data) j) in
  let j := (j + 1)%nat in
  (* Species: H_2 *)
  let ydotdata := store ydotdata j
    (k01*H_1*de - k02*H_2*de - k09*H_1*H_2 + k10*H2_2*H_1 - k11*H2_1*H_2 -
      k16*H_2*H_m0 - k17*H_2*H_m0) in
  let ydotdata := scale_at ydotdata j (rd (inv_scale data) j) in
  let j := (j + 1)%nat in
  (* Species: H_m0 *)
  let ydotdata := store ydotdata j
    (k07*H_1*de - k08*H_1*H_m0 - k14*H_m0*de - k15*H_1*H_m0 - k16*H_2*H_m0 -
      k17*H_2*H_m0 - k19*H2_2*H_m0) in
  let ydotdata := scale_at ydotdata j (rd (inv_scale data) j) in
  let j := (j + 1)%nat in
  (* Species: He_1 *)
  let ydotdata := store ydotdata j
    (-k03*He_1*de + k04*He_2*de) in
  let ydotdata := scale_at ydotdata j (rd (inv_scale data) j) in
  let j := (j + 1)%nat in
  (* Species: He_2 *)
  let ydotdata := store ydotdata j
    (k03*He_1*de - k04*He_2*de - k05*He_2*de + k06*He_3*de) in
  let ydotdata := scale_at ydotdata j (rd (inv_scale data) j) in
  let j := (j + 1)%nat in
  (* Species: He_3 *)
  let ydotdata := store ydotdata j
    (k05*He_2*de - k06*He_3*de) in
  let ydotdata := scale_at ydotdata j (rd (inv_scale data) j) in
  let j := (j + 1)%nat in
  (* Species: de *)
  let ydotdata := store ydotdata j
    (k01*H_1*de - k02*H_2*de + k03*He_1*de - k04*He_2*de + k05*He_2*de -
      k06*He_3*de - k07*H_1*de + k08*H_1*H_m0 + k14*H_m0*de + k15*H_1*H_m0 +
      k17*H_2*H_m0 - k18*H2_2*de) in
  let ydotdata := scale_at ydotdata j (rd (inv_scale data) j) in
  let j := (j + 1)%nat in
  (* Species: ge *)
  let ydotdata := store ydotdata j
    (-2.0158800000000001*H2_1*cie_cooling_cieco*cie_optical_depth_approx*mdensity
      -
      H2_1*cie_optical_depth_approx*gloverabel08_h2lte*h2_optical_depth_approx/(gloverabel08_h2lte/(H2_1*gloverabel08_gaH2
      + H_1*gloverabel08_gaHI + H_2*gloverabel08_gaHp +
      He_1*gloverabel08_gaHe + de*gloverabel08_gael) + 1.0) -
      H_1*ceHI_ceHI*cie_optical_depth_approx*de -
      H_1*ciHI_ciHI*cie_optical_depth_approx*de -
      H_2*cie_optical_depth_approx*de*reHII_reHII -
      He_1*ciHeI_ciHeI*cie_optical_depth_approx*de -
      He_2*ceHeII_ceHeII*cie_optical_depth_approx*de -
      He_2*ceHeI_ceHeI*cie_optical_depth_approx*(de) ^ 2 -
      He_2*ciHeII_ciHeII*cie_optical_depth_approx*de -
      He_2*ciHeIS_ciHeIS*cie_optical_depth_approx*(de) ^ 2 -
      He_2*cie_optical_depth_approx*de*reHeII1_reHeII1 -
      He_2*cie_optical_depth_approx*de*reHeII2_reHeII2 -
      He_3*cie_optical_depth_approx*de*reHeIII_reHeIII -
      brem_brem*cie_optical_depth_approx*de*(H_2 + He_2 + 4.0*He_3) -
      cie_optical_depth_approx*compton_comp_*de*(z + 1.0) ^ 4*(T - 2.73*z -
      2.73) + 0.5*1.0/(h2formation_ncrn/(H2_1*h2formation_ncrd2 +
      H_1*h2formation_ncrd1) + 1.0)*(-H2_1*H_1*h2formation_h2mcool + (H_1) ^
      3*h2formation_h2mheat)) in
  let ydotdata := scale_at ydotdata j (rd (inv_scale data) j) in
  let ydotdata := scale_at ydotdata j inv_mdensity in
  let j := (j + 1)%nat in
  ydotdata.

(** The body of the loop over cells.  The state is the output array
    [ydotdata] and the structure [data], both written in place. *)
Definition rhs_cell (ydata : list R) (i : nat)
    (st : list R * cvklu_data) : list R * cvklu_data :=
  let ydotdata := fst st in
  let data := snd st in
  let j := (i * NSPECIES)%nat in
  let H2_1 := rd ydata j * rd (scale data) j in
  let H2_2 := rd ydata (j+1) * rd (scale data) (j+1) in
  let H_1 := rd ydata (j+2) * rd (scale data) (j+2) in
  let H_2 := rd ydata (j+3) * rd (scale data) (j+3) in
  let H_m0 := rd ydata (j+4) * rd (scale data) (j+4) in
  let He_1 := rd ydata (j+5) * rd (scale data) (j+5) in
  let He_2 := rd ydata (j+6) * rd (scale data) (j+6) in
  let He_3 := rd ydata (j+7) * rd (scale data) (j+7) in
  let de := rd ydata (j+8) * rd (scale data) (j+8) in
  let ge := rd ydata (j+9) * rd (scale data) (j+9) in
  let y_arr := [H2_1; H2_2; H_1; H_2; H_m0; He_1; He_2; He_3; de; ge] in
  (* Calculate temperature in this cell *)
  let tmp := cvklu_calculate_temperature data y_arr i (rd (Ts data) i) in
  let data := set_Ts (store (Ts data) i (snd (fst tmp))) data in
  let data := set_dTs_ge (store (dTs_ge data) i (snd tmp)) data in
  (* Calculate reaction rates in this cell *)
  let data := cvklu_interpolate_rates data i in
  (rhs_cell_species data i H2_1 H2_2 H_1 H_2 H_m0 He_1 He_2 He_3 de ge
     ydotdata,
   data).

(** The host build of the function ([RAJA_SERIAL]; the device
    synchronisation under [USE_DEVICE] is compiled out).  The result is
    the value returned, the output vector and the structure, the last
    two as the call leaves them. *)
Definition calculate_rhs_cvklu (t : R) (y ydot : list R) (nstrip : Z)
    (user_data : cvklu_data) : Z * list R * cvklu_data :=
  let data := user_data in
  let ydata := y in
  let ydotdata := ydot in
  let st := RAJA_forall 0 nstrip (rhs_cell ydata) (ydotdata, data) in
  (0%Z, fst st, snd st).

(** *** [setting_up_extra_variables] *)

(** [pow] at an exponent that is not a whole number. *)
Definition pow_real (x y : R) : R := Rpower x y.

Definition extra_variables_cell (i : nat) (data : cvklu_data)
    : cvklu_data :=
  let input := scale data in
  let mdensity := 0.0 in
  (* species: H2_1 *)
  let mdensity := mdensity + rd input (i * NSPECIES) * 2.0 in
  (* species: H2_2 *)
  let mdensity := mdensity + rd input (i * NSPECIES + 1) * 2.0 in
  (* species: H_1 *)
  let mdensity := mdensity + rd input (i * NSPECIES + 2) * 1.00794 in
  (* species: H_2 *)
  let mdensity := mdensity + rd input (i * NSPECIES + 3) * 1.00794 in
  (* species: H_m0 *)
  let mdensity := mdensity + rd input (i * NSPECIES + 4) * 1.00794 in
  (* species: He_1 *)
  let mdensity := mdensity + rd input (i * NSPECIES + 5) * 4.002602 in
  (* species: He_2 *)
  let mdensity := mdensity + rd input (i * NSPECIES + 6) * 4.002602 in
  (* species: He_3 *)
  let mdensity := mdensity + rd input (i * NSPECIES + 7) * 4.002602 in
  (* scale mdensity by Hydrogen mass *)
  let mdensity := mdensity * 1.67e-24 in
  let tau := pow_real (mdensity / 3.3e-8) 2.8 in
  let tau := Rmax tau 1.0e-5 in
  (* store results *)
  let data := set_mdensity (store (Chem.mdensity data) i mdensity) data in
  let data :=
    set_inv_mdensity (store (inv_mdensity data) i (1.0 / mdensity)) data in
  let data :=
    set_cie_optical_depth_approx
      (store (cie_optical_depth_approx data) i
         (Rmin 1.0 ((1.0 - exp (- tau)) / tau))) data in
  let data :=
    set_h2_optical_depth_approx
      (store (h2_optical_depth_approx data) i
         (Rmin 1.0 (pow_real (mdensity / 1.34e-14) (-0.45)))) data in
  data.

Definition setting_up_extra_variables (data : cvklu_data) (nstrip : Z)
    : cvklu_data :=
  RAJA_forall 0 nstrip extra_variables_cell data.

(** *** [calculate_jacobian_cvklu]

    The host build: [SPARSE_OR_DENSE(a,b)] is [a], the matrix is in
    compressed-sparse-row form. *)

(** A [SUNMatrix] of the sparse kind in CSR form, after the library's
    documentation: the stored values, the column index of each stored
    value, and for each row the position of its first stored value,
    with the number of stored values after the last row. *)
Record SUNSparseMatrix : Type := mk_SUNSparseMatrix {
  sm_data : list R;
  sm_indexvals : list Z;
  sm_indexptrs : list Z
}.

(** Access to the integer arrays. *)
Definition rdZ (a : list Z) (i : nat) : Z := default 0%Z (a !! i).
Definition storeZ (a : list Z) (i : nat) (v : Z) : list Z := <[i := v]> a.

(** [SUNMatZero(J)] on a sparse matrix: the values, the column indices
    and the row pointers are all set to zero. *)
Definition SUNMatZero (J : SUNSparseMatrix) : SUNSparseMatrix :=
  mk_SUNSparseMatrix
    (replicate (length (sm_data J)) 0)
    (replicate (length (sm_indexvals J)) 0%Z)
    (replicate (length (sm_indexptrs J)) 0%Z).


Definition NSPARSE : nat := 64.
Definition SPARSEIDX (blk off : nat) : nat := blk * NSPARSE + off.

(** The block "Set up some temporaries" and the 64 entries of the cell,
    each assigned and rescaled in place; the species values are the
    arguments. *)
Definition jacobian_cell_entries (data : cvklu_data) (i : nat)
    (H2_1 H2_2 H_1 H_2 H_m0 He_1 He_2 He_3 de ge : R)
    (matrix_data : list R) : list R :=
  let z := current_z data in
  let T := rd (Ts data) i in
  let Tge := rd (dTs_ge data) i in
  let k01 := rd (rs data r_k01) i in
  let rk01 := rd (drs data r_k01) i in
  let k02 := rd (rs data r_k02) i in
  let rk02 := rd (drs data r_k02) i in
  let k03 := rd (rs data r_k03) i in
  let rk03 := rd (drs data r_k03) i in
  let k04 := rd (rs data r_k04) i in
  let rk04 := rd (drs data r_k04) i in
  let k05 := rd (rs data r_k05) i in
  let rk05 := rd (drs data r_k05) i in
  let k06 := rd (rs data r_k06) i in
  let rk06 := rd (drs data r_k06) i in
  let k07 := rd (rs data r_k07) i in
  let rk07 := rd (drs data r_k07) i in
  let k08 := rd (rs data r_k08) i in
  let rk08 := rd (drs data r_k08) i in
  let k09 := rd (rs data r_k09) i in
  let rk09 := rd (drs data r_k09) i in
  let k10 := rd (rs data r_k10) i in
  let rk10 := rd (drs data r_k10) i in
  let k11 := rd (rs data r_k11) i in
  let rk11 := rd (drs data r_k11) i in
  let k12 := rd (rs data r_k12) i in
  let rk12 := rd (drs data r_k12) i in
  let k13 := rd (rs data r_k13) i in
  let rk13 := rd (drs data r_k13) i in
  let k14 := rd (rs data r_k14) i in
  let rk14 := rd (drs data r_k14) i in
  let k15 := rd (rs data r_k15) i in
  let rk15 := rd (drs data r_k15) i in
  let k16 := rd (rs data r_k16) i in
  let rk16 := rd (drs data r_k16) i in
  let k17 := rd (rs data r_k17) i in
  let rk17 := rd (drs data r_k17) i in
  let k18 := rd (rs data r_k18) i in
  let rk18 := rd (drs data r_k18) i in
  let k19 := rd (rs data r_k19) i in
  let rk19 := rd (drs data r_k19) i in
  let k21 := rd (rs data r_k21) i in
  let rk21 := rd (drs data r_k21) i in
  let k22 := rd (rs data r_k22) i in
  let rk22 := rd (drs data r_k22) i in
  let brem_brem := rd (rs data c_brem_brem) i in
  let ceHeI_ceHeI := rd (rs data c_ceHeI_ceHeI) i in
  let ceHeII_ceHeII := rd (rs data c_ceHeII_ceHeII) i in
  let ceHI_ceHI := rd (rs data c_ceHI_ceHI) i in
  let cie_cooling_cieco := rd (rs data c_cie_cooling_cieco) i in
  let ciHeI_ciHeI := rd (rs data c_ciHeI_ciHeI) i in
  let ciHeII_ciHeII := rd (rs data c_ciHeII_ciHeII) i in
  let ciHeIS_ciHeIS := rd (rs data c_ciHeIS_ciHeIS) i in
  let ciHI_ciHI := rd (rs data c_ciHI_ciHI) i in
  let compton_comp_ := rd (rs data c_compton_comp_) i in
  let gloverabel08_gael := rd (rs data c_gloverabel08_gael) i in
  let rgloverabel08_gael := rd (drs data c_gloverabel08_gael) i in
  let gloverabel08_gaH2 := rd (rs data c_gloverabel08_gaH2) i in
  let rgloverabel08_gaH2 := rd (drs data c_gloverabel08_gaH2) i in
  let gloverabel08_gaHe := rd (rs data c_gloverabel08_gaHe) i in
  let rgloverabel08_gaHe := rd (drs data c_gloverabel08_gaHe) i in
  let gloverabel08_gaHI := rd (rs data c_gloverabel08_gaHI) i in
  let rgloverabel08_gaHI := rd (drs data c_gloverabel08_gaHI) i in
  let gloverabel08_gaHp := rd (rs data c_gloverabel08_gaHp) i in
  let rgloverabel08_gaHp := rd (drs data c_gloverabel08_gaHp) i in
  let gloverabel08_h2lte := rd (rs data c_gloverabel08_h2lte) i in
  let rgloverabel08_h2lte := rd (drs data c_gloverabel08_h2lte) i in
  let h2formation_h2mcool := rd (rs data c_h2formation_h2mcool) i in
  let rh2formation_h2mcool := rd (drs data c_h2formation_h2mcool) i in
  let h2formation_h2mheat := rd (rs data c_h2formation_h2mheat) i in
  let rh2formation_h2mheat := rd (drs data c_h2formation_h2mheat) i in
  let h2formation_ncrd1 := rd (rs data c_h2formation_ncrd1) i in
  let rh2formation_ncrd1 := rd (drs data c_h2formation_ncrd1) i in
  let h2formation_ncrd2 := rd (rs data c_h2formation_ncrd2) i in
  let rh2formation_ncrd2 := rd (drs data c_h2formation_ncrd2) i in
  let h2formation_ncrn := rd (rs data c_h2formation_ncrn) i in
  let rh2formation_ncrn := rd (drs data c_h2formation_ncrn) i in
  let reHeII1_reHeII1 := rd (rs data c_reHeII1_reHeII1) i in
  let reHeII2_reHeII2 := rd (rs data c_reHeII2_reHeII2) i in
  let reHeIII_reHeIII := rd (rs data c_reHeIII_reHeIII) i in
  let reHII_reHII := rd (rs data c_reHII_reHII) i in
  let j := (i * NSPECIES)%nat in
  let mdensity := rd (mdensity data) i in
  let inv_mdensity := 1.0 / mdensity in
  let h2_optical_depth_approx := rd (h2_optical_depth_approx data) i in
  let cie_optical_depth_approx := rd (cie_optical_depth_approx data) i in
  (* H2_1 by H2_1 *)
  let idx := SPARSEIDX i 0 in
  let matrix_data := store matrix_data idx
    (-k11*H_2 - k12*de - k13*H_1 + k21*(H_1) ^ 2) in
  let matrix_data := scale_at matrix_data idx (rd (inv_scale data) (j + 0) *
    rd (scale data) (j + 0)) in
  (* H2_1 by H2_2 *)
  let idx := SPARSEIDX i 1 in
  let matrix_data := store matrix_data idx
    (k10*H_1 + k19*H_m0) in
  let matrix_data := scale_at matrix_data idx (rd (inv_scale data) (j + 0) *
    rd (scale data) (j + 1)) in
  (* H2_1 by H_1 *)
  let idx := SPARSEIDX i 2 in
  let matrix_data := store matrix_data idx
    (k08*H_m0 + k10*H2_2 - k13*H2_1 + 2*k21*H2_1*H_1 + 3*k22*(H_1) ^ 2) in
  let matrix_data := scale_at matrix_data idx (rd (inv_scale data) (j + 0) *
    rd (scale data) (j + 2)) in
  (* H2_1 by H_2 *)
  let idx := SPARSEIDX i 3 in
  let matrix_data := store matrix_data idx
    (-k11*H2_1) in
  let matrix_data := scale_at matrix_data idx (rd (inv_scale data) (j + 0) *
    rd (scale data) (j + 3)) in
  (* H2_1 by H_m0 *)
  let idx := SPARSEIDX i 4 in
  let matrix_data := store matrix_data idx
    (k08*H_1 + k19*H2_2) in
  let matrix_data := scale_at matrix_data idx (rd (inv_scale data) (j + 0) *
    rd (scale data) (j + 4)) in
  (* H2_1 by de *)
  let idx := SPARSEIDX i 5 in
  let matrix_data := store matrix_data idx
    (-k12*H2_1) in
  let matrix_data := scale_at matrix_data idx (rd (inv_scale data) (j + 0) *
    rd (scale data) (j + 8)) in
  (* H2_1 by ge *)
  let idx := SPARSEIDX i 6 in
  let matrix_data := store matrix_data idx
    (rk08*H_1*H_m0 + rk10*H2_2*H_1 - rk11*H2_1*H_2 - rk12*H2_1*de -
      rk13*H2_1*H_1 + rk19*H2_2*H_m0 + rk21*H2_1*H_1*H_1 + rk22*H_1*H_1*H_1)
      in
  let matrix_data := scale_at matrix_data idx (Tge) in
  let matrix_data := scale_at matrix_data idx (rd (inv_scale data) (j + 0) *
    rd (scale data) (j + 9)) in
  (* H2_2 by H2_1 *)
  let idx := SPARSEIDX i 7 in
  let matrix_data := store matrix_data idx
    (k11*H_2) in
  let matrix_data := scale_at matrix_data idx (rd (inv_scale data) (j + 1) *
    rd (scale data) (j + 0)) in
  (* H2_2 by H2_2 *)
  let idx := SPARSEIDX i 8 in
  let matrix_data := store matrix_data idx
    (-k10*H_1 - k18*de - k19*H_m0) in
  let matrix_data := scale_at matrix_data idx (rd (inv_scale data) (j + 1) *
    rd (scale data) (j + 1)) in
  (* H2_2 by H_1 *)
  let idx := SPARSEIDX i 9 in
  let matrix_data := store matrix_data idx
    (k09*H_2 - k10*H2_2) in
  let matrix_data := scale_at matrix_data idx (rd (inv_scale data) (j + 1) *
    rd (scale data) (j + 2)) in
  (* H2_2 by H_2 *)
  let idx := SPARSEIDX i 10 in
  let matrix_data := store matrix_data idx
    (k09*H_1 + k11*H2_1 + k17*H_m0) in
  let matrix_data := scale_at matrix_data idx (rd (inv_scale data) (j + 1) *
    rd (scale data) (j + 3)) in
  (* H2_2 by H_m0 *)
  let idx := SPARSEIDX i 11 in
  let matrix_data := store matrix_data idx
    (k17*H_2 - k19*H2_2) in
  let matrix_data := scale_at matrix_data idx (rd (inv_scale data) (j + 1) *
    rd (scale data) (j + 4)) in
  (* H2_2 by de *)
  let idx := SPARSEIDX i 12 in
  let matrix_data := store matrix_data idx
    (-k18*H2_2) in
  let matrix_data := scale_at matrix_data idx (rd (inv_scale data) (j + 1) *
    rd (scale data) (j + 8)) in
  (* H2_2 by ge *)
  let idx := SPARSEIDX i 13 in
  let matrix_data := store matrix_data idx
    (rk09*H_1*H_2 - rk10*H2_2*H_1 + rk11*H2_1*H_2 + rk17*H_2*H_m0 -
      rk18*H2_2*de - rk19*H2_2*H_m0) in
  let matrix_data := scale_at matrix_data idx (Tge) in
  let matrix_data := scale_at matrix_data idx (rd (inv_scale data) (j + 1) *
    rd (scale data) (j + 9)) in
  (* H_1 by H2_1 *)
  let idx := SPARSEIDX i 14 in
  let matrix_data := store matrix_data idx
    (k11*H_2 + 2*k12*de + 2*k13*H_1 - 2*k21*(H_1) ^ 2) in
  let matrix_data := scale_at matrix_data idx (rd (inv_scale data) (j + 2) *
    rd (scale data) (j + 0)) in
  (* H_1 by H2_2 *)
  let idx := SPARSEIDX i 15 in
  let matrix_data := store matrix_data idx
    (-k10*H_1 + 2*k18*de + k19*H_m0) in
  let matrix_data := scale_at matrix_data idx (rd (inv_scale data) (j + 2) *
    rd (scale data) (j + 1)) in
  (* H_1 by H_1 *)
  let idx := SPARSEIDX i 16 in
  let matrix_data := store matrix_data idx
    (-k01*de - k07*de - k08*H_m0 - k09*H_2 - k10*H2_2 + 2*k13*H2_1 +
      k15*H_m0 - 4*k21*H2_1*H_1 - 6*k22*(H_1) ^ 2) in
  let matrix_data := scale_at matrix_data idx (rd (inv_scale data) (j + 2) *
    rd (scale data) (j + 2)) in
  (* H_1 by H_2 *)
  let idx := SPARSEIDX i 17 in
  let matrix_data := store matrix_data idx
    (k02*de - k09*H_1 + k11*H2_1 + 2*k16*H_m0) in
  let matrix_data := scale_at matrix_data idx (rd (inv_scale data) (j + 2) *
    rd (scale data) (j + 3)) in
  (* H_1 by H_m0 *)
  let idx := SPARSEIDX i 18 in
  let matrix_data := store matrix_data idx
    (-k08*H_1 + k14*de + k15*H_1 + 2*k16*H_2 + k19*H2_2) in
  let matrix_data := scale_at matrix_data idx (rd (inv_scale data) (j + 2) *
    rd (scale data) (j + 4)) in
  (* H_1 by de *)
  let idx := SPARSEIDX i 19 in
  let matrix_data := store matrix_data idx
    (-k01*H_1 + k02*H_2 - k07*H_1 + 2*k12*H2_1 + k14*H_m0 + 2*k18*H2_2) in
  let matrix_data := scale_at matrix_data idx (rd (inv_scale data) (j + 2) *
    rd (scale data) (j + 8)) in
  (* H_1 by ge *)
  let idx := SPARSEIDX i 20 in
  let matrix_data := store matrix_data idx
    (-rk01*H_1*de + rk02*H_2*de - rk07*H_1*de - rk08*H_1*H_m0 - rk09*H_1*H_2
      - rk10*H2_2*H_1 + rk11*H2_1*H_2 + 2*rk12*H2_1*de + 2*rk13*H2_1*H_1 +
      rk14*H_m0*de + rk15*H_1*H_m0 + 2*rk16*H_2*H_m0 + 2*rk18*H2_2*de +
      rk19*H2_2*H_m0 - 2*rk21*H2_1*H_1*H_1 - 2*rk22*H_1*H_1*H_1) in
  let matrix_data := scale_at matrix_data idx (Tge) in
  let matrix_data := scale_at matrix_data idx (rd (inv_scale data) (j + 2) *
    rd (scale data) (j + 9)) in
  (* H_2 by H2_1 *)
  let idx := SPARSEIDX i 21 in
  let matrix_data := store matrix_data idx
    (-k11*H_2) in
  let matrix_data := scale_at matrix_data idx (rd (inv_scale data) (j + 3) *
    rd (scale data) (j + 0)) in
  (* H_2 by H2_2 *)
  let idx := SPARSEIDX i 22 in
  let matrix_data := store matrix_data idx
    (k10*H_1) in
  let matrix_data := scale_at matrix_data idx (rd (inv_scale data) (j + 3) *
    rd (scale data) (j + 1)) in
  (* H_2 by H_1 *)
  let idx := SPARSEIDX i 23 in
  let matrix_data := store matrix_data idx
    (k01*de - k09*H_2 + k10*H2_2) in
  let matrix_data := scale_at matrix_data idx (rd (inv_scale data) (j + 3) *
    rd (scale data) (j + 2)) in
  (* H_2 by H_2 *)
  let idx := SPARSEIDX i 24 in
  let matrix_data := store matrix_data idx
    (-k02*de - k09*H_1 - k11*H2_1 - k16*H_m0 - k17*H_m0) in
  let matrix_data := scale_at matrix_data idx (rd (inv_scale data) (j + 3) *
    rd (scale data) (j + 3)) in
  (* H_2 by H_m0 *)
  let idx := SPARSEIDX i 25 in
  let matrix_data := store matrix_data idx
    (-k16*H_2 - k17*H_2) in
  let matrix_data := scale_at matrix_data idx (rd (inv_scale data) (j + 3) *
    rd (scale data) (j + 4)) in
  (* H_2 by de *)
  let idx := SPARSEIDX i 26 in
  let matrix_data := store matrix_data idx
    (k01*H_1 - k02*H_2) in
  let matrix_data := scale_at matrix_data idx (rd (inv_scale data) (j + 3) *
    rd (scale data) (j + 8)) in
  (* H_2 by ge *)
  let idx := SPARSEIDX i 27 in
  let matrix_data := store matrix_data idx
    (rk01*H_1*de - rk02*H_2*de - rk09*H_1*H_2 + rk10*H2_2*H_1 -
      rk11*H2_1*H_2 - rk16*H_2*H_m0 - rk17*H_2*H_m0) in
  let matrix_data := scale_at matrix_data idx (Tge) in
  let matrix_data := scale_at matrix_data idx (rd (inv_scale data) (j + 3) *
    rd (scale data) (j + 9)) in
  (* H_m0 by H2_2 *)
  let idx := SPARSEIDX i 28 in
  let matrix_data := store matrix_data idx
    (-k19*H_m0) in
  let matrix_data := scale_at matrix_data idx (rd (inv_scale data) (j + 4) *
    rd (scale data) (j + 1)) in
  (* H_m0 by H_1 *)
  let idx := SPARSEIDX i 29 in
  let matrix_data := store matrix_data idx
    (k07*de - k08*H_m0 - k15*H_m0) in
  let matrix_data := scale_at matrix_data idx (rd (inv_scale data) (j + 4) *
    rd (scale data) (j + 2)) in
  (* H_m0 by H_2 *)
  let idx := SPARSEIDX i 30 in
  let matrix_data := store matrix_data idx
    (-k16*H_m0 - k17*H_m0) in
  let matrix_data := scale_at matrix_data idx (rd (inv_scale data) (j + 4) *
    rd (scale data) (j + 3)) in
  (* H_m0 by H_m0 *)
  let idx := SPARSEIDX i 31 in
  let matrix_data := store matrix_data idx
    (-k08*H_1 - k14*de - k15*H_1 - k16*H_2 - k17*H_2 - k19*H2_2) in
  let matrix_data := scale_at matrix_data idx (rd (inv_scale data) (j + 4) *
    rd (scale data) (j + 4)) in
  (* H_m0 by de *)
  let idx := SPARSEIDX i 32 in
  let matrix_data := store matrix_data idx
    (k07*H_1 - k14*H_m0) in
  let matrix_data := scale_at matrix_data idx (rd (inv_scale data) (j + 4) *
    rd (scale data) (j + 8)) in
  (* H_m0 by ge *)
  let idx := SPARSEIDX i 33 in
  let matrix_data := store matrix_data idx
    (rk07*H_1*de - rk08*H_1*H_m0 - rk14*H_m0*de - rk15*H_1*H_m0 -
      rk16*H_2*H_m0 - rk17*H_2*H_m0 - rk19*H2_2*H_m0) in
  let matrix_data := scale_at matrix_data idx (Tge) in
  let matrix_data := scale_at matrix_data idx (rd (inv_scale data) (j + 4) *
    rd (scale data) (j + 9)) in
  (* He_1 by He_1 *)
  let idx := SPARSEIDX i 34 in
  let matrix_data := store matrix_data idx
    (-k03*de) in
  let matrix_data := scale_at matrix_data idx (rd (inv_scale data) (j + 5) *
    rd (scale data) (j + 5)) in
  (* He_1 by He_2 *)
  let idx := SPARSEIDX i 35 in
  let matrix_data := store matrix_data idx
    (k04*de) in
  let matrix_data := scale_at matrix_data idx (rd (inv_scale data) (j + 5) *
    rd (scale data) (j + 6)) in
  (* He_1 by de *)
  let idx := SPARSEIDX i 36 in
  let matrix_data := store matrix_data idx
    (-k03*He_1 + k04*He_2) in
  let matrix_data := scale_at matrix_data idx (rd (inv_scale data) (j + 5) *
    rd (scale data) (j + 8)) in
  (* He_1 by ge *)
  let idx := SPARSEIDX i 37 in
  let matrix_data := store matrix_data idx
    (-rk03*He_1*de + rk04*He_2*de) in
  let matrix_data := scale_at matrix_data idx (Tge) in
  let matrix_data := scale_at matrix_data idx (rd (inv_scale data) (j + 5) *
    rd (scale data) (j + 9)) in
  (* He_2 by He_1 *)
  let idx := SPARSEIDX i 38 in
  let matrix_data := store matrix_data idx
    (k03*de) in
  let matrix_data := scale_at matrix_data idx (rd (inv_scale data) (j + 6) *
    rd (scale data) (j + 5)) in
  (* He_2 by He_2 *)
  let idx := SPARSEIDX i 39 in
  let matrix_data := store matrix_data idx
    (-k04*de - k05*de) in
  let matrix_data := scale_at matrix_data idx (rd (inv_scale data) (j + 6) *
    rd (scale data) (j + 6)) in
  (* He_2 by He_3 *)
  let idx := SPARSEIDX i 40 in
  let matrix_data := store matrix_data idx
    (k06*de) in
  let matrix_data := scale_at matrix_data idx (rd (inv_scale data) (j + 6) *
    rd (scale data) (j + 7)) in
  (* He_2 by de *)
  let idx := SPARSEIDX i 41 in
  let matrix_data := store matrix_data idx
    (k03*He_1 - k04*He_2 - k05*He_2 + k06*He_3) in
  let matrix_data := scale_at matrix_data idx (rd (inv_scale data) (j + 6) *
    rd (scale data) (j + 8)) in
  (* He_2 by ge *)
  let idx := SPARSEIDX i 42 in
  let matrix_data := store matrix_data idx
    (rk03*He_1*de - rk04*He_2*de - rk05*He_2*de + rk06*He_3*de) in
  let matrix_data := scale_at matrix_data idx (Tge) in
  let matrix_data := scale_at matrix_data idx (rd (inv_scale data) (j + 6) *
    rd (scale data) (j + 9)) in
  (* He_3 by He_2 *)
  let idx := SPARSEIDX i 43 in
  let matrix_data := store matrix_data idx
    (k05*de) in
  let matrix_data := scale_at matrix_data idx (rd (inv_scale data) (j + 7) *
    rd (scale data) (j + 6)) in
  (* He_3 by He_3 *)
  let idx := SPARSEIDX i 44 in
  let matrix_data := store matrix_data idx
    (-k06*de) in
  let matrix_data := scale_at matrix_data idx (rd (inv_scale data) (j + 7) *
    rd (scale data) (j + 7)) in
  (* He_3 by de *)
  let idx := SPARSEIDX i 45 in
  let matrix_data := store matrix_data idx
    (k05*He_2 - k06*He_3) in
  let matrix_data := scale_at matrix_data idx (rd (inv_scale data) (j + 7) *
    rd (scale data) (j + 8)) in
  (* He_3 by ge *)
  let idx := SPARSEIDX i 46 in
  let matrix_data := store matrix_data idx
    (rk05*He_2*de - rk06*He_3*de) in
  let matrix_data := scale_at matrix_data idx (Tge) in
  let matrix_data := scale_at matrix_data idx (rd (inv_scale data) (j + 7) *
    rd (scale data) (j + 9)) in
  (* de by H2_2 *)
  let idx := SPARSEIDX i 47 in
  let matrix_data := store matrix_data idx
    (-k18*de) in
  let matrix_data := scale_at matrix_data idx (rd (inv_scale data) (j + 8) *
    rd (scale data) (j + 1)) in
  (* de by H_1 *)
  let idx := SPARSEIDX i 48 in
  let matrix_data := store matrix_data idx
    (k01*de - k07*de + k08*H_m0 + k15*H_m0) in
  let matrix_data := scale_at matrix_data idx (rd (inv_scale data) (j + 8) *
    rd (scale data) (j + 2)) in
  (* de by H_2 *)
  let idx := SPARSEIDX i 49 in
  let matrix_data := store matrix_data idx
    (-k02*de + k17*H_m0) in
  let matrix_data := scale_at matrix_data idx (rd (inv_scale data) (j + 8) *
    rd (scale data) (j + 3)) in
  (* de by H_m0 *)
  let idx := SPARSEIDX i 50 in
  let matrix_data := store matrix_data idx
    (k08*H_1 + k14*de + k15*H_1 + k17*H_2) in
  let matrix_data := scale_at matrix_data idx (rd (inv_scale data) (j + 8) *
    rd (scale data) (j + 4)) in
  (* de by He_1 *)
  let idx := SPARSEIDX i 51 in
  let matrix_data := store matrix_data idx
    (k03*de) in
  let matrix_data := scale_at matrix_data idx (rd (inv_scale data) (j + 8) *
    rd (scale data) (j + 5)) in
  (* de by He_2 *)
  let idx := SPARSEIDX i 52 in
  let matrix_data := store matrix_data idx
    (-k04*de + k05*de) in
  let matrix_data := scale_at matrix_data idx (rd (inv_scale data) (j + 8) *
    rd (scale data) (j + 6)) in
  (* de by He_3 *)
  let idx := SPARSEIDX i 53 in
  let matrix_data := store matrix_data idx
    (-k06*de) in
  let matrix_data := scale_at matrix_data idx (rd (inv_scale data) (j + 8) *
    rd (scale data) (j + 7)) in
  (* de by de *)
  let idx := SPARSEIDX i 54 in
  let matrix_data := store matrix_data idx
    (k01*H_1 - k02*H_2 + k03*He_1 - k04*He_2 + k05*He_2 - k06*He_3 - k07*H_1
      + k14*H_m0 - k18*H2_2) in
  let matrix_data := scale_at matrix_data idx (rd (inv_scale data) (j + 8) *
    rd (scale data) (j + 8)) in
  (* de by ge *)
  let idx := SPARSEIDX i 55 in
  let matrix_data := store matrix_data idx
    (rk01*H_1*de - rk02*H_2*de + rk03*He_1*de - rk04*He_2*de + rk05*He_2*de
      - rk06*He_3*de - rk07*H_1*de + rk08*H_1*H_m0 + rk14*H_m0*de +
      rk15*H_1*H_m0 + rk17*H_2*H_m0 - rk18*H2_2*de) in
  let matrix_data := scale_at matrix_data idx (Tge) in
  let matrix_data := scale_at matrix_data idx (rd (inv_scale data) (j + 8) *
    rd (scale data) (j + 9)) in
  (* ge by H2_1 *)
  let idx := SPARSEIDX i 56 in
  let matrix_data := store matrix_data idx
    (-H2_1*gloverabel08_gaH2*(gloverabel08_h2lte) ^
      2*h2_optical_depth_approx/((gloverabel08_h2lte/(H2_1*gloverabel08_gaH2
      + H_1*gloverabel08_gaHI + H_2*gloverabel08_gaHp +
      He_1*gloverabel08_gaHe + de*gloverabel08_gael) + 1.0) ^
      2*(H2_1*gloverabel08_gaH2 + H_1*gloverabel08_gaHI +
      H_2*gloverabel08_gaHp + He_1*gloverabel08_gaHe + de*gloverabel08_gael)
      ^ 2) -
      0.5*H_1*h2formation_h2mcool*1.0/(h2formation_ncrn/(H2_1*h2formation_ncrd2
      + H_1*h2formation_ncrd1) + 1.0) -
      2.0158800000000001*cie_cooling_cieco*mdensity -
      gloverabel08_h2lte*h2_optical_depth_approx/(gloverabel08_h2lte/(H2_1*gloverabel08_gaH2
      + H_1*gloverabel08_gaHI + H_2*gloverabel08_gaHp +
      He_1*gloverabel08_gaHe + de*gloverabel08_gael) + 1.0) +
      0.5*h2formation_ncrd2*h2formation_ncrn*powerRZ
      (h2formation_ncrn/(H2_1*h2formation_ncrd2 + H_1*h2formation_ncrd1) +
      1.0) (-2)*(-H2_1*H_1*h2formation_h2mcool + (H_1) ^
      3*h2formation_h2mheat)/(H2_1*h2formation_ncrd2 +
      H_1*h2formation_ncrd1) ^ 2) in
  let matrix_data := scale_at matrix_data idx (inv_mdensity) in
  let matrix_data := scale_at matrix_data idx (rd (inv_scale data) (j + 9) *
    rd (scale data) (j + 0)) in
  (* ge by H_1 *)
  let idx := SPARSEIDX i 57 in
  let matrix_data := store matrix_data idx
    (-H2_1*gloverabel08_gaHI*(gloverabel08_h2lte) ^
      2*h2_optical_depth_approx/((gloverabel08_h2lte/(H2_1*gloverabel08_gaH2
      + H_1*gloverabel08_gaHI + H_2*gloverabel08_gaHp +
      He_1*gloverabel08_gaHe + de*gloverabel08_gael) + 1.0) ^
      2*(H2_1*gloverabel08_gaH2 + H_1*gloverabel08_gaHI +
      H_2*gloverabel08_gaHp + He_1*gloverabel08_gaHe + de*gloverabel08_gael)
      ^ 2) - ceHI_ceHI*de - ciHI_ciHI*de +
      0.5*h2formation_ncrd1*h2formation_ncrn*powerRZ
      (h2formation_ncrn/(H2_1*h2formation_ncrd2 + H_1*h2formation_ncrd1) +
      1.0) (-2)*(-H2_1*H_1*h2formation_h2mcool + (H_1) ^
      3*h2formation_h2mheat)/(H2_1*h2formation_ncrd2 +
      H_1*h2formation_ncrd1) ^ 2 + 0.5*(-H2_1*h2formation_h2mcool + 3*(H_1)
      ^ 2*h2formation_h2mheat)*1.0/(h2formation_ncrn/(H2_1*h2formation_ncrd2
      + H_1*h2formation_ncrd1) + 1.0)) in
  let matrix_data := scale_at matrix_data idx (inv_mdensity) in
  let matrix_data := scale_at matrix_data idx (rd (inv_scale data) (j + 9) *
    rd (scale data) (j + 2)) in
  (* ge by H_2 *)
  let idx := SPARSEIDX i 58 in
  let matrix_data := store matrix_data idx
    (-H2_1*gloverabel08_gaHp*(gloverabel08_h2lte) ^
      2*h2_optical_depth_approx/((gloverabel08_h2lte/(H2_1*gloverabel08_gaH2
      + H_1*gloverabel08_gaHI + H_2*gloverabel08_gaHp +
      He_1*gloverabel08_gaHe + de*gloverabel08_gael) + 1.0) ^
      2*(H2_1*gloverabel08_gaH2 + H_1*gloverabel08_gaHI +
      H_2*gloverabel08_gaHp + He_1*gloverabel08_gaHe + de*gloverabel08_gael)
      ^ 2) - brem_brem*de - de*reHII_reHII) in
  let matrix_data := scale_at matrix_data idx (inv_mdensity) in
  let matrix_data := scale_at matrix_data idx (rd (inv_scale data) (j + 9) *
    rd (scale data) (j + 3)) in
  (* ge by He_1 *)
  let idx := SPARSEIDX i 59 in
  let matrix_data := store matrix_data idx
    (-H2_1*gloverabel08_gaHe*(gloverabel08_h2lte) ^
      2*h2_optical_depth_approx/((gloverabel08_h2lte/(H2_1*gloverabel08_gaH2
      + H_1*gloverabel08_gaHI + H_2*gloverabel08_gaHp +
      He_1*gloverabel08_gaHe + de*gloverabel08_gael) + 1.0) ^
      2*(H2_1*gloverabel08_gaH2 + H_1*gloverabel08_gaHI +
      H_2*gloverabel08_gaHp + He_1*gloverabel08_gaHe + de*gloverabel08_gael)
      ^ 2) - ciHeI_ciHeI*de) in
  let matrix_data := scale_at matrix_data idx (inv_mdensity) in
  let matrix_data := scale_at matrix_data idx (rd (inv_scale data) (j + 9) *
    rd (scale data) (j + 5)) in
  (* ge by He_2 *)
  let idx := SPARSEIDX i 60 in
  let matrix_data := store matrix_data idx
    (-brem_brem*de - ceHeII_ceHeII*de - ceHeI_ceHeI*(de) ^ 2 -
      ciHeII_ciHeII*de - ciHeIS_ciHeIS*(de) ^ 2 - de*reHeII1_reHeII1 -
      de*reHeII2_reHeII2) in
  let matrix_data := scale_at matrix_data idx (inv_mdensity) in
  let matrix_data := scale_at matrix_data idx (rd (inv_scale data) (j + 9) *
    rd (scale data) (j + 6)) in
  (* ge by He_3 *)
  let idx := SPARSEIDX i 61 in
  let matrix_data := store matrix_data idx
    (-4.0*brem_brem*de - de*reHeIII_reHeIII) in
  let matrix_data := scale_at matrix_data idx (inv_mdensity) in
  let matrix_data := scale_at matrix_data idx (rd (inv_scale data) (j + 9) *
    rd (scale data) (j + 7)) in
  (* ge by de *)
  let idx := SPARSEIDX i 62 in
  let matrix_data := store matrix_data idx
    (-H2_1*gloverabel08_gael*(gloverabel08_h2lte) ^
      2*h2_optical_depth_approx/((gloverabel08_h2lte/(H2_1*gloverabel08_gaH2
      + H_1*gloverabel08_gaHI + H_2*gloverabel08_gaHp +
      He_1*gloverabel08_gaHe + de*gloverabel08_gael) + 1.0) ^
      2*(H2_1*gloverabel08_gaH2 + H_1*gloverabel08_gaHI +
      H_2*gloverabel08_gaHp + He_1*gloverabel08_gaHe + de*gloverabel08_gael)
      ^ 2) - H_1*ceHI_ceHI - H_1*ciHI_ciHI - H_2*reHII_reHII -
      He_1*ciHeI_ciHeI - He_2*ceHeII_ceHeII - 2*He_2*ceHeI_ceHeI*de -
      He_2*ciHeII_ciHeII - 2*He_2*ciHeIS_ciHeIS*de - He_2*reHeII1_reHeII1 -
      He_2*reHeII2_reHeII2 - He_3*reHeIII_reHeIII - brem_brem*(H_2 + He_2 +
      4.0*He_3) - compton_comp_*(z + 1.0) ^ 4*(T - 2.73*z - 2.73)) in
  let matrix_data := scale_at matrix_data idx (inv_mdensity) in
  let matrix_data := scale_at matrix_data idx (rd (inv_scale data) (j + 9) *
    rd (scale data) (j + 8)) in
  (* ge by ge *)
  let idx := SPARSEIDX i 63 in
  let matrix_data := store matrix_data idx
    (-2.0158800000000001*H2_1*cie_cooling_cieco*cie_optical_depth_approx*mdensity
      -
      H2_1*cie_optical_depth_approx*gloverabel08_h2lte*h2_optical_depth_approx/(gloverabel08_h2lte/(H2_1*gloverabel08_gaH2
      + H_1*gloverabel08_gaHI + H_2*gloverabel08_gaHp +
      He_1*gloverabel08_gaHe + de*gloverabel08_gael) + 1.0) -
      H_1*ceHI_ceHI*cie_optical_depth_approx*de -
      H_1*ciHI_ciHI*cie_optical_depth_approx*de -
      H_2*cie_optical_depth_approx*de*reHII_reHII -
      He_1*ciHeI_ciHeI*cie_optical_depth_approx*de -
      He_2*ceHeII_ceHeII*cie_optical_depth_approx*de -
      He_2*ceHeI_ceHeI*cie_optical_depth_approx*(de) ^ 2 -
      He_2*ciHeII_ciHeII*cie_optical_depth_approx*de -
      He_2*ciHeIS_ciHeIS*cie_optical_depth_approx*(de) ^ 2 -
      He_2*cie_optical_depth_approx*de*reHeII1_reHeII1 -
      He_2*cie_optical_depth_approx*de*reHeII2_reHeII2 -
      He_3*cie_optical_depth_approx*de*reHeIII_reHeIII -
      brem_brem*cie_optical_depth_approx*de*(H_2 + He_2 + 4.0*He_3) -
      cie_optical_depth_approx*compton_comp_*de*(z + 1.0) ^ 4*(T - 2.73*z -
      2.73) + 0.5*1.0/(h2formation_ncrn/(H2_1*h2formation_ncrd2 +
      H_1*h2formation_ncrd1) + 1.0)*(-H2_1*H_1*h2formation_h2mcool + (H_1) ^
      3*h2formation_h2mheat)) in
  (* ad-hoc extra term of f_ge by ge *)
  (* considering ONLY the h2formation/ and continuum cooling *)
  let matrix_data := store matrix_data idx
    (-H2_1*gloverabel08_h2lte*h2_optical_depth_approx*(-gloverabel08_h2lte*(-H2_1*rgloverabel08_gaH2
      - H_1*rgloverabel08_gaHI - H_2*rgloverabel08_gaHp -
      He_1*rgloverabel08_gaHe -
      de*rgloverabel08_gael)/(H2_1*gloverabel08_gaH2 + H_1*gloverabel08_gaHI
      + H_2*gloverabel08_gaHp + He_1*gloverabel08_gaHe +
      de*gloverabel08_gael) ^ 2 -
      rgloverabel08_h2lte/(H2_1*gloverabel08_gaH2 + H_1*gloverabel08_gaHI +
      H_2*gloverabel08_gaHp + He_1*gloverabel08_gaHe +
      de*gloverabel08_gael))/(gloverabel08_h2lte/(H2_1*gloverabel08_gaH2 +
      H_1*gloverabel08_gaHI + H_2*gloverabel08_gaHp + He_1*gloverabel08_gaHe
      + de*gloverabel08_gael) + 1.0) ^ 2 -
      H2_1*h2_optical_depth_approx*rgloverabel08_h2lte/(gloverabel08_h2lte/(H2_1*gloverabel08_gaH2
      + H_1*gloverabel08_gaHI + H_2*gloverabel08_gaHp +
      He_1*gloverabel08_gaHe + de*gloverabel08_gael) + 1.0) + 0.5*powerRZ
      (h2formation_ncrn/(H2_1*h2formation_ncrd2 + H_1*h2formation_ncrd1) +
      1.0) (-2)*(-H2_1*H_1*h2formation_h2mcool + (H_1) ^
      3*h2formation_h2mheat)*(-1.0*h2formation_ncrn*(-H2_1*rh2formation_ncrd2
      - H_1*rh2formation_ncrd1)/(H2_1*h2formation_ncrd2 +
      H_1*h2formation_ncrd1) ^ 2 -
      1.0*rh2formation_ncrn/(H2_1*h2formation_ncrd2 +
      H_1*h2formation_ncrd1)) +
      0.5*1.0/(h2formation_ncrn/(H2_1*h2formation_ncrd2 +
      H_1*h2formation_ncrd1) + 1.0)*(-H2_1*H_1*rh2formation_h2mcool + (H_1)
      ^ 3*rh2formation_h2mheat)) in
  let matrix_data := scale_at matrix_data idx (inv_mdensity) in
  let matrix_data := scale_at matrix_data idx (Tge) in
  let matrix_data := scale_at matrix_data idx (rd (inv_scale data) (j + 9) *
    rd (scale data) (j + 9)) in
  matrix_data.

(** The column indices and row pointers of the cell. *)
Definition jacobian_cell_pattern (nstrip : Z) (i : nat)
    (colvals rowptrs : list Z) : list Z * list Z :=
  let colvals :=
    storeZ colvals (i * NSPARSE + 0) (Z.of_nat (i * NSPECIES + 0)) in
  let colvals :=
    storeZ colvals (i * NSPARSE + 1) (Z.of_nat (i * NSPECIES + 1)) in
  let colvals :=
    storeZ colvals (i * NSPARSE + 2) (Z.of_nat (i * NSPECIES + 2)) in
  let colvals :=
    storeZ colvals (i * NSPARSE + 3) (Z.of_nat (i * NSPECIES + 3)) in
  let colvals :=
    storeZ colvals (i * NSPARSE + 4) (Z.of_nat (i * NSPECIES + 4)) in
  let colvals :=
    storeZ colvals (i * NSPARSE + 5) (Z.of_nat (i * NSPECIES + 8)) in
  let colvals :=
    storeZ colvals (i * NSPARSE + 6) (Z.of_nat (i * NSPECIES + 9)) in
  let colvals :=
    storeZ colvals (i * NSPARSE + 7) (Z.of_nat (i * NSPECIES + 0)) in
  let colvals :=
    storeZ colvals (i * NSPARSE + 8) (Z.of_nat (i * NSPECIES + 1)) in
  let colvals :=
    storeZ colvals (i * NSPARSE + 9) (Z.of_nat (i * NSPECIES + 2)) in
  let colvals :=
    storeZ colvals (i * NSPARSE + 10) (Z.of_nat (i * NSPECIES + 3)) in
  let colvals :=
    storeZ colvals (i * NSPARSE + 11) (Z.of_nat (i * NSPECIES + 4)) in
  let colvals :=
    storeZ colvals (i * NSPARSE + 12) (Z.of_nat (i * NSPECIES + 8)) in
  let colvals :=
    storeZ colvals (i * NSPARSE + 13) (Z.of_nat (i * NSPECIES + 9)) in
  let colvals :=
    storeZ colvals (i * NSPARSE + 14) (Z.of_nat (i * NSPECIES + 0)) in
  let colvals :=
    storeZ colvals (i * NSPARSE + 15) (Z.of_nat (i * NSPECIES + 1)) in
  let colvals :=
    storeZ colvals (i * NSPARSE + 16) (Z.of_nat (i * NSPECIES + 2)) in
  let colvals :=
    storeZ colvals (i * NSPARSE + 17) (Z.of_nat (i * NSPECIES + 3)) in
  let colvals :=
    storeZ colvals (i * NSPARSE + 18) (Z.of_nat (i * NSPECIES + 4)) in
  let colvals :=
    storeZ colvals (i * NSPARSE + 19) (Z.of_nat (i * NSPECIES + 8)) in
  let colvals :=
    storeZ colvals (i * NSPARSE + 20) (Z.of_nat (i * NSPECIES + 9)) in
  let colvals :=
    storeZ colvals (i * NSPARSE + 21) (Z.of_nat (i * NSPECIES + 0)) in
  let colvals :=
    storeZ colvals (i * NSPARSE + 22) (Z.of_nat (i * NSPECIES + 1)) in
  let colvals :=
    storeZ colvals (i * NSPARSE + 23) (Z.of_nat (i * NSPECIES + 2)) in
  let colvals :=
    storeZ colvals (i * NSPARSE + 24) (Z.of_nat (i * NSPECIES + 3)) in
  let colvals :=
    storeZ colvals (i * NSPARSE + 25) (Z.of_nat (i * NSPECIES + 4)) in
  let colvals :=
    storeZ colvals (i * NSPARSE + 26) (Z.of_nat (i * NSPECIES + 8)) in
  let colvals :=
    storeZ colvals (i * NSPARSE + 27) (Z.of_nat (i * NSPECIES + 9)) in
  let colvals :=
    storeZ colvals (i * NSPARSE + 28) (Z.of_nat (i * NSPECIES + 1)) in
  let colvals :=
    storeZ colvals (i * NSPARSE + 29) (Z.of_nat (i * NSPECIES + 2)) in
  let colvals :=
    storeZ colvals (i * NSPARSE + 30) (Z.of_nat (i * NSPECIES + 3)) in
  let colvals :=
    storeZ colvals (i * NSPARSE + 31) (Z.of_nat (i * NSPECIES + 4)) in
  let colvals :=
    storeZ colvals (i * NSPARSE + 32) (Z.of_nat (i * NSPECIES + 8)) in
  let colvals :=
    storeZ colvals (i * NSPARSE + 33) (Z.of_nat (i * NSPECIES + 9)) in
  let colvals :=
    storeZ colvals (i * NSPARSE + 34) (Z.of_nat (i * NSPECIES + 5)) in
  let colvals :=
    storeZ colvals (i * NSPARSE + 35) (Z.of_nat (i * NSPECIES + 6)) in
  let colvals :=
    storeZ colvals (i * NSPARSE + 36) (Z.of_nat (i * NSPECIES + 8)) in
  let colvals :=
    storeZ colvals (i * NSPARSE + 37) (Z.of_nat (i * NSPECIES + 9)) in
  let colvals :=
    storeZ colvals (i * NSPARSE + 38) (Z.of_nat (i * NSPECIES + 5)) in
  let colvals :=
    storeZ colvals (i * NSPARSE + 39) (Z.of_nat (i * NSPECIES + 6)) in
  let colvals :=
    storeZ colvals (i * NSPARSE + 40) (Z.of_nat (i * NSPECIES + 7)) in
  let colvals :=
    storeZ colvals (i * NSPARSE + 41) (Z.of_nat (i * NSPECIES + 8)) in
  let colvals :=
    storeZ colvals (i * NSPARSE + 42) (Z.of_nat (i * NSPECIES + 9)) in
  let colvals :=
    storeZ colvals (i * NSPARSE + 43) (Z.of_nat (i * NSPECIES + 6)) in
  let colvals :=
    storeZ colvals (i * NSPARSE + 44) (Z.of_nat (i * NSPECIES + 7)) in
  let colvals :=
    storeZ colvals (i * NSPARSE + 45) (Z.of_nat (i * NSPECIES + 8)) in
  let colvals :=
    storeZ colvals (i * NSPARSE + 46) (Z.of_nat (i * NSPECIES + 9)) in
  let colvals :=
    storeZ colvals (i * NSPARSE + 47) (Z.of_nat (i * NSPECIES + 1)) in
  let colvals :=
    storeZ colvals (i * NSPARSE + 48) (Z.of_nat (i * NSPECIES + 2)) in
  let colvals :=
    storeZ colvals (i * NSPARSE + 49) (Z.of_nat (i * NSPECIES + 3)) in
  let colvals :=
    storeZ colvals (i * NSPARSE + 50) (Z.of_nat (i * NSPECIES + 4)) in
  let colvals :=
    storeZ colvals (i * NSPARSE + 51) (Z.of_nat (i * NSPECIES + 5)) in
  let colvals :=
    storeZ colvals (i * NSPARSE + 52) (Z.of_nat (i * NSPECIES + 6)) in
  let colvals :=
    storeZ colvals (i * NSPARSE + 53) (Z.of_nat (i * NSPECIES + 7)) in
  let colvals :=
    storeZ colvals (i * NSPARSE + 54) (Z.of_nat (i * NSPECIES + 8)) in
  let colvals :=
    storeZ colvals (i * NSPARSE + 55) (Z.of_nat (i * NSPECIES + 9)) in
  let colvals :=
    storeZ colvals (i * NSPARSE + 56) (Z.of_nat (i * NSPECIES + 0)) in
  let colvals :=
    storeZ colvals (i * NSPARSE + 57) (Z.of_nat (i * NSPECIES + 2)) in
  let colvals :=
    storeZ colvals (i * NSPARSE + 58) (Z.of_nat (i * NSPECIES + 3)) in
  let colvals :=
    storeZ colvals (i * NSPARSE + 59) (Z.of_nat (i * NSPECIES + 5)) in
  let colvals :=
    storeZ colvals (i * NSPARSE + 60) (Z.of_nat (i * NSPECIES + 6)) in
  let colvals :=
    storeZ colvals (i * NSPARSE + 61) (Z.of_nat (i * NSPECIES + 7)) in
  let colvals :=
    storeZ colvals (i * NSPARSE + 62) (Z.of_nat (i * NSPECIES + 8)) in
  let colvals :=
    storeZ colvals (i * NSPARSE + 63) (Z.of_nat (i * NSPECIES + 9)) in
  let rowptrs :=
    storeZ rowptrs (i * NSPECIES + 0) (Z.of_nat (i * NSPARSE + 0)) in
  let rowptrs :=
    storeZ rowptrs (i * NSPECIES + 1) (Z.of_nat (i * NSPARSE + 7)) in
  let rowptrs :=
    storeZ rowptrs (i * NSPECIES + 2) (Z.of_nat (i * NSPARSE + 14)) in
  let rowptrs :=
    storeZ rowptrs (i * NSPECIES + 3) (Z.of_nat (i * NSPARSE + 21)) in
  let rowptrs :=
    storeZ rowptrs (i * NSPECIES + 4) (Z.of_nat (i * NSPARSE + 28)) in
  let rowptrs :=
    storeZ rowptrs (i * NSPECIES + 5) (Z.of_nat (i * NSPARSE + 34)) in
  let rowptrs :=
    storeZ rowptrs (i * NSPECIES + 6) (Z.of_nat (i * NSPARSE + 38)) in
  let rowptrs :=
    storeZ rowptrs (i * NSPECIES + 7) (Z.of_nat (i * NSPARSE + 43)) in
  let rowptrs :=
    storeZ rowptrs (i * NSPECIES + 8) (Z.of_nat (i * NSPARSE + 47)) in
  let rowptrs :=
    storeZ rowptrs (i * NSPECIES + 9) (Z.of_nat (i * NSPARSE + 56)) in
  let rowptrs :=
    if (Z.of_nat i =? nstrip - 1)%Z
    then storeZ rowptrs (Z.to_nat (nstrip * Z.of_nat NSPECIES))
           (nstrip * Z.of_nat NSPARSE)%Z
    else rowptrs in
  (colvals, rowptrs).

(** The body of the loop over cells. *)
Definition jacobian_cell (ydata : list R) (nstrip : Z)
    (data : cvklu_data) (i : nat) (J : SUNSparseMatrix)
    : SUNSparseMatrix :=
  let j := (i * NSPECIES)%nat in
  let H2_1 := rd ydata j * rd (scale data) j in
  let H2_2 := rd ydata (j+1) * rd (scale data) (j+1) in
  let H_1 := rd ydata (j+2) * rd (scale data) (j+2) in
  let H_2 := rd ydata (j+3) * rd (scale data) (j+3) in
  let H_m0 := rd ydata (j+4) * rd (scale data) (j+4) in
  let He_1 := rd ydata (j+5) * rd (scale data) (j+5) in
  let He_2 := rd ydata (j+6) * rd (scale data) (j+6) in
  let He_3 := rd ydata (j+7) * rd (scale data) (j+7) in
  let de := rd ydata (j+8) * rd (scale data) (j+8) in
  let ge := rd ydata (j+9) * rd (scale data) (j+9) in
  let matrix_data :=
    jacobian_cell_entries data i H2_1 H2_2 H_1 H_2 H_m0 He_1 He_2 He_3 de
      ge (sm_data J) in
  let pattern :=
    jacobian_cell_pattern nstrip i (sm_indexvals J) (sm_indexptrs J) in
  mk_SUNSparseMatrix matrix_data (fst pattern) (snd pattern).

(** The function proper.  [fy] and the three work vectors are not
    used; the structure is only read.  The result is the value returned
    and the matrix as the call leaves it. *)
Definition calculate_jacobian_cvklu (t : R) (y fy : list R)
    (J : SUNSparseMatrix) (nstrip : Z) (user_data : cvklu_data)
    : Z * SUNSparseMatrix :=
  let data := user_data in
  let ydata := y in
  let J := SUNMatZero J in
  (0%Z, RAJA_forall 0 nstrip (jacobian_cell ydata nstrip data) J).

#[global] Arguments jacobian_cell_entries : simpl never.
#[global] Arguments jacobian_cell_pattern : simpl never.
#[global] Arguments jacobian_cell : simpl never.


End Chem.

(** ** Vectors

    The operations of the SUNDIALS vector library that the driver uses,
    after the library's documentation.  The operands of an operation
    have equal lengths in the program. *)

Module NVector.

(** [N_VConst(c, z)]: every entry of [z] becomes [c]. *)
Definition N_VConst (c : R) (z : list R) : list R :=
  replicate (length z) c.

(** [N_VScale(c, x, z)]: [z = c x]. *)
Definition N_VScale (c : R) (x : list R) : list R :=
  map (fun xi => c * xi) x.

(** [N_VLinearSum(a, x, b, y, z)]: [z = a x + b y]. *)
Definition N_VLinearSum (a : R) (x : list R) (b : R) (y : list R)
    : list R :=
  zip_with (fun xi yi => a * xi + b * yi) x y.

Definition sum_list (l : list R) : R := foldr Rplus 0 l.

(** [N_VWrmsNorm(x, w)]: the weighted root-mean-square norm
    [sqrt (sum_i (x_i w_i)^2 / N)]. *)
Definition N_VWrmsNorm (x w : list R) : R :=
  sqrt (sum_list (zip_with (fun xi wi => (xi * wi) ^ 2) x w)
        / INR (length x)).

(** On an MPIManyVector the operation runs over every sub-vector. *)
Definition N_VConst_MPIManyVector (c : R) (z : list (list R))
    : list (list R) :=
  map (N_VConst c) z.

(** [N_VGetSubvector_MPIManyVector(v, vec_num)]; [None] is the NULL
    pointer. *)
Definition N_VGetSubvector_MPIManyVector (v : list (list R))
    (vec_num : nat) : option (list R) :=
  v !! vec_num.

End NVector.

(** ** The driver: [imex_chem_hydro_main.cpp] *)

Module Driver.
Import NVector.


(** The fields of [EulerData] and [ARKODEParameters] that the embedded
    code reads or writes. *)
Record EulerData : Type := mk_EulerData {
  nxl : Z;
  nyl : Z;
  nzl : Z;
  dx : R;
  dy : R;
  dz : R;
  t0 : R;
  tf : R;
  nout : Z;
  nchem : Z;
  myid : Z;
  TimeUnits : R;
  RxNetData : Chem.cvklu_data;
  fchemcur : option (list R)
}.


Definition set_RxNetData (v : Chem.cvklu_data) (u : EulerData)
    : EulerData :=
  mk_EulerData (nxl u) (nyl u) (nzl u) (dx u) (dy u) (dz u) (t0 u) (tf u)
    (nout u) (nchem u) (myid u) (TimeUnits u) v (fchemcur u).

Definition set_fchemcur (v : option (list R)) (u : EulerData)
    : EulerData :=
  mk_EulerData (nxl u) (nyl u) (nzl u) (dx u) (dy u) (dz u) (t0 u) (tf u)
    (nout u) (nchem u) (myid u) (TimeUnits u) (RxNetData u) v.



(** Return values of the two calls a function makes to its profiling
    timer. *)
Record TimerCalls : Type := {
  timer_start : Z;
  timer_stop : Z
}.

Definition ZERO : R := 0.0.
Definition ONE : R := 1.0.

(** *** The set-up checks of [main]

    The statements from "set NoOutput flag based on nout input" to
    "ensure that this was compiled with chemical species".  They run
    after the inputs are loaded and before the solution vectors, the
    integrator ([ARKStepCreate]) and the time loop ([ARKStepEvolve]). *)






(** *** [fimpl]

    The result is the value returned, the output vector [wdot] and the
    user data, the last two as the call leaves them.  [wchemdot] is the
    sub-vector 5 of [wdot] itself: what is written through it is
    written into [wdot]. *)
Definition fimpl (tm : TimerCalls) (t : R) (w wdot : list (list R))
    (udata : EulerData) : Z * list (list R) * EulerData :=
  (* start timer *)
  if check_flag (FlagInt (timer_start tm)) 1 then ((-1)%Z, wdot, udata)
  else
    (* initialize all outputs to zero (necessary!!) *)
    let wdot := N_VConst_MPIManyVector ZERO wdot in
    (* unpack chemistry subvectors *)
    let wchem := N_VGetSubvector_MPIManyVector w 5 in
    if check_flag (FlagPtr (bool_decide (is_Some wchem))) 0
    then ((-1)%Z, wdot, udata)
    else
      let wchemdot := N_VGetSubvector_MPIManyVector wdot 5 in
      if check_flag (FlagPtr (bool_decide (is_Some wchemdot))) 0
      then ((-1)%Z, wdot, udata)
      else
        (* call Dengo RHS routine *)
        let r :=
          Chem.calculate_rhs_cvklu t (default [] wchem)
            (default [] wchemdot) (nxl udata * nyl udata * nzl udata)
            (RxNetData udata) in
        let retval := fst (fst r) in
        let wdot := <[5%nat := snd (fst r)]> wdot in
        let udata := set_RxNetData (snd r) udata in
        if check_flag (FlagInt retval) 1 then (retval, wdot, udata)
        else
          (* scale wchemdot by TimeUnits to handle step size
             nondimensionalization *)
          let wchemdot := N_VScale (TimeUnits udata) (snd (fst r)) in
          let wdot := <[5%nat := wchemdot]> wdot in
          (* save chem RHS for use in ATimes (iterative linear solvers) *)
          let udata :=
            if bool_decide (is_Some (fchemcur udata))
            then set_fchemcur (Some (N_VScale ONE wchemdot)) udata
            else udata in
          (* stop timer and return *)
          if check_flag (FlagInt (timer_stop tm)) 1
          then ((-1)%Z, wdot, udata)
          else (0%Z, wdot, udata).

(** *** The unit scaling of the chemistry block *)



End Driver.

(** ** The block-diagonal linear solver *)

Module BDMPIMV.

(** *** [Solve_BDMPIMV] *)

(** Outcomes, on one rank, of the calls [Solve_BDMPIMV] makes. *)
Record SolveCalls : Type := {
  lsolve_start    : Z;     (* profile[PR_LSOLVE].start()          *)
  xsub            : bool;  (* sub-vector of x is not NULL          *)
  bsub            : bool;  (* sub-vector of b is not NULL          *)
  ierr            : Z;     (* SUNLinSolSolve on the local block    *)
  lsolvempi_start : Z;     (* profile[PR_LSOLVEMPI].start()        *)
  allreduce_ret   : Z;     (* return code of MPI_Allreduce         *)
  lsolvempi_stop  : Z;     (* profile[PR_LSOLVEMPI].stop()         *)
  lsolve_stop     : Z      (* profile[PR_LSOLVE].stop()            *)
}.

(** A rank either returns before the collective, or enters
    [MPI_Allreduce(ierrs, globerrs, 2, MPI_INT, MPI_MIN, comm)] with
    its two integers and resumes with the reduced pair.  A return
    carries the value returned and the new [BDMPIMV_LASTFLAG]. *)
Inductive rank_action : Type :=
| Returned (ret : Z) (lastflag : Z)
| Allreduce (ierrs : Z * Z) (resume : Z * Z -> Z * Z).

Definition Solve_BDMPIMV (c : SolveCalls) (lastflag : Z) : rank_action :=
  if check_flag (FlagInt (lsolve_start c)) 1 then Returned (-1) lastflag
  else if negb (xsub c) || negb (bsub c)
  then Returned SUNLS_MEM_FAIL SUNLS_MEM_FAIL
  else
    let ierr := ierr c in
    let ierrs := (ierr, CInt.neg ierr) in
    if check_flag (FlagInt (lsolvempi_start c)) 1 then Returned (-1) lastflag
    else
      Allreduce ierrs (fun globerrs =>
        if check_flag (FlagInt (allreduce_ret c)) 3 then ((-1)%Z, lastflag)
        else if check_flag (FlagInt (lsolvempi_stop c)) 1
        then ((-1)%Z, lastflag)
        else
          let lastflag := fst globerrs in
          if (fst globerrs <? 0)%Z then
            if check_flag (FlagInt (lsolve_stop c)) 1
            then ((-1)%Z, lastflag)
            else (fst globerrs, lastflag)
          else
            let lastflag := CInt.neg (snd globerrs) in
            if check_flag (FlagInt (lsolve_stop c)) 1
            then ((-1)%Z, lastflag)
            else (CInt.neg (snd globerrs), lastflag)).

(** Least and greatest entry of a list of integers ([0] on the empty
    list, which no communicator produces). *)
Definition min_list (l : list Z) : Z :=
  match l with
  | [] => 0%Z
  | x :: xs => foldr Z.min x xs
  end.

Definition max_list (l : list Z) : Z :=
  match l with
  | [] => 0%Z
  | x :: xs => foldr Z.max x xs
  end.

(** [MPI_MIN] over two-integer buffers: entry-wise minimum over the
    ranks. *)
Definition MPI_Allreduce_MIN (sends : list (Z * Z)) : Z * Z :=
  (min_list (map fst sends), min_list (map snd sends)).

Definition contribution (a : rank_action) : option (Z * Z) :=
  match a with
  | Returned _ _ => None
  | Allreduce ierrs _ => Some ierrs
  end.

Definition finish (globerrs : Z * Z) (a : rank_action) : Z * Z :=
  match a with
  | Returned ret lastflag => (ret, lastflag)
  | Allreduce _ resume => resume globerrs
  end.

(** One collective solve: every rank runs [Solve_BDMPIMV].  The
    reduction completes only when every rank of the communicator
    enters it; then each rank resumes with the same reduced pair.  The
    result lists, rank by rank, the value returned and the last flag;
    [None] stands for a collective that some rank never entered. *)
Definition solve_all (calls : list SolveCalls) (lastflags : list Z)
  : option (list (Z * Z)) :=
  let acts := zip_with Solve_BDMPIMV calls lastflags in
  sends ← mapM contribution acts;
  Some (map (finish (MPI_Allreduce_MIN sends)) acts).

(** The rank passes every check around the local solve. *)
Definition reaches_reduction (c : SolveCalls) : Prop :=
  (0 <= lsolve_start c)%Z /\ xsub c = true /\ bsub c = true /\
  (0 <= lsolvempi_start c)%Z /\ allreduce_ret c = MPI_SUCCESS /\
  (0 <= lsolvempi_stop c)%Z /\ (0 <= lsolve_stop c)%Z.

(** The status every rank returns, from the list of local codes. *)
Definition global_status (codes : list Z) : Z :=
  if (min_list codes <? 0)%Z then min_list codes else max_list codes.

(** *** [ATimes_BDMPIMV] *)

(** What the ARKODE getters hand back: the return code of each call and
    the value it delivers. *)
Record ARKodeCalls : Type := {
  get_time_ret  : Z;  tcur  : R;               (* ARKStepGetCurrentTime  *)
  get_state_ret : Z;  ycur  : list (list R);   (* ARKStepGetCurrentState *)
  get_gamma_ret : Z;  gamma : R;               (* ARKStepGetCurrentGamma *)
  get_ewt_ret   : Z;  ewt   : list (list R)    (* ARKStepGetErrWeights   *)
}.

(** The fields of [BDMPIMVContent] that [ATimes_BDMPIMV] uses; [udata]
    and [arkode_mem] are pointers and travel as arguments of their
    own.  [work] and [udata->fchemcur] are allocated whenever the
    solver is built for an iterative block solver, the only case in
    which this function is attached. *)
Record BDMPIMVContent : Type := mk_BDMPIMVContent {
  subvec : nat;
  work   : list (list R);
  nfeDQ  : Z
}.

Definition set_work (v : list (list R)) (c : BDMPIMVContent)
    : BDMPIMVContent :=
  mk_BDMPIMVContent (subvec c) v (nfeDQ c).

Definition set_nfeDQ (v : Z) (c : BDMPIMVContent) : BDMPIMVContent :=
  mk_BDMPIMVContent (subvec c) (work c) v.

(** The result is the value returned, the output vector [z], the
    content and the user data, the last three as the call leaves
    them. *)
Definition ATimes_BDMPIMV (tm : Driver.TimerCalls) (ark : ARKodeCalls)
    (content : BDMPIMVContent) (udata : Driver.EulerData)
    (v z : list R)
    : Z * list R * BDMPIMVContent * Driver.EulerData :=
  (* Get the current time, gamma, and error weights *)
  if check_flag (FlagInt (get_time_ret ark)) 1
  then ((-1)%Z, z, content, udata)
  else if check_flag (FlagInt (get_state_ret ark)) 1
  then ((-1)%Z, z, content, udata)
  else if check_flag (FlagInt (get_gamma_ret ark)) 1
  then ((-1)%Z, z, content, udata)
  else if check_flag (FlagInt (get_ewt_ret ark)) 1
  then ((-1)%Z, z, content, udata)
  else
    let tcur := tcur ark in
    let ycur := ycur ark in
    let gamma := gamma ark in
    let work := ewt ark in
    let content := set_work work content in
    (* Get ycur and weight vector for chem species *)
    let y :=
      default [] (NVector.N_VGetSubvector_MPIManyVector ycur
                    (subvec content)) in
    let w :=
      default [] (NVector.N_VGetSubvector_MPIManyVector work
                    (subvec content)) in
    (* Start timer *)
    if check_flag (FlagInt (Driver.timer_start tm)) 1
    then ((-1)%Z, z, content, udata)
    else
      (* Set perturbation to 1/||v|| *)
      let sig := Driver.ONE / NVector.N_VWrmsNorm v w in
      (* Set work = y + sig * v *)
      let w := NVector.N_VLinearSum sig v Driver.ONE y in
      let content := set_work (<[subvec content := w]> work) content in
      (* Set z = fchem(t, y + sig * v) *)
      let r :=
        Chem.calculate_rhs_cvklu tcur w z
          (Driver.nxl udata * Driver.nyl udata * Driver.nzl udata)
          (Driver.RxNetData udata) in
      let retval := fst (fst r) in
      let z := snd (fst r) in
      let udata := Driver.set_RxNetData (snd r) udata in
      let content := set_nfeDQ (nfeDQ content + 1) content in
      if check_flag (FlagInt retval) 1
      then (retval, z, content, udata)
      else
        (* scale wchemdot by TimeUnits to handle step size
           nondimensionalization *)
        let z := NVector.N_VScale (Driver.TimeUnits udata) z in
        (* Compute Jv approximation: z = (z - fchemcur) / sig *)
        let siginv := Driver.ONE / sig in
        let z :=
          NVector.N_VLinearSum siginv z (- siginv)
            (default [] (Driver.fchemcur udata)) in
        (* Compute Av approximation: z = (I - gamma J) v *)
        let z := NVector.N_VLinearSum Driver.ONE v (- gamma) z in
        (* Stop timer and return *)
        if check_flag (FlagInt (Driver.timer_stop tm)) 1
        then ((-1)%Z, z, content, udata)
        else (0%Z, z, content, udata).

End BDMPIMV.

(** ** The smoke test and the flux evaluator *)

Module Hydro.
Import NVector Driver.

Section Grid.

(** The index macros [INDX(i,j,k,nx,ny,nz)] and
    [BUFINDX(v,i,j,k,nv,nx,ny,nz)] come from the header [euler3D.hpp],
    outside the files followed here: they are parameters. *)
Variable INDX : Z -> Z -> Z -> Z -> Z -> Z -> nat.
Variable BUFINDX : Z -> Z -> Z -> Z -> Z -> Z -> Z -> Z -> nat.

(** The arrays a problem function works on: the data of the
    sub-vectors of the MPIManyVector. *)
Record arrays : Type := mk_arrays {
  a_rho : list R;
  a_mx : list R;
  a_my : list R;
  a_mz : list R;
  a_et : list R;
  a_chem : list R
}.

(** *** [initial_conditions] of [compile_test.cpp] *)

Definition initial_conditions_cell (udata : EulerData) (i j k : Z)
    (a : arrays) : arrays :=
  (* fluid initial conditions *)
  let idx := INDX i j k (nxl udata) (nyl udata) (nzl udata) in
  let rho := Chem.store (a_rho a) idx 4.0 in
  let mx := Chem.store (a_mx a) idx 0.5 in
  let my := Chem.store (a_my a) idx 0.3 in
  let mz := Chem.store (a_mz a) idx 0.1 in
  let et := Chem.store (a_et a) idx 2.0 in
  (* tracer initial conditions *)
  let chem :=
    if (nchem udata >? 0)%Z then
      fst (Chem.for_loop 0 (nchem udata)
             (fun v chem =>
                let idx :=
                  BUFINDX v i j k (nchem udata) (nxl udata) (nyl udata)
                    (nzl udata) in
                Chem.store chem idx
                  (ONE * IZR (v + 1) / IZR (nchem udata)))
             (a_chem a))
    else a_chem a in
  mk_arrays rho mx my mz et chem.

(** The triple loop over the sub-domain, [k] outermost.  The locations
    [xloc], [yloc], [zloc] that the source computes in the loop body
    are not used by it. *)
Definition over_subdomain {S : Type} (udata : EulerData)
    (body : Z -> Z -> Z -> S -> S) (s : S) : S :=
  fst (Chem.for_loop 0 (nzl udata) (fun k s =>
    fst (Chem.for_loop 0 (nyl udata) (fun j s =>
      fst (Chem.for_loop 0 (nxl udata) (fun i s => body i j k s) s)) s))
    s).

Definition initial_conditions (t : R) (w : list (list R))
    (udata : EulerData) : Z * list (list R) :=
  match N_VGetSubvector_MPIManyVector w 0,
        N_VGetSubvector_MPIManyVector w 1,
        N_VGetSubvector_MPIManyVector w 2,
        N_VGetSubvector_MPIManyVector w 3,
        N_VGetSubvector_MPIManyVector w 4 with
  | Some rho, Some mx, Some my, Some mz, Some et =>
      let chem :=
        if (nchem udata >? 0)%Z
        then N_VGetSubvector_MPIManyVector w 5 else None in
      if (nchem udata >? 0)%Z
         && check_flag (FlagPtr (bool_decide (is_Some chem))) 0
      then ((-1)%Z, w)
      else
        let a :=
          over_subdomain udata (initial_conditions_cell udata)
            (mk_arrays rho mx my mz et (default [] chem)) in
        let w := <[0%nat := a_rho a]> w in
        let w := <[1%nat := a_mx a]> w in
        let w := <[2%nat := a_my a]> w in
        let w := <[3%nat := a_mz a]> w in
        let w := <[4%nat := a_et a]> w in
        let w :=
          if (nchem udata >? 0)%Z then <[5%nat := a_chem a]> w else w in
        (0%Z, w)
  | _, _, _, _, _ => ((-1)%Z, w)
  end.

(** *** [external_forces] of [compile_test.cpp] *)

Definition external_forces_cell (udata : EulerData) (i j k : Z)
    (a : arrays) : arrays :=
  let idx := INDX i j k (nxl udata) (nyl udata) (nzl udata) in
  let Grho := Chem.store (a_rho a) idx ZERO in
  let Gmx := Chem.store (a_mx a) idx ZERO in
  let Gmy := Chem.store (a_my a) idx ZERO in
  let Gmz := Chem.store (a_mz a) idx ZERO in
  let Get := Chem.store (a_et a) idx ZERO in
  mk_arrays Grho Gmx Gmy Gmz Get (a_chem a).

Definition external_forces (t : R) (G : list (list R))
    (udata : EulerData) : Z * list (list R) :=
  match N_VGetSubvector_MPIManyVector G 0,
        N_VGetSubvector_MPIManyVector G 1,
        N_VGetSubvector_MPIManyVector G 2,
        N_VGetSubvector_MPIManyVector G 3,
        N_VGetSubvector_MPIManyVector G 4 with
  | Some Grho, Some Gmx, Some Gmy, Some Gmz, Some Get =>
      let a :=
        over_subdomain udata (external_forces_cell udata)
          (mk_arrays Grho Gmx Gmy Gmz Get []) in
      let G := <[0%nat := a_rho a]> G in
      let G := <[1%nat := a_mx a]> G in
      let G := <[2%nat := a_my a]> G in
      let G := <[3%nat := a_mz a]> G in
      let G := <[4%nat := a_et a]> G in
      (0%Z, G)
  | _, _, _, _, _ => ((-1)%Z, G)
  end.

(** *** The flux evaluator *)

(** The five conserved quantities of a cell: density, the three
    momenta, total energy. *)
Record conserved : Type := mk_conserved {
  c_rho : R;
  c_mx : R;
  c_my : R;
  c_mz : R;
  c_et : R
}.

Inductive axis : Type := X_axis | Y_axis | Z_axis.

(** Modelled from the spec: the approximate Riemann solver of the flux
    evaluator [fEuler], outside the files followed here.  Section 4.3
    asks for "an approximate Riemann solver appropriate for
    the Euler equations" combining the left and right states into a
    numerical flux and fixes no particular one: it is a parameter, a
    function of the axis and of the two states. *)
Variable riemann : axis -> conserved -> conserved -> conserved.

(** Modelled from the spec: the "small epsilon to avoid division by
    zero" of the WENO weights (section 4.3). *)
Variable epsilon : R.

(** Modelled from the spec: the ghost layers that the halo exchange
    (section 4.2, outside the files followed here) puts around the
    tile, as the state of each cell outside the tile. *)
Variable ghost : Z -> Z -> Z -> conserved.

(** Modelled from the spec: the 5th-order WENO reconstruction of
    section 4.3, "classical Jiang-Shu WENO5 weighting: three 3rd-order
    sub-stencils blended by weights proportional to 1/(eps+beta)^2 for
    smoothness indicator beta".  The value at the face between the
    third and the fourth cell of [a b c d e] seen from the third
    cell. *)
Definition weno5 (a b c d e : R) : R :=
  let q0 := (2 * a - 7 * b + 11 * c) / 6 in
  let q1 := (- b + 5 * c + 2 * d) / 6 in
  let q2 := (2 * c + 5 * d - e) / 6 in
  let beta0 :=
    13 / 12 * (a - 2 * b + c) ^ 2 + 1 / 4 * (a - 4 * b + 3 * c) ^ 2 in
  let beta1 := 13 / 12 * (b - 2 * c + d) ^ 2 + 1 / 4 * (b - d) ^ 2 in
  let beta2 :=
    13 / 12 * (c - 2 * d + e) ^ 2 + 1 / 4 * (3 * c - 4 * d + e) ^ 2 in
  let alpha0 := (1 / 10) / (epsilon + beta0) ^ 2 in
  let alpha1 := (6 / 10) / (epsilon + beta1) ^ 2 in
  let alpha2 := (3 / 10) / (epsilon + beta2) ^ 2 in
  let total := alpha0 + alpha1 + alpha2 in
  alpha0 / total * q0 + alpha1 / total * q1 + alpha2 / total * q2.

(** Modelled from the spec: the reconstruction applied to each of the
    five conserved quantities. *)
Definition weno5_state (a b c d e : conserved) : conserved :=
  mk_conserved
    (weno5 (c_rho a) (c_rho b) (c_rho c) (c_rho d) (c_rho e))
    (weno5 (c_mx a) (c_mx b) (c_mx c) (c_mx d) (c_mx e))
    (weno5 (c_my a) (c_my b) (c_my c) (c_my d) (c_my e))
    (weno5 (c_mz a) (c_mz b) (c_mz c) (c_mz d) (c_mz e))
    (weno5 (c_et a) (c_et b) (c_et c) (c_et d) (c_et e)).

Section Evaluator.

Variable udata : EulerData.
Variable w : list (list R).
Variable G : list (list R).

Definition in_tile (i j k : Z) : bool :=
  (0 <=? i)%Z && (i <? nxl udata)%Z && (0 <=? j)%Z && (j <? nyl udata)%Z
  && (0 <=? k)%Z && (k <? nzl udata)%Z.

Definition component (v : list (list R)) (f : nat) (i j k : Z) : R :=
  Chem.rd (default [] (v !! f))
    (INDX i j k (nxl udata) (nyl udata) (nzl udata)).

(** Modelled from the spec: the state of a cell as the evaluator sees
    it, from the local tile or from the ghost layers. *)
Definition cell_state (i j k : Z) : conserved :=
  if in_tile i j k then
    mk_conserved (component w 0 i j k) (component w 1 i j k)
      (component w 2 i j k) (component w 3 i j k) (component w 4 i j k)
  else ghost i j k.

Definition shifted (ax : axis) (i j k n : Z) : conserved :=
  match ax with
  | X_axis => cell_state (i + n) j k
  | Y_axis => cell_state i (j + n) k
  | Z_axis => cell_state i j (k + n)
  end.

(** Modelled from the spec: the numerical flux through the upper face
    of cell [(i,j,k)] along an axis: left and right states from the
    5-cell stencils on either side of the face, combined by the
    Riemann solver (section 4.3). *)
Definition face_flux (ax : axis) (i j k : Z) : conserved :=
  let at_ n := shifted ax i j k n in
  let left :=
    weno5_state (at_ (-2)%Z) (at_ (-1)%Z) (at_ 0%Z) (at_ 1%Z) (at_ 2%Z) in
  let right :=
    weno5_state (at_ 3%Z) (at_ 2%Z) (at_ 1%Z) (at_ 0%Z) (at_ (-1)%Z) in
  riemann ax left right.

Definition lower_face_flux (ax : axis) (i j k : Z) : conserved :=
  match ax with
  | X_axis => face_flux ax (i - 1) j k
  | Y_axis => face_flux ax i (j - 1) k
  | Z_axis => face_flux ax i j (k - 1)
  end.

Definition forcing (i j k : Z) : conserved :=
  mk_conserved (component G 0 i j k) (component G 1 i j k)
    (component G 2 i j k) (component G 3 i j k) (component G 4 i j k).

(** Modelled from the spec: the explicit right-hand side of a cell,
    "-dF/dx - dG/dy - dH/dz + external_force" (section 4.3), each
    derivative the difference of the fluxes through the two faces of
    the cell over the mesh width (a finite-volume scheme, section 1);
    [G] holds the forcing, written by [external_forces] into a zeroed
    vector. *)
Definition fEuler_cell (i j k : Z) : conserved :=
  let div (q : conserved -> R) : R :=
    (q (face_flux X_axis i j k) - q (lower_face_flux X_axis i j k))
    / dx udata
    + (q (face_flux Y_axis i j k) - q (lower_face_flux Y_axis i j k))
      / dy udata
    + (q (face_flux Z_axis i j k) - q (lower_face_flux Z_axis i j k))
      / dz udata in
  mk_conserved
    (- div c_rho + c_rho (forcing i j k))
    (- div c_mx + c_mx (forcing i j k))
    (- div c_my + c_my (forcing i j k))
    (- div c_mz + c_mz (forcing i j k))
    (- div c_et + c_et (forcing i j k)).

(** A cell whose stencils, of half-width 3, stay inside the tile. *)
Definition interior (i j k : Z) : Prop :=
  (3 <= i < nxl udata - 3)%Z /\ (3 <= j < nyl udata - 3)%Z /\
  (3 <= k < nzl udata - 3)%Z.

(** The state is the same in every cell of the tile. *)
Definition uniform_state (u : conserved) : Prop :=
  forall i j k, in_tile i j k = true -> cell_state i j k = u.

End Evaluator.

End Grid.

End Hydro.

(** ** The other callbacks of the driver *)

Module Steps.
Import NVector Driver Chem Hydro.

(** *** [Jimpl]

    The result is the value returned and the matrix as the call leaves
    it.  The host build: the values of the sparse matrix are scaled,
    all [SUNSparseMatrix_NNZ(Jac)] of them, the length of its array of
    values; that array is not NULL on a sparse matrix. *)
Definition Jimpl (tm : TimerCalls) (t : R) (w fw : list (list R))
    (Jac : SUNSparseMatrix) (udata : EulerData)
    (tmp1 tmp2 tmp3 : list (list R)) : Z * SUNSparseMatrix :=
  (* start timer *)
  if check_flag (FlagInt (timer_start tm)) 1 then ((-1)%Z, Jac)
  else
    (* unpack chemistry subvectors *)
    let wchem := N_VGetSubvector_MPIManyVector w 5 in
    if check_flag (FlagPtr (bool_decide (is_Some wchem))) 0
    then ((-1)%Z, Jac)
    else
    let fwchem := N_VGetSubvector_MPIManyVector fw 5 in
    if check_flag (FlagPtr (bool_decide (is_Some fwchem))) 0
    then ((-1)%Z, Jac)
    else
    let tmp1chem := N_VGetSubvector_MPIManyVector tmp1 5 in
    if check_flag (FlagPtr (bool_decide (is_Some tmp1chem))) 0
    then ((-1)%Z, Jac)
    else
    let tmp2chem := N_VGetSubvector_MPIManyVector tmp2 5 in
    if check_flag (FlagPtr (bool_decide (is_Some tmp2chem))) 0
    then ((-1)%Z, Jac)
    else
    let tmp3chem := N_VGetSubvector_MPIManyVector tmp3 5 in
    if check_flag (FlagPtr (bool_decide (is_Some tmp3chem))) 0
    then ((-1)%Z, Jac)
    else
      (* call Jacobian routine *)
      let r :=
        calculate_jacobian_cvklu t (default [] wchem) (default [] fwchem)
          Jac (nxl udata * nyl udata * nzl udata) (RxNetData udata) in
      let retval := fst r in
      let Jac := snd r in
      if check_flag (FlagInt retval) 1 then (retval, Jac)
      else
        (* scale Jac values by TimeUnits to handle step size
           nondimensionalization *)
        let TUnit := TimeUnits udata in
        let nnz := Z.of_nat (length (sm_data Jac)) in
        let Jdata :=
          fst (for_loop 0 nnz
                 (fun i Jdata => scale_at Jdata (Z.to_nat i) TUnit)
                 (sm_data Jac)) in
        let Jac :=
          mk_SUNSparseMatrix Jdata (sm_indexvals Jac) (sm_indexptrs Jac) in
        (* stop timer and return *)
        if check_flag (FlagInt (timer_stop tm)) 1 then ((-1)%Z, Jac)
        else (0%Z, Jac).

Section ExplicitStep.

(** The index macros [IDX(i,j,k,nx,ny,nz)] and
    [BUFIDX(v,i,j,k,nv,nx,ny,nz)] of the header [euler3D.hpp], and the
    field [EnergyUnits] of [EulerData], which the record above does not
    carry, are parameters.  So are three functions that the driver
    calls and that live outside the files followed here:
    [apply_Dengo_scaling] and [unapply_Dengo_scaling], which work on
    the state in place and hand back a status, and the flux evaluator
    [fEuler], which may write both its arguments. *)
Variable IDX : Z -> Z -> Z -> Z -> Z -> Z -> nat.
Variable BUFIDX : Z -> Z -> Z -> Z -> Z -> Z -> Z -> Z -> nat.
Variable EnergyUnits : EulerData -> R.
Variable apply_scaling : list (list R) -> EulerData -> Z * list (list R).
Variable unapply_scaling : list (list R) -> EulerData -> Z * list (list R).
Variable fEuler :
  R -> list (list R) -> list (list R) -> EulerData
  -> Z * list (list R) * list (list R).

(** The array of a sub-vector, once its pointer is known not to be
    NULL. *)
Definition array_of (v : list (list R)) (k : nat) : list R :=
  default [] (N_VGetSubvector_MPIManyVector v k).

(** *** [fexpl] *)

(** The body of the loop "fill dimensionless total fluid energy
    field". *)
Definition fexpl_energy_cell (udata : EulerData) (EUnitScale : R)
    (rho mx my mz chem : list R) (i j k : Z) (et : list R) : list R :=
  let cidx :=
    BUFIDX (nchem udata - 1) i j k (nchem udata) (nxl udata) (nyl udata)
      (nzl udata) in
  let ge := rd chem cidx in
  let ge := ge * EUnitScale in
  let fidx := IDX i j k (nxl udata) (nyl udata) (nzl udata) in
  store et fidx
    (ge + 0.5 / rd rho fidx
          * (rd mx fidx * rd mx fidx + rd my fidx * rd my fidx
             + rd mz fidx * rd mz fidx)).

(** The body of the loop "overwrite chemistry energy fexpl with total
    energy fexpl ... and zero out total energy fexpl"; the state is the
    pair of [etdot] and [chemdot]. *)
Definition fexpl_rate_cell (udata : EulerData) (TUnitScale : R)
    (i j k : Z) (st : list R * list R) : list R * list R :=
  let etdot := fst st in
  let chemdot := snd st in
  let cidx :=
    BUFIDX (nchem udata - 1) i j k (nchem udata) (nxl udata) (nyl udata)
      (nzl udata) in
  let fidx := IDX i j k (nxl udata) (nyl udata) (nzl udata) in
  let chemdot := store chemdot cidx (rd etdot fidx * TUnitScale) in
  let etdot := store etdot fidx ZERO in
  (etdot, chemdot).

(** The state handed to [fEuler]: the chemistry block rescaled, the
    total energy filled in. *)
Definition fexpl_fill_energy (w : list (list R)) (udata : EulerData)
    : list (list R) :=
  let EUnitScale := ONE / EnergyUnits udata in
  let et :=
    over_subdomain udata
      (fexpl_energy_cell udata EUnitScale (array_of w 0) (array_of w 1)
         (array_of w 2) (array_of w 3) (array_of w 5))
      (array_of w 4) in
  <[4%nat := et]> w.

(** What is done to the output of [fEuler]. *)
Definition fexpl_move_rate (wdot : list (list R)) (udata : EulerData)
    : list (list R) :=
  let TUnitScale := ONE in
  let st :=
    over_subdomain udata (fexpl_rate_cell udata TUnitScale)
      (array_of wdot 4, array_of wdot 5) in
  <[5%nat := snd st]> (<[4%nat := fst st]> wdot).

(** The function proper, hydrodynamics enabled.  The arrays are
    pointers into [w] and [wdot]: they see what the calls in between
    write.  The result is the value returned, and [w] and [wdot] as the
    call leaves them. *)
Definition fexpl (tm : TimerCalls) (t : R) (w wdot : list (list R))
    (udata : EulerData) : Z * list (list R) * list (list R) :=
  (* start timer *)
  if check_flag (FlagInt (timer_start tm)) 1 then ((-1)%Z, w, wdot)
  else
    (* initialize all outputs to zero (necessary??) *)
    let wdot := N_VConst_MPIManyVector ZERO wdot in
    (* access data arrays *)
    match N_VGetSubvector_MPIManyVector w 0,
          N_VGetSubvector_MPIManyVector w 1,
          N_VGetSubvector_MPIManyVector w 2,
          N_VGetSubvector_MPIManyVector w 3,
          N_VGetSubvector_MPIManyVector w 4,
          N_VGetSubvector_MPIManyVector w 5,
          N_VGetSubvector_MPIManyVector wdot 4,
          N_VGetSubvector_MPIManyVector wdot 5 with
    | Some _, Some _, Some _, Some _, Some _, Some _, Some _, Some _ =>
        (* update chem to include Dengo scaling *)
        let r := apply_scaling w udata in
        let w := snd r in
        if check_flag (FlagInt (fst r)) 1 then ((-1)%Z, w, wdot)
        else
          (* fill dimensionless total fluid energy field *)
          let w := fexpl_fill_energy w udata in
          (* call fEuler as usual *)
          let r := fEuler t w wdot udata in
          let retval := fst (fst r) in
          let w := snd (fst r) in
          let wdot := snd r in
          if check_flag (FlagInt retval) 1 then (retval, w, wdot)
          else
            (* overwrite chemistry energy "fexpl" with total energy
               "fexpl" and zero out total energy fexpl *)
            let wdot := fexpl_move_rate wdot udata in
            (* reset chem to remove Dengo scaling *)
            let r := unapply_scaling w udata in
            let w := snd r in
            if check_flag (FlagInt (fst r)) 1 then ((-1)%Z, w, wdot)
            else
              (* stop timer and return *)
              if check_flag (FlagInt (timer_stop tm)) 1
              then ((-1)%Z, w, wdot)
              else (0%Z, w, wdot)
    | _, _, _, _, _, _, _, _ => ((-1)%Z, w, wdot)
    end.

(** *** [PostprocessStep] *)

(** The body of the loop "update fluid energy (derived) field from
    other quantities". *)
Definition postprocess_cell (udata : EulerData) (EUnitScale : R)
    (rho mx my mz chem : list R) (i j k : Z) (et : list R) : list R :=
  let cidx :=
    BUFIDX (nchem udata - 1) i j k (nchem udata) (nxl udata) (nyl udata)
      (nzl udata) in
  let fidx := IDX i j k (nxl udata) (nyl udata) (nzl udata) in
  store et fidx
    (rd chem cidx * EUnitScale
     + 0.5 / rd rho fidx
       * ((rd mx fidx) ^ 2 + (rd my fidx) ^ 2 + (rd mz fidx) ^ 2)).

Definition postprocess_energy (w : list (list R)) (udata : EulerData)
    : list (list R) :=
  let EUnitScale := ONE / EnergyUnits udata in
  let et :=
    over_subdomain udata
      (postprocess_cell udata EUnitScale (array_of w 0) (array_of w 1)
         (array_of w 2) (array_of w 3) (array_of w 5))
      (array_of w 4) in
  <[4%nat := et]> w.

(** The result is the value returned and [w] as the call leaves it. *)
Definition PostprocessStep (tm : TimerCalls) (t : R) (w : list (list R))
    (udata : EulerData) : Z * list (list R) :=
  (* start timer *)
  if check_flag (FlagInt (timer_start tm)) 1 then ((-1)%Z, w)
  else
    (* access data arrays *)
    match N_VGetSubvector_MPIManyVector w 0,
          N_VGetSubvector_MPIManyVector w 1,
          N_VGetSubvector_MPIManyVector w 2,
          N_VGetSubvector_MPIManyVector w 3,
          N_VGetSubvector_MPIManyVector w 4,
          N_VGetSubvector_MPIManyVector w 5 with
    | Some _, Some _, Some _, Some _, Some _, Some _ =>
        (* update chem to include Dengo scaling *)
        let r := apply_scaling w udata in
        let w := snd r in
        if check_flag (FlagInt (fst r)) 1 then ((-1)%Z, w)
        else
          (* update fluid energy (derived) field from other quantities *)
          let w := postprocess_energy w udata in
          (* reset chem to remove Dengo scaling *)
          let r := unapply_scaling w udata in
          let w := snd r in
          if check_flag (FlagInt (fst r)) 1 then ((-1)%Z, w)
          else
            (* stop timer and return *)
            if check_flag (FlagInt (timer_stop tm)) 1 then ((-1)%Z, w)
            else (0%Z, w)
    | _, _, _, _, _, _ => ((-1)%Z, w)
    end.

End ExplicitStep.

End Steps.

(** ** Concrete inputs

    Small inputs on which the statements below are exercised. *)

Module Sample.
Import Chem Driver BDMPIMV Hydro.

(** A one-cell chemistry structure: empty tables, unit scale factors. *)
Definition blank (sc inv : list R) : cvklu_data :=
  mk_cvklu_data 1 [0] [0] [0] [0] (fun _ => [0]) (fun _ => [0]) [0] [0]
    sc inv 0 (0, 0) 0 0 0 (fun _ => []) [] [] [] [].

Definition data1 : cvklu_data :=
  cvklu_setup_data 1 0 (blank (replicate 10 1) (replicate 10 1)).

(** Scale factors whose weighted sum is negative. *)
Definition data_neg : cvklu_data :=
  cvklu_setup_data 1 0
    (blank [-1; 0; 0; 0; 0; 0; 0; 0; 0; 0] (replicate 10 1)).

Definition y1 : list R := [1; 1; 1; 1; 1; 1; 1; 1; 1; 1].

Definition udata1 : EulerData :=
  mk_EulerData 1 1 1 1 1 1 0 1 1 10 0 1 data1 (Some (replicate 10 0)).


Definition w6 : list (list R) := [[0]; [0]; [0]; [0]; [0]; y1].

Definition timers_ok : TimerCalls :=
  {| timer_start := 0; timer_stop := 0 |}.

Definition solve_rank (code : Z) : SolveCalls :=
  {| lsolve_start := 0; xsub := true; bsub := true; ierr := code;
     lsolvempi_start := 0; allreduce_ret := 0; lsolvempi_stop := 0;
     lsolve_stop := 0 |}.

Definition ark1 : ARKodeCalls :=
  {| get_time_ret := 0; tcur := 0;
     get_state_ret := 0; ycur := [[1]];
     get_gamma_ret := 0; gamma := 1;
     get_ewt_ret := 0; ewt := [[1]] |}.

Definition content1 : BDMPIMVContent := mk_BDMPIMVContent 0 [[]] 0.

(** A 7 x 7 x 7 tile, stored with [i] running fastest. *)
Definition INDX7 (i j k nx ny nz : Z) : nat :=
  Z.to_nat (i + nx * (j + ny * k)).

Definition BUFINDX7 (v i j k nv nx ny nz : Z) : nat :=
  Z.to_nat (v + nv * (i + nx * (j + ny * k))).

Definition udata7 : EulerData :=
  mk_EulerData 7 7 7 1 1 1 0 1 1 0 0 1 data1 None.

Definition fields7 : list (list R) := replicate 5 (replicate 343 0).

Definition first_state (ax : axis) (l r : conserved) : conserved := l.

Definition ghost0 (i j k : Z) : conserved := mk_conserved 1 0 0 0 1.

(** A sparse matrix with room for one cell: 64 values, 11 row
    pointers. *)
Definition J1 : SUNSparseMatrix :=
  mk_SUNSparseMatrix (replicate 64 0) (replicate 64 0%Z)
    (replicate 11 0%Z).

(** Unit energy units. *)
Definition EnergyUnits1 (udata : EulerData) : R := 1.

End Sample.

(* ================================================================== *)
(** * Properties *)


Section SolveConsistency.
Import BDMPIMV.

Lemma wrap_id z : CInt.in_range z -> CInt.wrap z = z.
Proof.
  unfold CInt.in_range, CInt.INT_MIN, CInt.INT_MAX, CInt.wrap. intros H.
  rewrite Z.mod_small; lia.
Qed.

Lemma neg_nonneg z : CInt.in_range z -> (0 <= z)%Z -> CInt.neg z = (- z)%Z.
Proof.
  intros Hr Hz. unfold CInt.neg. apply wrap_id.
  unfold CInt.in_range, CInt.INT_MIN, CInt.INT_MAX in *. lia.
Qed.

Lemma neg_nonpos z :
  CInt.in_range z -> (0 <= z)%Z -> CInt.neg (- z) = z.
Proof.
  intros Hr Hz. unfold CInt.neg. rewrite Z.opp_involutive.
  now apply wrap_id.
Qed.

Lemma min_list_spec x xs :
  min_list (x :: xs) ∈ x :: xs /\
  Forall (fun y => (min_list (x :: xs) <= y)%Z) (x :: xs).
Proof.
  simpl. induction xs as [|y ys [IHin IHle]]; simpl.
  - split; [apply list_elem_of_here|]. constructor; [lia|constructor].
  - inversion IHle as [|? ? Hx Hys]; subst. split.
    + destruct (Z.min_spec y (foldr Z.min x ys)) as [[_ ->]|[_ ->]].
      * apply list_elem_of_further, list_elem_of_here.
      * apply elem_of_cons in IHin as [->|Hin];
          [apply list_elem_of_here|].
        now do 2 apply list_elem_of_further.
    + constructor; [lia|]. constructor; [lia|].
      eapply Forall_impl; [exact Hys|]. simpl. intros; lia.
Qed.

Lemma max_list_spec x xs :
  max_list (x :: xs) ∈ x :: xs /\
  Forall (fun y => (y <= max_list (x :: xs))%Z) (x :: xs).
Proof.
  simpl. induction xs as [|y ys [IHin IHle]]; simpl.
  - split; [apply list_elem_of_here|]. constructor; [lia|constructor].
  - inversion IHle as [|? ? Hx Hys]; subst. split.
    + destruct (Z.max_spec y (foldr Z.max x ys)) as [[_ ->]|[_ ->]].
      * apply elem_of_cons in IHin as [->|Hin];
          [apply list_elem_of_here|].
        now do 2 apply list_elem_of_further.
      * apply list_elem_of_further, list_elem_of_here.
    + constructor; [lia|]. constructor; [lia|].
      eapply Forall_impl; [exact Hys|]. simpl. intros; lia.
Qed.

Lemma min_list_opp l : min_list (map Z.opp l) = (- max_list l)%Z.
Proof.
  destruct l as [|x xs]; [reflexivity|]. simpl.
  induction xs as [|y ys IH]; simpl; [reflexivity|]. rewrite IH. lia.
Qed.

(** What a rank that passes its checks sends into the reduction. *)
Lemma contribution_reaching c lf :
  reaches_reduction c ->
  contribution (Solve_BDMPIMV c lf) = Some (ierr c, CInt.neg (ierr c)).
Proof.
  intros (H1 & H2 & H3 & H4 & _). unfold Solve_BDMPIMV, check_flag. simpl.
  rewrite H2, H3. simpl.
  destruct (Z.ltb_spec (lsolve_start c) 0); [lia|].
  destruct (Z.ltb_spec (lsolvempi_start c) 0); [lia|]. reflexivity.
Qed.

(** What it returns once the reduced pair is known. *)
Lemma finish_reaching c lf g :
  reaches_reduction c ->
  fst (finish g (Solve_BDMPIMV c lf)) =
    if (fst g <? 0)%Z then fst g else CInt.neg (snd g).
Proof.
  intros (H1 & H2 & H3 & H4 & H5 & H6 & H7).
  unfold Solve_BDMPIMV, check_flag. simpl. rewrite H2, H3, H5. simpl.
  destruct (Z.ltb_spec (lsolve_start c) 0); [lia|].
  destruct (Z.ltb_spec (lsolvempi_start c) 0); [lia|]. simpl.
  destruct (Z.ltb_spec (lsolvempi_stop c) 0); [lia|].
  destruct (Z.ltb_spec (lsolve_stop c) 0); [lia|].
  destruct (fst g <? 0)%Z; reflexivity.
Qed.

Lemma sends_reaching calls lastflags :
  length lastflags = length calls ->
  Forall reaches_reduction calls ->
  mapM contribution (zip_with Solve_BDMPIMV calls lastflags) =
    Some (map (fun c => (ierr c, CInt.neg (ierr c))) calls).
Proof.
  revert lastflags.
  induction calls as [|c cs IH]; intros [|lf lfs] Hlen Hok;
    simpl in *; try discriminate; [reflexivity|].
  inversion Hok as [|? ? Hc Hcs]; subst.
  rewrite (contribution_reaching c lf Hc). simpl.
  rewrite IH by (auto; lia). reflexivity.
Qed.

Lemma returns_reaching calls lastflags g :
  length lastflags = length calls ->
  Forall reaches_reduction calls ->
  map fst (map (finish g) (zip_with Solve_BDMPIMV calls lastflags)) =
    replicate (length calls)
      (if (fst g <? 0)%Z then fst g else CInt.neg (snd g)).
Proof.
  revert lastflags.
  induction calls as [|c cs IH]; intros [|lf lfs] Hlen Hok;
    simpl in *; try discriminate; [reflexivity|].
  inversion Hok as [|? ? Hc Hcs]; subst.
  rewrite (finish_reaching c lf g Hc), IH by (auto; lia). reflexivity.
Qed.

Lemma reduced_pair calls :
  calls <> [] ->
  Forall (fun c => CInt.in_range (ierr c)) calls ->
  let codes := map ierr calls in
  let g := MPI_Allreduce_MIN
             (map (fun c => (ierr c, CInt.neg (ierr c))) calls) in
  (if (fst g <? 0)%Z then fst g else CInt.neg (snd g)) =
    global_status codes.
Proof.
  intros Hne Hrange codes g. unfold global_status.
  assert (Hfst : fst g = min_list codes).
  { unfold g, MPI_Allreduce_MIN, codes. simpl. now rewrite map_map. }
  rewrite Hfst. destruct (Z.ltb_spec (min_list codes) 0) as [|Hpos];
    [reflexivity|].
  assert (Hall : Forall (fun c => (0 <= ierr c)%Z) calls).
  { assert (Hle : Forall (fun y => (min_list codes <= y)%Z) codes).
    { unfold codes. destruct calls as [|c cs]; [congruence|].
      apply min_list_spec. }
    rewrite Forall_forall in Hle. apply Forall_forall. intros c Hc.
    assert (ierr c ∈ codes) by (apply list_elem_of_fmap; eauto).
    specialize (Hle (ierr c) H). simpl in Hle. lia. }
  assert (Hsnd : snd g = (- max_list codes)%Z).
  { unfold g, MPI_Allreduce_MIN, codes. simpl. rewrite map_map. simpl.
    rewrite <- min_list_opp, map_map. f_equal.
    apply map_ext_Forall. rewrite Forall_forall in Hall, Hrange.
    apply Forall_forall. intros c Hc. apply neg_nonneg; auto. }
  rewrite Hsnd.
  destruct calls as [|c cs]; [congruence|].
  destruct (max_list_spec (ierr c) (map ierr cs)) as [Hin _].
  change (ierr c :: map ierr cs) with codes in Hin.
  apply list_elem_of_fmap in Hin as (c' & Heq & Hc').
  rewrite Forall_forall in Hall, Hrange. rewrite Heq.
  apply neg_nonpos; auto.
Qed.

(** C1.  On a communicator where every rank reaches the reduction,
    [Solve_BDMPIMV] returns one and the same status on all ranks; it is
    the least local code when some local solve returned a negative
    code, and the greatest local code otherwise.  So no rank reports
    success unless every local solve succeeded. *)
Theorem Solve_BDMPIMV_global_status
    (calls : list SolveCalls) (lastflags : list Z) :
  calls <> [] ->
  length lastflags = length calls ->
  Forall reaches_reduction calls ->
  Forall (fun c => CInt.in_range (ierr c)) calls ->
  let codes := map ierr calls in
  exists v : Z,
    map fst <$> solve_all calls lastflags
      = Some (replicate (length calls) v) /\
    ((exists c, c ∈ codes /\ (c < 0)%Z) -> v = min_list codes) /\
    ((forall c, c ∈ codes -> (0 <= c)%Z) -> v = max_list codes) /\
    (v = 0%Z -> forall c, c ∈ codes -> c = 0%Z).
Proof.
  intros Hne Hlen Hok Hrange codes.
  exists (global_status codes).
  assert (Hmin : min_list codes ∈ codes /\
                 Forall (fun y => (min_list codes <= y)%Z) codes).
  { unfold codes. destruct calls as [|c cs]; [congruence|].
    apply min_list_spec. }
  assert (Hmax : max_list codes ∈ codes /\
                 Forall (fun y => (y <= max_list codes)%Z) codes).
  { unfold codes. destruct calls as [|c cs]; [congruence|].
    apply max_list_spec. }
  destruct Hmin as [Hmin_in Hmin_le], Hmax as [Hmax_in Hmax_le].
  rewrite Forall_forall in Hmin_le, Hmax_le.
  repeat split.
  - unfold solve_all. rewrite sends_reaching by assumption. simpl.
    rewrite returns_reaching by assumption.
    now rewrite (reduced_pair calls Hne Hrange).
  - intros (c & Hc & Hneg). unfold global_status.
    specialize (Hmin_le c Hc).
    destruct (Z.ltb_spec (min_list codes) 0); [reflexivity|lia].
  - intros Hall. unfold global_status.
    specialize (Hall _ Hmin_in).
    destruct (Z.ltb_spec (min_list codes) 0); [lia|reflexivity].
  - unfold global_status. intros Hv c Hc.
    specialize (Hmin_le c Hc). specialize (Hmax_le c Hc).
    destruct (Z.ltb_spec (min_list codes) 0); lia.
Qed.

End SolveConsistency.

(** ** The temperature solve *)

Section TemperatureSolve.
Import Chem.

Lemma for_steps_succ {S : Type} (body : Z -> S -> S) n j s :
  for_steps (Datatypes.S n) j body s
  = (fst (for_steps n (j + 1)%Z body (body j s)),
     Datatypes.S (snd (for_steps n (j + 1)%Z body (body j s)))).
Proof.
  change (for_steps (Datatypes.S n) j body s)
    with (let (s', runs) := for_steps n (j + 1)%Z body (body j s) in
          (s', Datatypes.S runs)).
  now destruct (for_steps n (j + 1)%Z body (body j s)).
Qed.


Lemma for_steps_S {S : Type} (body : Z -> S -> S) n j s :
  fst (for_steps (Datatypes.S n) j body s)
  = fst (for_steps n (j + 1)%Z body (body j s)).
Proof. now rewrite for_steps_succ. Qed.




End TemperatureSolve.

(** ** The rate-table look-up *)

Section RateLookup.
Import Chem.








(** [cvklu_setup_data] sets the scalars of the look-up, and the
    right-hand side leaves them alone. *)
Lemma cvklu_setup_data_scalars (ncells : Z) (z : R) (alloc : cvklu_data) :
  table_scalars_set_up (cvklu_setup_data ncells z alloc).
Proof. repeat split. Qed.

Lemma rhs_cell_scalars (ydata : list R) (i : nat)
    (st : list R * cvklu_data) :
  table_scalars_set_up (snd st) ->
  table_scalars_set_up (snd (rhs_cell ydata i st)).
Proof. intros H. exact H. Qed.


End RateLookup.

(** ** Arrays *)

Section Arrays.
Import Chem.

Lemma length_store a i v : length (store a i v) = length a.
Proof. apply length_insert. Qed.

Lemma length_scale_at a i c : length (scale_at a i c) = length a.
Proof. apply length_store. Qed.

Lemma rd_store_eq a i v k :
  i = k -> (i < length a)%nat -> rd (store a i v) k = v.
Proof.
  intros <- H. unfold rd, store. now rewrite list_lookup_insert_eq.
Qed.

Lemma rd_store_ne a i v k : i <> k -> rd (store a i v) k = rd a k.
Proof.
  intros H. unfold rd, store. now rewrite list_lookup_insert_ne.
Qed.

Lemma rd_scale_at_eq a i c k :
  i = k -> (i < length a)%nat -> rd (scale_at a i c) k = rd a i * c.
Proof. intros <- H. unfold scale_at. now apply rd_store_eq. Qed.

Lemma rd_scale_at_ne a i c k : i <> k -> rd (scale_at a i c) k = rd a k.
Proof. intros H. unfold scale_at. now apply rd_store_ne. Qed.

End Arrays.

Ltac arr_len := repeat (rewrite length_scale_at || rewrite length_store).

(** Reads an entry back through the assignments that follow it. *)
Ltac read_back :=
  repeat first
    [ rewrite rd_scale_at_ne by lia
    | rewrite rd_store_ne by lia
    | rewrite rd_scale_at_eq by (arr_len; lia)
    | rewrite rd_store_eq by (arr_len; lia) ].

(** ** The species block of the right-hand side *)

Section SpeciesRates.
Import Chem.

Variable data : cvklu_data.
Variable i : nat.
Variables H2_1 H2_2 H_1 H_2 H_m0 He_1 He_2 He_3 de ge : R.
Variable ydotdata : list R.

Let out :=
  rhs_cell_species data i H2_1 H2_2 H_1 H_2 H_m0 He_1 He_2 He_3 de ge
    ydotdata.
Let j := (i * NSPECIES)%nat.
Let k (r : rate_table) : R := rd (rs data r) i.

Lemma length_rhs_cell_species : length out = length ydotdata.
Proof.
  unfold out, rhs_cell_species. cbv zeta.
  now arr_len.
Qed.

Lemma rhs_cell_species_frame n :
  (n < j \/ j + NSPECIES <= n)%nat -> rd out n = rd ydotdata n.
Proof.
  unfold out, rhs_cell_species, j, NSPECIES. intros Hn. cbv zeta.
  now read_back.
Qed.

Hypothesis room : (i * NSPECIES + NSPECIES <= length ydotdata)%nat.





End SpeciesRates.

(** ** The loop over cells *)

Section CellLoop.
Import Chem.

Variable ydata : list R.

(** What one pass of the loop body does to the state. *)
Lemma rhs_cell_shape (i : nat) (st : list R * cvklu_data) :
  exists data' H2_1 H2_2 H_1 H_2 H_m0 He_1 He_2 He_3 de ge,
    fst (rhs_cell ydata i st)
    = rhs_cell_species data' i H2_1 H2_2 H_1 H_2 H_m0 He_1 He_2 He_3 de ge
        (fst st) /\
    inv_scale data' = inv_scale (snd st).
Proof.
  unfold rhs_cell. cbv zeta. cbn [fst snd].
  do 11 eexists. split; reflexivity.
Qed.


Lemma rhs_cell_length (i : nat) (st : list R * cvklu_data) :
  length (fst (rhs_cell ydata i st)) = length (fst st).
Proof.
  destruct (rhs_cell_shape i st)
    as (d & a0 & a1 & a2 & a3 & a4 & a5 & a6 & a7 & a8 & a9 & -> & _).
  apply length_rhs_cell_species.
Qed.

Lemma rhs_cell_frame (i : nat) (st : list R * cvklu_data) (n : nat) :
  (n < i * NSPECIES \/ i * NSPECIES + NSPECIES <= n)%nat ->
  rd (fst (rhs_cell ydata i st)) n = rd (fst st) n.
Proof.
  intros Hn.
  destruct (rhs_cell_shape i st)
    as (d & a0 & a1 & a2 & a3 & a4 & a5 & a6 & a7 & a8 & a9 & -> & _).
  now apply rhs_cell_species_frame.
Qed.


Let cells (l : list nat) (st : list R * cvklu_data) :=
  foldl (fun s i => rhs_cell ydata i s) st l.

Lemma cells_invariants l st :
  length (fst (cells l st)) = length (fst st) /\
  scale (snd (cells l st)) = scale (snd st) /\
  inv_scale (snd (cells l st)) = inv_scale (snd st).
Proof.
  revert st. induction l as [|i l IH]; intros st; [now repeat split|].
  change (cells (i :: l) st) with (cells l (rhs_cell ydata i st)).
  destruct (IH (rhs_cell ydata i st)) as (-> & -> & ->).
  now rewrite rhs_cell_length.
Qed.

Lemma cells_frame l st n :
  (forall i, i ∈ l ->
             (n < i * NSPECIES \/ i * NSPECIES + NSPECIES <= n)%nat) ->
  rd (fst (cells l st)) n = rd (fst st) n.
Proof.
  revert st. induction l as [|i l IH]; intros st Hout; [reflexivity|].
  change (cells (i :: l) st) with (cells l (rhs_cell ydata i st)).
  rewrite IH by (intros i' Hi'; apply Hout; now apply list_elem_of_further).
  apply rhs_cell_frame, Hout, list_elem_of_here.
Qed.



Lemma cells_mdensity l st :
  mdensity (snd (cells l st)) = mdensity (snd st).
Proof.
  revert st. induction l as [|i l IH]; intros st; [reflexivity|].
  change (cells (i :: l) st) with (cells l (rhs_cell ydata i st)).
  now rewrite IH.
Qed.

(** What [setting_up_extra_variables] leaves in [mdensity] and where it
    reads from. *)
Lemma extra_variables_cell_mdensity (i : nat) (data : cvklu_data) :
  scale (extra_variables_cell i data) = scale data /\
  mdensity (extra_variables_cell i data)
  = store (mdensity data) i
      ((0.0 + rd (scale data) (i * NSPECIES) * 2.0
        + rd (scale data) (i * NSPECIES + 1) * 2.0
        + rd (scale data) (i * NSPECIES + 2) * 1.00794
        + rd (scale data) (i * NSPECIES + 3) * 1.00794
        + rd (scale data) (i * NSPECIES + 4) * 1.00794
        + rd (scale data) (i * NSPECIES + 5) * 4.002602
        + rd (scale data) (i * NSPECIES + 6) * 4.002602
        + rd (scale data) (i * NSPECIES + 7) * 4.002602) * 1.67e-24).
Proof. split; reflexivity. Qed.

Lemma extra_variables_entries (l : list nat) (data : cvklu_data) (i : nat) :
  NoDup l -> i ∈ l -> (i < length (mdensity data))%nat ->
  let data' := foldl (fun s i => extra_variables_cell i s) data l in
  scale data' = scale data /\
  length (mdensity data') = length (mdensity data) /\
  rd (mdensity data') i
  = (0.0 + rd (scale data) (i * NSPECIES) * 2.0
     + rd (scale data) (i * NSPECIES + 1) * 2.0
     + rd (scale data) (i * NSPECIES + 2) * 1.00794
     + rd (scale data) (i * NSPECIES + 3) * 1.00794
     + rd (scale data) (i * NSPECIES + 4) * 1.00794
     + rd (scale data) (i * NSPECIES + 5) * 4.002602
     + rd (scale data) (i * NSPECIES + 6) * 4.002602
     + rd (scale data) (i * NSPECIES + 7) * 4.002602) * 1.67e-24.
Proof.
  assert (Hkeep : forall l d,
            let d' := foldl (fun s i => extra_variables_cell i s) d l in
            scale d' = scale d /\
            length (mdensity d') = length (mdensity d) /\
            forall n, n ∉ l -> rd (mdensity d') n = rd (mdensity d) n).
  { clear. induction l as [|a l IH]; intros d; [now repeat split|].
    cbn [foldl]. destruct (IH (extra_variables_cell a d)) as (Hs & Hl & Hf).
    destruct (extra_variables_cell_mdensity a d) as [Hsa Hma].
    cbv zeta. rewrite Hs, Hl, Hsa, Hma, length_store. repeat split.
    intros n Hn. apply not_elem_of_cons in Hn as [Hna Hnl].
    rewrite (Hf n Hnl), Hma. now apply rd_store_ne. }
  revert data. induction l as [|a l IH]; intros data Hnd Hin Hlen.
  - now apply elem_of_nil in Hin.
  - apply NoDup_cons in Hnd as [Ha Hnd]. cbn [foldl]. cbv zeta.
    destruct (extra_variables_cell_mdensity a data) as [Hsa Hma].
    apply elem_of_cons in Hin as [->|Hin].
    + destruct (Hkeep l (extra_variables_cell a data)) as (Hs & Hl & Hf).
      rewrite Hs, Hl, (Hf a Ha), Hsa, Hma, length_store. repeat split.
      now apply rd_store_eq.
    + destruct (IH (extra_variables_cell a data) Hnd Hin) as (Hs & Hl & Hv).
      { now rewrite Hma, length_store. }
      rewrite Hs, Hl, Hv, Hsa, Hma, length_store. now repeat split.
Qed.

(** C2, as the code has it.  [setting_up_extra_variables] stores the
    mixture density of every cell, the weighted sum of the first eight
    scale factors times the hydrogen mass, whatever its sign;
    [calculate_rhs_cvklu] leaves it as it is and returns [0]: a negative
    mixture density is not reported. *)
Theorem calculate_rhs_cvklu_ignores_mixture_density
    (t : R) (ydot : list R) (nstrip : Z) (data : cvklu_data) (i : nat) :
  (i < Z.to_nat nstrip)%nat ->
  (i < length (mdensity data))%nat ->
  let data' := setting_up_extra_variables data nstrip in
  let r := calculate_rhs_cvklu t ydata ydot nstrip data' in
  rd (mdensity data') i
  = (0.0 + rd (scale data) (i * NSPECIES) * 2.0
     + rd (scale data) (i * NSPECIES + 1) * 2.0
     + rd (scale data) (i * NSPECIES + 2) * 1.00794
     + rd (scale data) (i * NSPECIES + 3) * 1.00794
     + rd (scale data) (i * NSPECIES + 4) * 1.00794
     + rd (scale data) (i * NSPECIES + 5) * 4.002602
     + rd (scale data) (i * NSPECIES + 6) * 4.002602
     + rd (scale data) (i * NSPECIES + 7) * 4.002602) * 1.67e-24 /\
  fst (fst r) = 0%Z /\
  mdensity (snd r) = mdensity data'.
Proof.
  intros Hi Hlen data' r.
  destruct (extra_variables_entries (seq 0 (Z.to_nat nstrip)) data i)
    as (_ & _ & Hv).
  { apply NoDup_ListNoDup, List.seq_NoDup. }
  { apply list_elem_of_In, List.in_seq. lia. }
  { exact Hlen. }
  split; [|split].
  - unfold data', setting_up_extra_variables, RAJA_forall.
    rewrite Z.sub_0_r. exact Hv.
  - reflexivity.
  - unfold r, calculate_rhs_cvklu, RAJA_forall. cbv zeta. cbn [snd].
    exact (cells_mdensity _ (ydot, data')).
Qed.

End CellLoop.

(** ** The set-up checks of [main] *)

Section MainChecks.
Import Driver.





End MainChecks.

(** ** The implicit right-hand side *)

Section ImplicitRHS.
Import NVector Driver.

Lemma ZERO_is_0 : ZERO = 0.
Proof. unfold ZERO. lra. Qed.

Lemma ONE_is_1 : ONE = 1.
Proof. unfold ONE. lra. Qed.

(** C9.  When [fimpl] returns [0], each of the five fluid sub-vectors
    of the output (density, the three momenta, total energy) holds
    zeros only: the whole output is zeroed first and only sub-vector 5,
    the chemistry block, is written afterwards. *)
Theorem fimpl_leaves_fluid_rates_zero
    (tm : TimerCalls) (t : R) (w wdot : list (list R))
    (udata : EulerData) :
  fst (fst (fimpl tm t w wdot udata)) = 0%Z ->
  forall k : nat, (k < 5)%nat ->
    snd (fst (fimpl tm t w wdot udata)) !! k
    = (fun sub => replicate (length sub) 0) <$> wdot !! k.
Proof.
  intros Hret k Hk.
  assert (Hzero : forall v : list (list R),
            (forall j, (j < 5)%nat ->
               v !! j = N_VConst_MPIManyVector ZERO wdot !! j) ->
            v !! k = (fun sub => replicate (length sub) 0) <$> wdot !! k).
  { intros v Hv. rewrite (Hv k Hk). unfold N_VConst_MPIManyVector, N_VConst.
    rewrite list_lookup_fmap, ZERO_is_0. reflexivity. }
  revert Hret. unfold fimpl. cbv zeta.
  destruct (check_flag (FlagInt (timer_start tm)) 1); [discriminate|].
  destruct (check_flag (FlagPtr _) 0); [discriminate|].
  destruct (check_flag (FlagPtr _) 0); [discriminate|].
  destruct (check_flag (FlagInt _) 1).
  - cbn [fst snd]. intros _. apply Hzero. intros j Hj.
    rewrite list_lookup_insert_ne by lia. reflexivity.
  - destruct (check_flag (FlagInt (timer_stop tm)) 1); [discriminate|].
    cbn [fst snd]. intros _. apply Hzero. intros j Hj.
    rewrite !list_lookup_insert_ne by lia. reflexivity.
Qed.

End ImplicitRHS.

(** ** The matrix-free operator *)

Section MatrixFree.
Import NVector Driver BDMPIMV Chem.

Lemma rd_lookup (a : list R) (i : nat) (x : R) :
  a !! i = Some x -> rd a i = x.
Proof. intros H. unfold rd. now rewrite H. Qed.

Lemma lookup_rd (a : list R) (i : nat) :
  (i < length a)%nat -> a !! i = Some (rd a i).
Proof.
  intros H. destruct (lookup_lt_is_Some_2 a i H) as [x Hx].
  now rewrite (rd_lookup a i x Hx).
Qed.

Lemma rd_N_VScale (c : R) (x : list R) (i : nat) :
  (i < length x)%nat -> rd (N_VScale c x) i = c * rd x i.
Proof.
  intros H. apply rd_lookup. unfold N_VScale.
  rewrite list_lookup_fmap, (lookup_rd x i H). reflexivity.
Qed.

Lemma length_N_VScale (c : R) (x : list R) :
  length (N_VScale c x) = length x.
Proof. apply length_map. Qed.

Lemma rd_N_VLinearSum (a b : R) (x y : list R) (i : nat) :
  (i < length x)%nat -> (i < length y)%nat ->
  rd (N_VLinearSum a x b y) i = a * rd x i + b * rd y i.
Proof.
  intros Hx Hy. apply rd_lookup. unfold N_VLinearSum.
  rewrite lookup_zip_with, (lookup_rd x i Hx), (lookup_rd y i Hy).
  reflexivity.
Qed.

Lemma length_N_VLinearSum (a b : R) (x y : list R) :
  length (N_VLinearSum a x b y) = Nat.min (length x) (length y).
Proof. apply length_zip_with. Qed.

Lemma N_VScale_ONE (x : list R) : N_VScale ONE x = x.
Proof.
  unfold N_VScale. rewrite <- (map_id x) at 2. apply map_ext.
  intros a. unfold ONE. lra.
Qed.

(** The value [calculate_rhs_cvklu] returns, for use below. *)
Lemma calculate_rhs_cvklu_status t y ydot nstrip data :
  fst (fst (calculate_rhs_cvklu t y ydot nstrip data)) = 0%Z.
Proof. reflexivity. Qed.

(** What a successful [fimpl] leaves in [udata->fchemcur], when that
    vector is allocated: [TimeUnits] times the chemistry right-hand side
    at the chemistry block of its argument. *)
Lemma fimpl_caches_rhs tm t (w wdot : list (list R)) udata :
  is_Some (fchemcur udata) ->
  fst (fst (fimpl tm t w wdot udata)) = 0%Z ->
  exists wchem wchemdot,
    w !! 5%nat = Some wchem /\
    N_VConst_MPIManyVector ZERO wdot !! 5%nat = Some wchemdot /\
    fchemcur (snd (fimpl tm t w wdot udata))
    = Some (N_VScale (TimeUnits udata)
              (snd (fst (calculate_rhs_cvklu t wchem wchemdot
                           (nxl udata * nyl udata * nzl udata)
                           (RxNetData udata))))).
Proof.
  intros Hfc. unfold fimpl. cbv zeta.
  destruct (check_flag (FlagInt (timer_start tm)) 1); [discriminate|].
  unfold N_VGetSubvector_MPIManyVector.
  destruct (w !! 5%nat) as [wchem|]; [|discriminate].
  destruct (N_VConst_MPIManyVector ZERO wdot !! 5%nat) as [wchemdot|];
    [|discriminate].
  change (default [] (Some wchem)) with wchem.
  change (default [] (Some wchemdot)) with wchemdot.
  rewrite !bool_decide_eq_true_2 by eauto.
  change (check_flag (FlagPtr true) 0) with false. cbv iota.
  rewrite calculate_rhs_cvklu_status.
  change (check_flag (FlagInt 0) 1) with false. cbv iota.
  destruct (check_flag (FlagInt (timer_stop tm)) 1); [discriminate|].
  intros _. exists wchem, wchemdot. repeat split.
  cbn [snd fchemcur set_fchemcur set_RxNetData TimeUnits].
  now rewrite N_VScale_ONE.
Qed.

(** C5.  When the weighted norm of [v] is not zero, [ATimes_BDMPIMV]
    returns [0] with [z = v - gamma Jv], where
    [Jv = (TimeUnits f(y + sigma v) - fchemcur) / sigma] and
    [sigma = 1 / ||v||] in the weighted root-mean-square norm; [f] is
    evaluated once, at the perturbed point, and [fchemcur] is what the
    last successful [fimpl] stored: [TimeUnits] times [f] at its own
    argument. *)
Theorem ATimes_BDMPIMV_divided_difference
    (tm : TimerCalls) (ark : ARKodeCalls) (content : BDMPIMVContent)
    (udata : EulerData) (v z y w fc : list R) :
  (0 <= get_time_ret ark)%Z -> (0 <= get_state_ret ark)%Z ->
  (0 <= get_gamma_ret ark)%Z -> (0 <= get_ewt_ret ark)%Z ->
  (0 <= timer_start tm)%Z -> (0 <= timer_stop tm)%Z ->
  ycur ark !! subvec content = Some y ->
  ewt ark !! subvec content = Some w ->
  fchemcur udata = Some fc ->
  N_VWrmsNorm v w <> 0 ->
  let sigma := 1 / N_VWrmsNorm v w in
  let f :=
    calculate_rhs_cvklu (tcur ark) (N_VLinearSum sigma v 1 y) z
      (nxl udata * nyl udata * nzl udata) (RxNetData udata) in
  let fz := snd (fst f) in
  let r := ATimes_BDMPIMV tm ark content udata v z in
  fst (fst (fst r)) = 0%Z /\
  nfeDQ (snd (fst r)) = (nfeDQ content + 1)%Z /\
  RxNetData (snd r) = snd f /\
  (forall i : nat,
     (i < length v)%nat -> (i < length fz)%nat -> (i < length fc)%nat ->
     rd (snd (fst (fst r))) i
     = rd v i
       - gamma ark * ((TimeUnits udata * rd fz i - rd fc i) / sigma)) /\
  (forall tm' t' (w' wdot' : list (list R)) udata',
     is_Some (fchemcur udata') ->
     fst (fst (fimpl tm' t' w' wdot' udata')) = 0%Z ->
     exists wchem wchemdot,
       w' !! 5%nat = Some wchem /\
       N_VConst_MPIManyVector ZERO wdot' !! 5%nat = Some wchemdot /\
       fchemcur (snd (fimpl tm' t' w' wdot' udata'))
       = Some (N_VScale (TimeUnits udata')
                 (snd (fst (calculate_rhs_cvklu t' wchem wchemdot
                              (nxl udata' * nyl udata' * nzl udata')
                              (RxNetData udata')))))).
Proof.
  intros H1 H2 H3 H4 H5 H6 Hy Hw Hfc Hnorm sigma f fz r.
  assert (Hr : r = (0%Z,
                    N_VLinearSum ONE v (- gamma ark)
                      (N_VLinearSum (ONE / (ONE / N_VWrmsNorm v w))
                         (N_VScale (TimeUnits udata) fz)
                         (- (ONE / (ONE / N_VWrmsNorm v w))) fc),
                    set_nfeDQ (nfeDQ content + 1)
                      (set_work (<[subvec content :=
                                     N_VLinearSum sigma v 1 y]> (ewt ark))
                         content),
                    set_RxNetData (snd f) udata)).
  { unfold r, ATimes_BDMPIMV. cbv zeta. unfold check_flag.
    cbn [Z.eqb Pos.eqb].
    destruct (Z.ltb_spec (get_time_ret ark) 0); [lia|].
    destruct (Z.ltb_spec (get_state_ret ark) 0); [lia|].
    destruct (Z.ltb_spec (get_gamma_ret ark) 0); [lia|].
    destruct (Z.ltb_spec (get_ewt_ret ark) 0); [lia|].
    destruct (Z.ltb_spec (timer_start tm) 0); [lia|].
    destruct (Z.ltb_spec (timer_stop tm) 0); [lia|].
    unfold N_VGetSubvector_MPIManyVector.
    cbn [subvec work nfeDQ set_work set_nfeDQ].
    rewrite Hy, Hw.
    change (default [] (Some y)) with y.
    change (default [] (Some w)) with w.
    rewrite calculate_rhs_cvklu_status. cbn [Z.ltb Z.compare].
    cbn [fchemcur set_RxNetData TimeUnits nxl nyl nzl RxNetData].
    rewrite Hfc. change (default [] (Some fc)) with fc.
    unfold f, fz, sigma. rewrite ONE_is_1. reflexivity. }
  rewrite Hr. cbn [fst snd]. repeat split.
  - intros i Hv Hfz Hc.
    rewrite rd_N_VLinearSum;
      [|exact Hv
       |rewrite length_N_VLinearSum, length_N_VScale; lia].
    rewrite rd_N_VLinearSum by (rewrite ?length_N_VScale; assumption).
    rewrite rd_N_VScale by assumption.
    unfold sigma. rewrite ONE_is_1. field. exact Hnorm.
  - intros tm' t' w' wdot' udata'. apply fimpl_caches_rhs.
Qed.

End MatrixFree.

(** ** The unit scaling *)

Section UnitScaling.
Import NVector Driver Chem.



End UnitScaling.

(** ** The smoke test *)

Section SmokeTest.
Import NVector Driver Hydro Chem.

(** An invariant carried through a [for] loop. *)
Lemma for_steps_invariant {S : Type} (Inv : Z -> S -> Prop)
    (body : Z -> S -> S) (n : nat) (j : Z) (s : S) :
  Inv j s ->
  (forall j' s', (j <= j' < j + Z.of_nat n)%Z -> Inv j' s' ->
                 Inv (j' + 1)%Z (body j' s')) ->
  Inv (j + Z.of_nat n)%Z (fst (for_steps n j body s)).
Proof.
  revert j s. induction n as [|n IH]; intros j s H0 Hstep.
  - replace (j + Z.of_nat 0)%Z with j by lia. exact H0.
  - rewrite for_steps_S.
    replace (j + Z.of_nat (Datatypes.S n))%Z
      with ((j + 1) + Z.of_nat n)%Z by lia.
    apply IH.
    + apply Hstep; [lia|exact H0].
    + intros j' s' Hj'. apply Hstep. lia.
Qed.

Lemma for_loop_invariant {S : Type} (Inv : Z -> S -> Prop)
    (body : Z -> S -> S) (hi : Z) (s : S) :
  Inv 0%Z s ->
  (forall j' s', (0 <= j' < hi)%Z -> Inv j' s' ->
                 Inv (j' + 1)%Z (body j' s')) ->
  Inv (Z.max 0 hi) (fst (for_loop 0 hi body s)).
Proof.
  intros H0 Hstep. unfold for_loop.
  replace (Z.max 0 hi) with (0 + Z.of_nat (Z.to_nat (hi - 0)))%Z by lia.
  apply for_steps_invariant; [exact H0|].
  intros j' s' Hj'. apply Hstep. lia.
Qed.

Section Sweep.

Variable udata : EulerData.
Variable S : Type.
Variable body : Z -> Z -> Z -> S -> S.
Variable ok : S -> Prop.
Variable good : S -> Z -> Z -> Z -> Prop.

Hypothesis body_ok : forall i j k s, ok s -> ok (body i j k s).
Hypothesis body_keeps :
  forall i j k s i' j' k',
    ok s -> good s i' j' k' -> good (body i j k s) i' j' k'.
Hypothesis body_sets :
  forall i j k s, ok s -> in_tile udata i j k = true ->
                  good (body i j k s) i j k.

Lemma in_tile_spec i j k :
  in_tile udata i j k = true <->
  (0 <= i < nxl udata)%Z /\ (0 <= j < nyl udata)%Z /\
  (0 <= k < nzl udata)%Z.
Proof.
  unfold in_tile. rewrite !andb_true_iff, !Z.leb_le, !Z.ltb_lt. lia.
Qed.

(** After the triple loop every cell of the tile is as its own pass
    left it. *)
Lemma over_subdomain_sets (s : S) :
  ok s ->
  ok (over_subdomain udata body s) /\
  forall i j k, in_tile udata i j k = true ->
                good (over_subdomain udata body s) i j k.
Proof.
  intros Hok. unfold over_subdomain.
  pose (InvK := fun (k' : Z) (s' : S) =>
    ok s' /\ forall i j k, in_tile udata i j k = true -> (k < k')%Z ->
                           good s' i j k).
  assert (HK : InvK (Z.max 0 (nzl udata))
                 (fst (for_loop 0 (nzl udata) (fun k s0 =>
                    fst (for_loop 0 (nyl udata) (fun j s1 =>
                      fst (for_loop 0 (nxl udata)
                             (fun i s2 => body i j k s2) s1)) s0)) s))).
  { apply (for_loop_invariant InvK).
    - split; [exact Hok|]. intros i j k Ht Hk.
      apply in_tile_spec in Ht. lia.
    - intros k s0 Hk [Hok0 Hdone0].
      pose (InvJ := fun (j' : Z) (s' : S) =>
        ok s' /\
        forall i j k0, in_tile udata i j k0 = true ->
          (k0 < k \/ (k0 = k /\ j < j'))%Z -> good s' i j k0).
      assert (HJ : InvJ (Z.max 0 (nyl udata))
                     (fst (for_loop 0 (nyl udata) (fun j s1 =>
                        fst (for_loop 0 (nxl udata)
                               (fun i s2 => body i j k s2) s1)) s0))).
      { apply (for_loop_invariant InvJ).
        - split; [exact Hok0|]. intros i j k0 Ht [Hlt|[-> Hj]].
          + now apply Hdone0.
          + apply in_tile_spec in Ht. lia.
        - intros j s1 Hj [Hok1 Hdone1].
          pose (InvI := fun (i' : Z) (s' : S) =>
            ok s' /\
            forall i j0 k0, in_tile udata i j0 k0 = true ->
              (k0 < k \/ (k0 = k /\ j0 < j)
               \/ (k0 = k /\ j0 = j /\ i < i'))%Z -> good s' i j0 k0).
          assert (HI : InvI (Z.max 0 (nxl udata))
                         (fst (for_loop 0 (nxl udata)
                                 (fun i s2 => body i j k s2) s1))).
          { apply (for_loop_invariant InvI).
            - split; [exact Hok1|].
              intros i j0 k0 Ht [Hlt|[[-> Hlt]|(-> & -> & Hi)]].
              + apply Hdone1; [exact Ht|now left].
              + apply Hdone1; [exact Ht|now right].
              + apply in_tile_spec in Ht. lia.
            - intros i s2 Hi [Hok2 Hdone2]. split; [now apply body_ok|].
              intros i0 j0 k0 Ht Hcase.
              destruct (Z.eq_dec k0 k) as [->|Hk0];
                [destruct (Z.eq_dec j0 j) as [->|Hj0];
                 [destruct (Z.eq_dec i0 i) as [->|Hi0]|]|].
              + now apply body_sets.
              + apply body_keeps; [exact Hok2|]. apply Hdone2; [exact Ht|].
                right. right. lia.
              + apply body_keeps; [exact Hok2|]. apply Hdone2; [exact Ht|].
                lia.
              + apply body_keeps; [exact Hok2|]. apply Hdone2; [exact Ht|].
                lia. }
          destruct HI as [HokI HdoneI]. split; [exact HokI|].
          intros i j0 k0 Ht Hcase. apply HdoneI; [exact Ht|].
          pose proof (proj1 (in_tile_spec _ _ _) Ht). lia. }
      destruct HJ as [HokJ HdoneJ]. split; [exact HokJ|].
      intros i j k0 Ht Hcase. apply HdoneJ; [exact Ht|].
      pose proof (proj1 (in_tile_spec _ _ _) Ht). lia. }
  destruct HK as [HokK HdoneK]. split; [exact HokK|].
  intros i j k Ht. apply HdoneK; [exact Ht|].
  pose proof (proj1 (in_tile_spec _ _ _) Ht). lia.
Qed.

End Sweep.

Lemma rd_store_const a idx c idx0 :
  rd a idx0 = c -> rd (store a idx c) idx0 = c.
Proof.
  intros H. destruct (Nat.eq_dec idx idx0) as [->|Hne].
  - destruct (Nat.lt_ge_cases idx0 (length a)) as [Hlt|Hge].
    + now apply rd_store_eq.
    + unfold store. now rewrite list_insert_ge.
  - now rewrite rd_store_ne.
Qed.

Section UniformState.

Variable INDX : Z -> Z -> Z -> Z -> Z -> Z -> nat.
Variable BUFINDX : Z -> Z -> Z -> Z -> Z -> Z -> Z -> Z -> nat.
Variable riemann : axis -> conserved -> conserved -> conserved.
Variable epsilon : R.
Variable ghost : Z -> Z -> Z -> conserved.
Variable udata : EulerData.
Variable N : nat.

Hypothesis INDX_in_range :
  forall i j k, in_tile udata i j k = true ->
    (INDX i j k (nxl udata) (nyl udata) (nzl udata) < N)%nat.

Let idx_of i j k := INDX i j k (nxl udata) (nyl udata) (nzl udata).

(** The five fluid arrays have [N] entries each. *)
Let sized (a : arrays) : Prop :=
  length (a_rho a) = N /\ length (a_mx a) = N /\ length (a_my a) = N /\
  length (a_mz a) = N /\ length (a_et a) = N.

(** The five fluid arrays hold the given values at a cell. *)
Let holds (u : conserved) (a : arrays) (i j k : Z) : Prop :=
  rd (a_rho a) (idx_of i j k) = c_rho u /\
  rd (a_mx a) (idx_of i j k) = c_mx u /\
  rd (a_my a) (idx_of i j k) = c_my u /\
  rd (a_mz a) (idx_of i j k) = c_mz u /\
  rd (a_et a) (idx_of i j k) = c_et u.

Lemma initial_conditions_sweep (a : arrays) :
  sized a ->
  let a' := over_subdomain udata (initial_conditions_cell INDX BUFINDX udata)
              a in
  sized a' /\
  forall i j k, in_tile udata i j k = true ->
    holds (mk_conserved 4.0 0.5 0.3 0.1 2.0) a' i j k.
Proof.
  intros Ha.
  apply (over_subdomain_sets udata arrays
           (initial_conditions_cell INDX BUFINDX udata) sized
           (holds (mk_conserved 4.0 0.5 0.3 0.1 2.0))); [| | |exact Ha].
  - intros i j k s (H1 & H2 & H3 & H4 & H5).
    unfold sized, initial_conditions_cell. cbn [a_rho a_mx a_my a_mz a_et].
    now rewrite !length_store.
  - intros i j k s i' j' k' _ (H1 & H2 & H3 & H4 & H5).
    unfold holds, initial_conditions_cell.
    cbn [a_rho a_mx a_my a_mz a_et c_rho c_mx c_my c_mz c_et] in *.
    repeat split; now apply rd_store_const.
  - intros i j k s (H1 & H2 & H3 & H4 & H5) Ht.
    pose proof (INDX_in_range i j k Ht) as Hidx.
    unfold holds, initial_conditions_cell, idx_of.
    cbn [a_rho a_mx a_my a_mz a_et c_rho c_mx c_my c_mz c_et].
    repeat split; apply rd_store_eq; (reflexivity || lia).
Qed.

Lemma external_forces_sweep (a : arrays) :
  sized a ->
  let a' := over_subdomain udata (external_forces_cell INDX udata) a in
  sized a' /\
  forall i j k, in_tile udata i j k = true ->
    holds (mk_conserved 0 0 0 0 0) a' i j k.
Proof.
  intros Ha.
  apply (over_subdomain_sets udata arrays
           (external_forces_cell INDX udata) sized
           (holds (mk_conserved 0 0 0 0 0))); [| | |exact Ha].
  - intros i j k s (H1 & H2 & H3 & H4 & H5).
    unfold sized, external_forces_cell. cbn [a_rho a_mx a_my a_mz a_et].
    now rewrite !length_store.
  - intros i j k s i' j' k' _ (H1 & H2 & H3 & H4 & H5).
    unfold holds, external_forces_cell. rewrite ZERO_is_0.
    cbn [a_rho a_mx a_my a_mz a_et c_rho c_mx c_my c_mz c_et] in *.
    repeat split; now apply rd_store_const.
  - intros i j k s (H1 & H2 & H3 & H4 & H5) Ht.
    pose proof (INDX_in_range i j k Ht) as Hidx.
    unfold holds, external_forces_cell, idx_of. rewrite ZERO_is_0.
    cbn [a_rho a_mx a_my a_mz a_et c_rho c_mx c_my c_mz c_et].
    repeat split; apply rd_store_eq; (reflexivity || lia).
Qed.

(** On a uniform state the two faces of an interior cell carry the same
    flux along each axis. *)
Lemma faces_agree (w : list (list R)) (u : conserved) (ax : axis) i j k :
  uniform_state INDX ghost udata w u ->
  interior udata i j k ->
  face_flux INDX riemann epsilon ghost udata w ax i j k
  = lower_face_flux INDX riemann epsilon ghost udata w ax i j k.
Proof.
  intros Hu (Hi & Hj & Hk).
  assert (Hin : forall a b c,
            (0 <= a < nxl udata)%Z -> (0 <= b < nyl udata)%Z ->
            (0 <= c < nzl udata)%Z ->
            cell_state INDX ghost udata w a b c = u).
  { intros a b c Ha Hb Hc. apply Hu, in_tile_spec. lia. }
  unfold lower_face_flux, face_flux, shifted.
  destruct ax; cbv zeta; rewrite !Hin by lia; reflexivity.
Qed.

Lemma interior_in_tile i j k :
  interior udata i j k -> in_tile udata i j k = true.
Proof. intros (Hi & Hj & Hk). apply in_tile_spec. lia. Qed.

(** The chain of sub-vector assignments that ends a problem function
    leaves the five fluid arrays where they are read from. *)
Lemma fluid_components (v : list (list R)) (a : arrays) (c : bool) :
  (5 <= length v)%nat ->
  let v' :=
    (if c then <[5%nat := a_chem a]> else fun x => x)
      (<[4%nat := a_et a]> (<[3%nat := a_mz a]> (<[2%nat := a_my a]>
        (<[1%nat := a_mx a]> (<[0%nat := a_rho a]> v))))) in
  v' !! 0%nat = Some (a_rho a) /\ v' !! 1%nat = Some (a_mx a) /\
  v' !! 2%nat = Some (a_my a) /\ v' !! 3%nat = Some (a_mz a) /\
  v' !! 4%nat = Some (a_et a).
Proof.
  intros Hlen. destruct c; cbv zeta;
    repeat split;
    repeat (rewrite list_lookup_insert_ne by lia);
    rewrite list_lookup_insert_eq by (rewrite ?length_insert; lia);
    reflexivity.
Qed.

Lemma holds_cell_state (v : list (list R)) (a : arrays) (u : conserved) :
  v !! 0%nat = Some (a_rho a) /\ v !! 1%nat = Some (a_mx a) /\
  v !! 2%nat = Some (a_my a) /\ v !! 3%nat = Some (a_mz a) /\
  v !! 4%nat = Some (a_et a) ->
  (forall i j k, in_tile udata i j k = true -> holds u a i j k) ->
  uniform_state INDX ghost udata v u /\
  forall i j k, in_tile udata i j k = true -> forcing INDX udata v i j k = u.
Proof.
  intros (H0 & H1 & H2 & H3 & H4) Hholds.
  assert (Hc : forall i j k, in_tile udata i j k = true ->
            mk_conserved (component INDX udata v 0 i j k)
              (component INDX udata v 1 i j k)
              (component INDX udata v 2 i j k)
              (component INDX udata v 3 i j k)
              (component INDX udata v 4 i j k) = u).
  { intros i j k Ht. destruct (Hholds i j k Ht) as (E0 & E1 & E2 & E3 & E4).
    unfold component. rewrite H0, H1, H2, H3, H4.
    change (default [] (Some (a_rho a))) with (a_rho a).
    change (default [] (Some (a_mx a))) with (a_mx a).
    change (default [] (Some (a_my a))) with (a_my a).
    change (default [] (Some (a_mz a))) with (a_mz a).
    change (default [] (Some (a_et a))) with (a_et a).
    unfold idx_of in *. rewrite E0, E1, E2, E3, E4. now destruct u. }
  split.
  - intros i j k Ht. unfold cell_state. rewrite Ht. now apply Hc.
  - intros i j k Ht. unfold forcing. now apply Hc.
Qed.

(** C8.  On a tile of any size, with any Riemann solver, a state that
    has density 4.0, momenta (0.5, 0.3, 0.1) and total energy 2.0 in
    every cell, under a forcing that is zero in every cell, has a zero
    explicit right-hand side in every interior cell.  The smoke test
    sets up this state ([initial_conditions]) and this forcing
    ([external_forces]). *)
Theorem uniform_state_has_zero_rhs
    (t : R) (w0 G0 : list (list R)) :
  (forall f : nat, (f < 5)%nat ->
     exists sub, w0 !! f = Some sub /\ length sub = N) ->
  (forall f : nat, (f < 5)%nat ->
     exists sub, G0 !! f = Some sub /\ length sub = N) ->
  ((nchem udata > 0)%Z -> is_Some (w0 !! 5%nat)) ->
  let u := mk_conserved 4.0 0.5 0.3 0.1 2.0 in
  let zero := mk_conserved 0 0 0 0 0 in
  let ic := initial_conditions INDX BUFINDX t w0 udata in
  let ef := external_forces INDX t G0 udata in
  (forall w G : list (list R),
     uniform_state INDX ghost udata w u ->
     (forall i j k, in_tile udata i j k = true ->
                    forcing INDX udata G i j k = zero) ->
     forall i j k, interior udata i j k ->
       fEuler_cell INDX riemann epsilon ghost udata w G i j k = zero) /\
  (fst ic = 0%Z /\ uniform_state INDX ghost udata (snd ic) u) /\
  (fst ef = 0%Z /\
   forall i j k, in_tile udata i j k = true ->
                 forcing INDX udata (snd ef) i j k = zero).
Proof.
  intros Hw HG Hchem u zero ic ef.
  split; [|split].
  - intros w G Hu Hzero i j k Hint.
    unfold fEuler_cell. cbv zeta.
    rewrite <- !(faces_agree w u _ i j k Hu Hint).
    rewrite (Hzero i j k (interior_in_tile i j k Hint)).
    unfold zero. cbn [c_rho c_mx c_my c_mz c_et].
    f_equal; unfold Rdiv; ring.
  - destruct (Hw 0%nat ltac:(lia)) as (rho & E0 & L0).
    destruct (Hw 1%nat ltac:(lia)) as (mx & E1 & L1).
    destruct (Hw 2%nat ltac:(lia)) as (my & E2 & L2).
    destruct (Hw 3%nat ltac:(lia)) as (mz & E3 & L3).
    destruct (Hw 4%nat ltac:(lia)) as (et & E4 & L4).
    assert (H5 : (5 <= length w0)%nat)
      by (apply lookup_lt_Some in E4; lia).
    unfold ic, initial_conditions, N_VGetSubvector_MPIManyVector.
    rewrite E0, E1, E2, E3, E4. cbv zeta.
    set (chem := if (nchem udata >? 0)%Z then w0 !! 5%nat else None).
    assert (Hflag : (nchem udata >? 0)%Z
                    && check_flag (FlagPtr (bool_decide (is_Some chem))) 0
                    = false).
    { unfold chem. destruct (Z.gtb_spec (nchem udata) 0) as [Hpos|Hneg];
        [|reflexivity].
      rewrite bool_decide_eq_true_2 by (apply Hchem; lia). reflexivity. }
    rewrite Hflag. cbn [fst snd]. split; [reflexivity|].
    destruct (initial_conditions_sweep
                (mk_arrays rho mx my mz et (default [] chem)))
      as [_ Hholds]; [now repeat split|].
    set (a := over_subdomain udata
                (initial_conditions_cell INDX BUFINDX udata)
                (mk_arrays rho mx my mz et (default [] chem))) in *.
    apply (holds_cell_state _ a u); [|exact Hholds].
    pose proof (fluid_components w0 a (nchem udata >? 0)%Z H5) as Hf.
    cbv zeta in Hf. now destruct (nchem udata >? 0)%Z.
  - destruct (HG 0%nat ltac:(lia)) as (rho & E0 & L0).
    destruct (HG 1%nat ltac:(lia)) as (mx & E1 & L1).
    destruct (HG 2%nat ltac:(lia)) as (my & E2 & L2).
    destruct (HG 3%nat ltac:(lia)) as (mz & E3 & L3).
    destruct (HG 4%nat ltac:(lia)) as (et & E4 & L4).
    assert (H5 : (5 <= length G0)%nat)
      by (apply lookup_lt_Some in E4; lia).
    unfold ef, external_forces, N_VGetSubvector_MPIManyVector.
    rewrite E0, E1, E2, E3, E4. cbv zeta. cbn [fst snd].
    split; [reflexivity|].
    destruct (external_forces_sweep (mk_arrays rho mx my mz et []))
      as [_ Hholds]; [now repeat split|].
    set (a := over_subdomain udata (external_forces_cell INDX udata)
                (mk_arrays rho mx my mz et [])) in *.
    apply (holds_cell_state _ a zero); [|exact Hholds].
    exact (fluid_components G0 a false H5).
Qed.

End UniformState.

End SmokeTest.

(** ** The statements on concrete inputs *)

Section OnSamples.
Import NVector Chem Driver BDMPIMV Hydro Sample.

(** Three ranks with local codes [0], [-3] and [2]: every rank returns
    [-3]. *)
Lemma Solve_BDMPIMV_global_status_witness :
  map fst <$> solve_all [solve_rank 0; solve_rank (-3); solve_rank 2]
                [0%Z; 0%Z; 0%Z]
  = Some [(-3)%Z; (-3)%Z; (-3)%Z].
Proof.
  destruct (Solve_BDMPIMV_global_status
              [solve_rank 0; solve_rank (-3); solve_rank 2]
              [0%Z; 0%Z; 0%Z]) as (v & Hv & Hmin & _).
  - discriminate.
  - reflexivity.
  - repeat constructor; cbn; (lia || reflexivity).
  - repeat constructor; unfold CInt.in_range, CInt.INT_MIN, CInt.INT_MAX;
      cbn; lia.
  - rewrite Hv, Hmin; [reflexivity|].
    exists (-3)%Z. split; [|lia].
    apply list_elem_of_further, list_elem_of_here.
Defined.






(** The mixture density of the cell is negative and the value returned
    is [0]: the input on which C2 fails as stated. *)
Lemma negative_mixture_density_returns_zero :
  let data := setting_up_extra_variables data_neg 1 in
  rd (mdensity data) 0 < 0 /\
  fst (fst (calculate_rhs_cvklu 0 y1 (replicate 10 0) 1 data)) = 0%Z.
Proof.
  split; [|reflexivity].
  unfold setting_up_extra_variables, RAJA_forall.
  change (seq (Z.to_nat 0) (Z.to_nat (1 - 0))) with [0%nat].
  cbn [foldl]. unfold extra_variables_cell. cbv zeta.
  cbn [mdensity set_mdensity set_inv_mdensity
       set_cie_optical_depth_approx set_h2_optical_depth_approx].
  rewrite rd_store_eq; [|reflexivity|simpl; lia].
  unfold rd, NSPECIES. simpl. lra.
Qed.

(** The same input through the statement of what the code does. *)
Lemma calculate_rhs_cvklu_ignores_mixture_density_witness :
  let data := setting_up_extra_variables data_neg 1 in
  rd (mdensity data) 0 = (0.0 + -1 * 2.0 + 0 * 2.0 + 0 * 1.00794
                          + 0 * 1.00794 + 0 * 1.00794 + 0 * 4.002602
                          + 0 * 4.002602 + 0 * 4.002602) * 1.67e-24 /\
  fst (fst (calculate_rhs_cvklu 0 y1 (replicate 10 0) 1 data)) = 0%Z.
Proof.
  destruct (calculate_rhs_cvklu_ignores_mixture_density y1 0
              (replicate 10 0) 1 data_neg 0%nat) as (Hv & Hret & _).
  - simpl. lia.
  - simpl. lia.
  - split; [exact Hv|exact Hret].
Defined.


(** A successful call on a one-cell state. *)
Lemma fimpl_leaves_fluid_rates_zero_witness :
  fst (fst (fimpl timers_ok 0 w6 w6 udata1)) = 0%Z /\
  snd (fst (fimpl timers_ok 0 w6 w6 udata1)) !! 0%nat = Some [0].
Proof.
  assert (H : fst (fst (fimpl timers_ok 0 w6 w6 udata1)) = 0%Z)
    by reflexivity.
  split; [exact H|].
  exact (fimpl_leaves_fluid_rates_zero timers_ok 0 w6 w6 udata1 H 0%nat
           ltac:(lia)).
Defined.

Lemma unit_norm : N_VWrmsNorm [1] [1] = 1.
Proof.
  unfold N_VWrmsNorm. simpl.
  replace ((1 * 1 * (1 * 1 * 1) + 0) / 1) with 1 by field.
  apply sqrt_1.
Qed.

(** A vector of weighted norm 1. *)
Lemma ATimes_BDMPIMV_divided_difference_witness :
  N_VWrmsNorm [1] [1] <> 0 /\
  fst (fst (fst (ATimes_BDMPIMV timers_ok ark1 content1 udata1 [1] [0])))
  = 0%Z.
Proof.
  assert (Hnorm : N_VWrmsNorm [1] [1] <> 0) by (rewrite unit_norm; lra).
  split; [exact Hnorm|].
  apply (ATimes_BDMPIMV_divided_difference timers_ok ark1 content1 udata1
           [1] [0] [1] [1] (replicate 10 0));
    try (simpl; lia); try reflexivity; exact Hnorm.
Defined.

Lemma INDX7_in_range i j k :
  in_tile udata7 i j k = true ->
  (INDX7 i j k (nxl udata7) (nyl udata7) (nzl udata7) < 343)%nat.
Proof.
  intros Ht. apply in_tile_spec in Ht. unfold INDX7. simpl in *. lia.
Qed.

Lemma fields7_shape (f : nat) :
  (f < 5)%nat ->
  exists sub, fields7 !! f = Some sub /\ length sub = 343%nat.
Proof.
  intros Hf. exists (replicate 343 0). split; [|apply length_replicate].
  unfold fields7. do 5 (destruct f as [|f]; [reflexivity|]). lia.
Qed.

(** The middle cell of a 7 x 7 x 7 tile. *)
Lemma uniform_state_has_zero_rhs_witness :
  fEuler_cell INDX7 first_state 1.0e-6 ghost0 udata7
    (snd (initial_conditions INDX7 BUFINDX7 0 fields7 udata7))
    (snd (external_forces INDX7 0 fields7 udata7)) 3 3 3
  = mk_conserved 0 0 0 0 0.
Proof.
  destruct (uniform_state_has_zero_rhs INDX7 BUFINDX7 first_state 1.0e-6
              ghost0 udata7 343 INDX7_in_range 0 fields7 fields7
              fields7_shape fields7_shape)
    as (Hzero & (_ & Hu) & (_ & Hf)).
  - simpl. lia.
  - apply Hzero; [exact Hu|exact Hf|]. unfold interior. simpl. lia.
Defined.


End OnSamples.

(* ================================================================== *)
(** * Further properties

    Properties of the functions around those above: what the
    right-hand side of the network writes, its Jacobian, and the other
    callbacks of the driver. *)

(** ** What the right-hand side writes *)

Section RhsFootprint.
Import Chem.

Lemma rd_eq_lookup (a b : list R) (n : nat) :
  length a = length b -> rd a n = rd b n -> a !! n = b !! n.
Proof.
  intros Hlen Hrd.
  destruct (Nat.lt_ge_cases n (length a)) as [Hlt|Hge].
  - rewrite (lookup_rd a n Hlt), (lookup_rd b n) by lia. now rewrite Hrd.
  - rewrite !lookup_ge_None_2 by lia. reflexivity.
Qed.

(** The entries of a cell do not depend on what the output array held
    before. *)
Lemma rhs_cell_species_overwrites (data : cvklu_data) (i : nat)
    (H2_1 H2_2 H_1 H_2 H_m0 He_1 He_2 He_3 de ge : R)
    (yd1 yd2 : list R) (m : nat) :
  (i * NSPECIES + NSPECIES <= length yd1)%nat ->
  (i * NSPECIES + NSPECIES <= length yd2)%nat ->
  (m < NSPECIES)%nat ->
  rd (rhs_cell_species data i H2_1 H2_2 H_1 H_2 H_m0 He_1 He_2 He_3 de ge
        yd1) (i * NSPECIES + m)
  = rd (rhs_cell_species data i H2_1 H2_2 H_1 H_2 H_m0 He_1 He_2 He_3 de ge
          yd2) (i * NSPECIES + m).
Proof.
  unfold NSPECIES. intros H1 H2 Hm.
  unfold rhs_cell_species, NSPECIES. cbv zeta.
  do 10 (destruct m as [|m]; [read_back; reflexivity|]). lia.
Qed.

Variable ydata : list R.

Let cells (l : list nat) (st : list R * cvklu_data) :=
  foldl (fun s i => rhs_cell ydata i s) st l.

Lemma rhs_cell_data_only (i : nat) (yd1 yd2 : list R) (d : cvklu_data) :
  snd (rhs_cell ydata i (yd1, d)) = snd (rhs_cell ydata i (yd2, d)).
Proof. reflexivity. Qed.

Lemma rhs_cell_block_overwrites (i : nat) (yd1 yd2 : list R)
    (d : cvklu_data) (m : nat) :
  (i * NSPECIES + NSPECIES <= length yd1)%nat ->
  (i * NSPECIES + NSPECIES <= length yd2)%nat ->
  (m < NSPECIES)%nat ->
  rd (fst (rhs_cell ydata i (yd1, d))) (i * NSPECIES + m)
  = rd (fst (rhs_cell ydata i (yd2, d))) (i * NSPECIES + m).
Proof.
  intros H1 H2 Hm. unfold rhs_cell. cbv zeta. cbn [fst snd].
  now apply rhs_cell_species_overwrites.
Qed.

Lemma cells_overwrite (l : list nat) (yd1 yd2 : list R) (d : cvklu_data) :
  length yd1 = length yd2 ->
  (forall i, i ∈ l -> (i * NSPECIES + NSPECIES <= length yd1)%nat) ->
  snd (cells l (yd1, d)) = snd (cells l (yd2, d)) /\
  forall n,
    (rd yd1 n = rd yd2 n \/
     exists i, i ∈ l /\ (i * NSPECIES <= n < i * NSPECIES + NSPECIES)%nat) ->
    rd (fst (cells l (yd1, d))) n = rd (fst (cells l (yd2, d))) n.
Proof.
  revert yd1 yd2 d. induction l as [|a l IH]; intros yd1 yd2 d Hlen Hroom.
  - split; [reflexivity|]. intros n [H|(i & Hi & _)]; [exact H|].
    now apply elem_of_nil in Hi.
  - change (cells (a :: l) (yd1, d)) with (cells l (rhs_cell ydata a (yd1, d))).
    change (cells (a :: l) (yd2, d)) with (cells l (rhs_cell ydata a (yd2, d))).
    rewrite (surjective_pairing (rhs_cell ydata a (yd1, d))).
    rewrite (surjective_pairing (rhs_cell ydata a (yd2, d))).
    rewrite (rhs_cell_data_only a yd1 yd2 d).
    assert (Hroom_a : (a * NSPECIES + NSPECIES <= length yd1)%nat)
      by (apply Hroom, list_elem_of_here).
    destruct (IH (fst (rhs_cell ydata a (yd1, d)))
                (fst (rhs_cell ydata a (yd2, d)))
                (snd (rhs_cell ydata a (yd2, d)))) as [Hd Hn].
    { now rewrite !rhs_cell_length. }
    { intros i Hi. rewrite rhs_cell_length. apply Hroom.
      now apply list_elem_of_further. }
    split; [exact Hd|]. intros n Hcase. apply Hn.
    destruct (Nat.lt_ge_cases n (a * NSPECIES)) as [Hlo|Hlo];
      [|destruct (Nat.lt_ge_cases n (a * NSPECIES + NSPECIES)) as [Hhi|Hhi]].
    + destruct Hcase as [Heq|(i & Hi & Hin)].
      * left. rewrite !rhs_cell_frame by lia. exact Heq.
      * apply elem_of_cons in Hi as [->|Hi]; [lia|]. right. eauto.
    + left. replace n with (a * NSPECIES + (n - a * NSPECIES))%nat by lia.
      apply rhs_cell_block_overwrites; cbn [fst]; lia.
    + destruct Hcase as [Heq|(i & Hi & Hin)].
      * left. rewrite !rhs_cell_frame by lia. exact Heq.
      * apply elem_of_cons in Hi as [->|Hi]; [lia|]. right. eauto.
Qed.

(** The fields of the structure that the loop body never assigns. *)
Lemma cells_static (l : list nat) (st : list R * cvklu_data) :
  let d := snd st in
  let d' := snd (cells l st) in
  nstrip d' = nstrip d /\ mdensity d' = mdensity d /\
  inv_mdensity d' = inv_mdensity d /\
  cie_optical_depth_approx d' = cie_optical_depth_approx d /\
  h2_optical_depth_approx d' = h2_optical_depth_approx d /\
  scale d' = scale d /\ inv_scale d' = inv_scale d /\
  current_z d' = current_z d /\ bounds d' = bounds d /\
  nbins d' = nbins d /\ dbin d' = dbin d /\ idbin d' = idbin d /\
  table d' = table d /\ g_gammaH2_1 d' = g_gammaH2_1 d /\
  g_dgammaH2_1_dT d' = g_dgammaH2_1_dT d /\
  g_gammaH2_2 d' = g_gammaH2_2 d /\
  g_dgammaH2_2_dT d' = g_dgammaH2_2_dT d.
Proof.
  revert st. induction l as [|a l IH]; intros st; [now repeat split|].
  change (cells (a :: l) st) with (cells l (rhs_cell ydata a st)).
  cbv zeta.
  destruct (IH (rhs_cell ydata a st))
    as (-> & -> & -> & -> & -> & -> & -> & -> & -> & -> & -> & -> & ->
        & -> & -> & -> & ->).
  now repeat split.
Qed.

(** X1.  [calculate_rhs_cvklu] keeps the length of the output array and
    writes no entry past the block of the last cell; in the structure it
    assigns the per-cell temperatures and rates only, every other field
    is left as it was; with no cell to work on nothing is written at
    all. *)
Theorem calculate_rhs_cvklu_footprint
    (t : R) (ydot : list R) (nstrip : Z) (data : cvklu_data) :
  let r := calculate_rhs_cvklu t ydata ydot nstrip data in
  length (snd (fst r)) = length ydot /\
  (forall n, (Z.to_nat nstrip * NSPECIES <= n)%nat ->
             snd (fst r) !! n = ydot !! n) /\
  (mdensity (snd r) = mdensity data /\
   inv_mdensity (snd r) = inv_mdensity data /\
   cie_optical_depth_approx (snd r) = cie_optical_depth_approx data /\
   h2_optical_depth_approx (snd r) = h2_optical_depth_approx data /\
   scale (snd r) = scale data /\ inv_scale (snd r) = inv_scale data /\
   current_z (snd r) = current_z data /\ bounds (snd r) = bounds data /\
   nbins (snd r) = nbins data /\ dbin (snd r) = dbin data /\
   idbin (snd r) = idbin data /\ table (snd r) = table data) /\
  ((nstrip <= 0)%Z -> r = (0%Z, ydot, data)).
Proof.
  intros r.
  assert (Hr : r = (0%Z, fst (cells (seq 0 (Z.to_nat nstrip)) (ydot, data)),
                    snd (cells (seq 0 (Z.to_nat nstrip)) (ydot, data)))).
  { unfold r, calculate_rhs_cvklu, RAJA_forall, cells. cbv zeta.
    now rewrite Z.sub_0_r. }
  rewrite Hr. cbn [fst snd].
  destruct (cells_invariants ydata (seq 0 (Z.to_nat nstrip)) (ydot, data))
    as (Hlen & _ & _).
  fold (cells (seq 0 (Z.to_nat nstrip)) (ydot, data)) in Hlen.
  cbn [fst] in Hlen.
  split; [exact Hlen|]. split; [|split].
  - intros n Hn. apply rd_eq_lookup; [exact Hlen|].
    apply (cells_frame ydata (seq 0 (Z.to_nat nstrip)) (ydot, data) n).
    intros i Hi. apply list_elem_of_In, List.in_seq in Hi.
    unfold NSPECIES in *. lia.
  - destruct (cells_static (seq 0 (Z.to_nat nstrip)) (ydot, data))
      as (_ & H1 & H2 & H3 & H4 & H5 & H6 & H7 & H8 & H9 & H10 & H11
          & H12 & _).
    cbn [snd] in *. now repeat split.
  - intros Hn. replace (Z.to_nat nstrip) with 0%nat by lia. reflexivity.
Qed.

(** X2.  Every entry of the cells' blocks is assigned: what
    [calculate_rhs_cvklu] leaves there, and in the structure, does not
    depend on what the output array held before the call. *)
Theorem calculate_rhs_cvklu_overwrites
    (t : R) (yd1 yd2 : list R) (nstrip : Z) (data : cvklu_data) :
  length yd1 = length yd2 ->
  (Z.to_nat nstrip * NSPECIES <= length yd1)%nat ->
  let r1 := calculate_rhs_cvklu t ydata yd1 nstrip data in
  let r2 := calculate_rhs_cvklu t ydata yd2 nstrip data in
  snd r1 = snd r2 /\
  (forall n, (n < Z.to_nat nstrip * NSPECIES)%nat ->
             snd (fst r1) !! n = snd (fst r2) !! n) /\
  (length yd1 = (Z.to_nat nstrip * NSPECIES)%nat -> r1 = r2).
Proof.
  intros Hlen Hroom r1 r2.
  destruct (cells_overwrite (seq 0 (Z.to_nat nstrip)) yd1 yd2 data Hlen)
    as [Hd Hn].
  { intros i Hi. apply list_elem_of_In, List.in_seq in Hi.
    unfold NSPECIES in *. lia. }
  assert (Hr : forall yd,
            calculate_rhs_cvklu t ydata yd nstrip data
            = (0%Z, fst (cells (seq 0 (Z.to_nat nstrip)) (yd, data)),
               snd (cells (seq 0 (Z.to_nat nstrip)) (yd, data)))).
  { intros yd. unfold calculate_rhs_cvklu, RAJA_forall, cells. cbv zeta.
    now rewrite Z.sub_0_r. }
  assert (Hlens : length (fst (cells (seq 0 (Z.to_nat nstrip)) (yd1, data)))
                  = length (fst (cells (seq 0 (Z.to_nat nstrip))
                                   (yd2, data)))).
  { unfold cells.
    destruct (cells_invariants ydata (seq 0 (Z.to_nat nstrip)) (yd1, data))
      as (-> & _).
    destruct (cells_invariants ydata (seq 0 (Z.to_nat nstrip)) (yd2, data))
      as (-> & _).
    exact Hlen. }
  assert (Hblock : forall n, (n < Z.to_nat nstrip * NSPECIES)%nat ->
            rd (fst (cells (seq 0 (Z.to_nat nstrip)) (yd1, data))) n
            = rd (fst (cells (seq 0 (Z.to_nat nstrip)) (yd2, data))) n).
  { intros n Hlt. apply Hn. right. exists (n / NSPECIES)%nat. split.
    - apply list_elem_of_In, List.in_seq. split; [lia|].
      apply Nat.Div0.div_lt_upper_bound. unfold NSPECIES in *. lia.
    - unfold NSPECIES.
      pose proof (Nat.div_mod_eq n 10). pose proof (Nat.mod_upper_bound n 10).
      lia. }
  unfold r1, r2. rewrite !Hr. cbn [fst snd].
  split; [exact Hd|]. split.
  - intros n Hlt. apply rd_eq_lookup; [exact Hlens|]. now apply Hblock.
  - intros Hfull. f_equal; [f_equal|exact Hd].
    apply list_eq. intros n. apply rd_eq_lookup; [exact Hlens|].
    destruct (Nat.lt_ge_cases n (Z.to_nat nstrip * NSPECIES)) as [Hlt|Hge].
    + now apply Hblock.
    + unfold rd. rewrite !lookup_ge_None_2; [reflexivity| |].
      * rewrite <- Hlens. unfold cells.
        destruct (cells_invariants ydata (seq 0 (Z.to_nat nstrip))
                    (yd1, data)) as (-> & _). cbn [fst]. lia.
      * unfold cells.
        destruct (cells_invariants ydata (seq 0 (Z.to_nat nstrip))
                    (yd1, data)) as (-> & _). cbn [fst]. lia.
Qed.

End RhsFootprint.

(** ** Charge *)

Section Charge.
Import Chem.

Section Block.

Variable data : cvklu_data.
Variable i : nat.
Variables H2_1 H2_2 H_1 H_2 H_m0 He_1 He_2 He_3 de ge : R.
Variable ydotdata : list R.

Let out :=
  rhs_cell_species data i H2_1 H2_2 H_1 H_2 H_m0 He_1 He_2 He_3 de ge
    ydotdata.
Let j := (i * NSPECIES)%nat.
Let k (r : rate_table) : R := rd (rs data r) i.

Hypothesis room : (i * NSPECIES + NSPECIES <= length ydotdata)%nat.



End Block.

Variable ydata : list R.



End Charge.

(** ** Look-ups inside the table *)

Section InsideTable.
Import Chem.




End InsideTable.

(** ** Temperatures and rates after the loop over cells *)

Section CellTemperatures.
Import Chem.



Variable ydata : list R.

Let cells (l : list nat) (st : list R * cvklu_data) :=
  foldl (fun s i => rhs_cell ydata i s) st l.




(** The cell holds a temperature inside the bounds and the rates looked
    up at that temperature. *)
Let settled (d0 d : cvklu_data) (i : nat) : Prop :=
  fst (bounds d0) <= rd (Ts d) i <= snd (bounds d0) /\
  forall k,
    rd (rs d k) i
    = interpolate (table d0 k) (find_bin d0 (rd (Ts d) i))
        (find_Tdef d0 (rd (Ts d) i) (find_bin d0 (rd (Ts d) i))).






End CellTemperatures.

(** ** The optical-depth factors *)

Section ExtraVariables.
Import Chem.




(** The arrays of the cell variables have room for cell [i]. *)
Let roomy (d : cvklu_data) (i : nat) : Prop :=
  (i < length (mdensity d))%nat /\ (i < length (inv_mdensity d))%nat /\
  (i < length (cie_optical_depth_approx d))%nat /\
  (i < length (h2_optical_depth_approx d))%nat.

Let settled (d : cvklu_data) (i : nat) : Prop :=
  rd (inv_mdensity d) i = 1.0 / rd (mdensity d) i /\
  (0 < rd (mdensity d) i ->
   0 < rd (cie_optical_depth_approx d) i <= 1 /\
   0 < rd (h2_optical_depth_approx d) i <= 1).






End ExtraVariables.

(** ** The Jacobian of the network *)

Section Jacobian.
Import Chem.

Lemma length_storeZ a i v : length (storeZ a i v) = length a.
Proof. apply length_insert. Qed.

Lemma rdZ_storeZ_eq a i v k :
  i = k -> (i < length a)%nat -> rdZ (storeZ a i v) k = v.
Proof.
  intros <- H. unfold rdZ, storeZ. now rewrite list_lookup_insert_eq.
Qed.

Lemma rdZ_storeZ_ne a i v k : i <> k -> rdZ (storeZ a i v) k = rdZ a k.
Proof.
  intros H. unfold rdZ, storeZ. now rewrite list_lookup_insert_ne.
Qed.

(** A chain of assignments [a[idx q] = v] to an integer array. *)
Let assign_all (idx : nat -> nat) (es : list (nat * Z)) (a : list Z)
    : list Z :=
  foldl (fun a e => storeZ a (idx (fst e)) (snd e)) a es.

Let assigned (p : nat) (es : list (nat * Z)) (x0 : Z) : Z :=
  foldl (fun x e => if (fst e =? p)%nat then snd e else x) x0 es.

Lemma length_assign_all idx es a : length (assign_all idx es a) = length a.
Proof.
  unfold assign_all. revert a.
  induction es as [|e es IH]; intros a; cbn [foldl]; [reflexivity|].
  now rewrite IH, length_storeZ.
Qed.

Lemma rdZ_assign_all idx es a p :
  (forall q, idx q = idx p -> q = p) ->
  (idx p < length a)%nat ->
  rdZ (assign_all idx es a) (idx p) = assigned p es (rdZ a (idx p)).
Proof.
  unfold assign_all, assigned. intros Hinj. revert a.
  induction es as [|e es IH]; intros a Hp; cbn [foldl]; [reflexivity|].
  rewrite IH by now rewrite length_storeZ.
  destruct (Nat.eqb_spec (fst e) p) as [->|Hne].
  - now rewrite rdZ_storeZ_eq.
  - rewrite rdZ_storeZ_ne; [reflexivity|]. intros H. now apply Hne, Hinj.
Qed.

Lemma rdZ_assign_all_frame idx es a n (bound : nat) :
  forallb (fun e : nat * Z => (fst e <? bound)%nat) es = true ->
  (forall q, (q < bound)%nat -> idx q <> n) ->
  rdZ (assign_all idx es a) n = rdZ a n.
Proof.
  unfold assign_all. intros Hall Hidx. revert a Hall.
  induction es as [|e es IH]; intros a Hall; cbn [foldl]; [reflexivity|].
  cbn [forallb] in Hall. apply andb_true_iff in Hall as [He Hes].
  rewrite IH by exact Hes. apply rdZ_storeZ_ne, Hidx.
  now apply Nat.ltb_lt.
Qed.

Ltac assignments_of t :=
  lazymatch t with
  | storeZ ?a (_ + ?q)%nat ?v =>
      let r := assignments_of a in
      lazymatch r with
      | (?a0, ?es) => constr:((a0, (q, v) :: es))
      end
  | ?a0 => constr:((a0, @nil (nat * Z)))
  end.

(** Puts the outermost chain of assignments into [base + _] in the form
    of [assign_all]. *)
Ltac as_assignments base :=
  match goal with
  | |- context [storeZ ?a (base + ?q)%nat ?v] =>
      let t := constr:(storeZ a (base + q)%nat v) in
      let r := assignments_of t in
      lazymatch r with
      | (?a0, ?es) =>
          let es' := eval cbv [app rev] in (rev es) in
          let H := fresh "H" in
          assert (H : t = assign_all (fun off => (base + off)%nat) es' a0)
            by (cbv [assign_all foldl fst snd]; reflexivity);
          rewrite H; clear H
      end
  end.

(** The column of each stored value and the first stored value of each
    row, relative to the cell. *)
Let cols : list nat :=
  [0; 1; 2; 3; 4; 8; 9;  0; 1; 2; 3; 4; 8; 9;  0; 1; 2; 3; 4; 8; 9;
   0; 1; 2; 3; 4; 8; 9;  1; 2; 3; 4; 8; 9;  5; 6; 8; 9;  5; 6; 7; 8; 9;
   6; 7; 8; 9;  1; 2; 3; 4; 5; 6; 7; 8; 9;  0; 2; 3; 5; 6; 7; 8; 9]%nat.

Let offs : list nat := [0; 7; 14; 21; 28; 34; 38; 43; 47; 56; 64]%nat.

(** What one pass leaves in the column indices. *)
Lemma jacobian_cell_pattern_columns (nstrip : Z) (i : nat)
    (colvals rowptrs : list Z) :
  let colvals' := fst (jacobian_cell_pattern nstrip i colvals rowptrs) in
  length colvals' = length colvals /\
  (forall n, (n < i * NSPARSE \/ i * NSPARSE + NSPARSE <= n)%nat ->
             rdZ colvals' n = rdZ colvals n) /\
  ((i * NSPARSE + NSPARSE <= length colvals)%nat ->
   forall p, (p < NSPARSE)%nat ->
     rdZ colvals' (i * NSPARSE + p)
     = Z.of_nat (i * NSPECIES + nth p cols 0%nat)).
Proof.
  unfold jacobian_cell_pattern. cbv zeta. cbn [fst].
  as_assignments (i * NSPARSE)%nat.
  split; [apply length_assign_all|]. split.
  - intros n Hn. apply (rdZ_assign_all_frame _ _ _ _ 64).
    + reflexivity.
    + intros q Hq. unfold NSPARSE in *. lia.
  - intros Hroom p Hp.
    rewrite (rdZ_assign_all (fun q => (i * NSPARSE + q)%nat))
      by (cbv beta; lia).
    unfold NSPARSE in Hp.
    do 64 (destruct p as [|p]; [reflexivity|]). lia.
Qed.

(** What one pass leaves in the row pointers. *)
Lemma jacobian_cell_pattern_rows (nstrip : Z) (i : nat)
    (colvals rowptrs : list Z) :
  let rowptrs' := snd (jacobian_cell_pattern nstrip i colvals rowptrs) in
  length rowptrs' = length rowptrs /\
  (forall n, (n < i * NSPECIES \/ i * NSPECIES + NSPECIES <= n)%nat ->
             n <> Z.to_nat (nstrip * Z.of_nat NSPECIES) ->
             rdZ rowptrs' n = rdZ rowptrs n) /\
  ((Z.of_nat i < nstrip)%Z ->
   (Z.to_nat nstrip * NSPECIES < length rowptrs)%nat ->
   (forall r, (r < NSPECIES)%nat ->
      rdZ rowptrs' (i * NSPECIES + r)
      = Z.of_nat (i * NSPARSE + nth r offs 0%nat)) /\
   (Z.of_nat i = (nstrip - 1)%Z ->
    rdZ rowptrs' (Z.to_nat nstrip * NSPECIES)
    = Z.of_nat (Z.to_nat nstrip * NSPARSE)) /\
   (Z.of_nat i <> (nstrip - 1)%Z ->
    rdZ rowptrs' (Z.to_nat nstrip * NSPECIES)
    = rdZ rowptrs (Z.to_nat nstrip * NSPECIES))).
Proof.
  unfold jacobian_cell_pattern. cbv zeta. cbn [snd].
  as_assignments (i * NSPECIES)%nat.
  match goal with
  | |- context [assign_all ?f ?es rowptrs] =>
      set (chain := assign_all f es rowptrs);
      assert (Hlen : length chain = length rowptrs)
        by apply length_assign_all;
      assert (Hframe : forall n,
                (n < i * NSPECIES \/ i * NSPECIES + NSPECIES <= n)%nat ->
                rdZ chain n = rdZ rowptrs n)
        by (intros n Hn; apply (rdZ_assign_all_frame _ _ _ _ 10);
            [reflexivity|intros q Hq; unfold NSPECIES in *; lia]);
      assert (Hread : (i * NSPECIES + NSPECIES <= length rowptrs)%nat ->
                forall r, (r < NSPECIES)%nat ->
                  rdZ chain (i * NSPECIES + r)
                  = Z.of_nat (i * NSPARSE + nth r offs 0%nat))
        by (intros Hroom r Hr; unfold chain;
            rewrite (rdZ_assign_all (fun q => (i * NSPECIES + q)%nat))
              by (cbv beta; lia);
            unfold NSPECIES in Hr;
            do 10 (destruct r as [|r]; [reflexivity|]); lia)
  end.
  clearbody chain.
  assert (Hlast : Z.to_nat (nstrip * Z.of_nat NSPECIES)
                  = (Z.to_nat nstrip * NSPECIES)%nat).
  { destruct (Z.le_gt_cases 0 nstrip).
    - rewrite Z2Nat.inj_mul, Nat2Z.id by lia. reflexivity.
    - replace (Z.to_nat nstrip) with 0%nat by lia.
      unfold NSPECIES. simpl Z.of_nat. lia. }
  rewrite Hlast.
  destruct (Z.eqb_spec (Z.of_nat i) (nstrip - 1)) as [Heq|Hne].
  - split; [now rewrite length_storeZ|]. split.
    + intros n Hn Hn'. rewrite rdZ_storeZ_ne by congruence. now apply Hframe.
    + intros Hi Hroom. split; [|split].
      * intros r Hr. rewrite rdZ_storeZ_ne by (unfold NSPECIES in *; lia).
        apply Hread; [unfold NSPECIES in *; lia|exact Hr].
      * intros _. rewrite rdZ_storeZ_eq by (reflexivity || lia).
        rewrite Nat2Z.inj_mul. rewrite Z2Nat.id by lia. reflexivity.
      * intros Hc. contradiction.
  - split; [exact Hlen|]. split.
    + intros n Hn _. now apply Hframe.
    + intros Hi Hroom. split; [|split].
      * intros r Hr. apply Hread; [unfold NSPECIES in *; lia|exact Hr].
      * intros Hc. contradiction.
      * intros _. apply Hframe. unfold NSPECIES in *. lia.
Qed.


(** A chain of assignments to one block of an array.  Each entry of the
    list stands for [a[idx q] = v] followed by [a[idx q] *= c] for
    every [c] of [cs]. *)
Let write_entry (idx : nat -> nat) (a : list R) (e : nat * R * list R)
    : list R :=
  foldl (fun a c => scale_at a (idx (fst (fst e))) c)
        (store a (idx (fst (fst e))) (snd (fst e))) (snd e).

Let write_all (idx : nat -> nat) (es : list (nat * R * list R))
    (a : list R) : list R :=
  foldl (write_entry idx) a es.


Lemma length_write_entry idx a e :
  length (write_entry idx a e) = length a.
Proof.
  destruct e as [[q v] cs]. unfold write_entry. cbn [fst snd].
  generalize (store a (idx q) v) (length_store a (idx q) v).
  induction cs as [|c cs IH]; intros b Hb; cbn [foldl]; [exact Hb|].
  apply IH. now rewrite length_scale_at.
Qed.

Lemma length_write_all idx es a : length (write_all idx es a) = length a.
Proof.
  unfold write_all. revert a.
  induction es as [|e es IH]; intros a; cbn [foldl]; [reflexivity|].
  now rewrite IH, length_write_entry.
Qed.



Lemma rd_write_entry_frame idx a e n :
  idx (fst (fst e)) <> n -> rd (write_entry idx a e) n = rd a n.
Proof.
  destruct e as [[q v] cs]. unfold write_entry. cbn [fst snd]. intros Hne.
  assert (H0 : rd (store a (idx q) v) n = rd a n) by now apply rd_store_ne.
  revert H0. generalize (store a (idx q) v).
  induction cs as [|c cs IH]; intros b Hb; cbn [foldl]; [exact Hb|].
  apply IH. rewrite rd_scale_at_ne by exact Hne. exact Hb.
Qed.

Lemma rd_write_all_frame idx es a n (bound : nat) :
  forallb (fun e : nat * R * list R => (fst (fst e) <? bound)%nat) es = true ->
  (forall q, (q < bound)%nat -> idx q <> n) ->
  rd (write_all idx es a) n = rd a n.
Proof.
  unfold write_all. intros Hall Hidx. revert a Hall.
  induction es as [|e es IH]; intros a Hall; cbn [foldl]; [reflexivity|].
  cbn [forallb] in Hall. apply andb_true_iff in Hall as [He Hes].
  rewrite IH by exact Hes. apply rd_write_entry_frame, Hidx.
  now apply Nat.ltb_lt.
Qed.


(** Reads the chain of assignments off a term. *)
Ltac chain_of t :=
  lazymatch t with
  | scale_at ?a (SPARSEIDX _ ?q) ?c =>
      let r := chain_of a in
      lazymatch r with
      | (?a0, (q, ?v, ?cs) :: ?es) => constr:((a0, (q, v, c :: cs) :: es))
      end
  | store ?a (SPARSEIDX _ ?q) ?v =>
      let r := chain_of a in
      lazymatch r with
      | (?a0, ?es) => constr:((a0, (q, v, @nil R) :: es))
      end
  | ?a0 => constr:((a0, @nil (nat * R * list R)))
  end.

(** Puts the entries of a cell, once unfolded, in the form of a
    chain. *)
Ltac as_chain i :=
  unfold jacobian_cell_entries; cbv zeta;
  match goal with
  | |- context [scale_at ?a (SPARSEIDX i 63) ?c] =>
      let t := constr:(scale_at a (SPARSEIDX i 63) c) in
      let r := chain_of t in
      lazymatch r with
      | (?a0, ?es) =>
          let es' := eval cbv [app rev map fst snd] in
                       (rev (map (fun e : nat * R * list R =>
                                    (fst e, rev (snd e))) es)) in
          let H := fresh "H" in
          assert (H : t = write_all (SPARSEIDX i) es' a0)
            by (cbv [write_all write_entry foldl fst snd]; reflexivity);
          rewrite H; clear H
      end
  end.



Section Cell.

Variable data : cvklu_data.
Variable i : nat.
Variables H2_1 H2_2 H_1 H_2 H_m0 He_1 He_2 He_3 de ge : R.
Variable matrix_data : list R.

Let out :=
  jacobian_cell_entries data i H2_1 H2_2 H_1 H_2 H_m0 He_1 He_2 He_3 de ge
    matrix_data.

Lemma length_jacobian_cell_entries : length out = length matrix_data.
Proof. unfold out. as_chain i. apply length_write_all. Qed.

Lemma jacobian_cell_entries_frame n :
  (n < i * NSPARSE \/ i * NSPARSE + NSPARSE <= n)%nat ->
  rd out n = rd matrix_data n.
Proof.
  intros Hn. unfold out. as_chain i.
  apply (rd_write_all_frame _ _ _ _ 64).
  - cbv [forallb fst snd Nat.ltb Nat.leb andb]. reflexivity.
  - intros q Hq. unfold SPARSEIDX, NSPARSE in *. lia.
Qed.

Hypothesis room : (i * NSPARSE + NSPARSE <= length matrix_data)%nat.

Hypothesis inverse_scales :
  forall r, (r < NSPECIES)%nat ->
    rd (scale data) (i * NSPECIES + r)
    * rd (inv_scale data) (i * NSPECIES + r) = 1.


Let s (r : nat) : R := rd (scale data) (i * NSPECIES + r).


End Cell.





(** The tables of the pattern: every row is not empty, its columns are
    those of the ten unknowns, in increasing order. *)
Lemma offs_increasing (r : nat) :
  (r < 10)%nat ->
  (nth r offs 0 < nth (Datatypes.S r) offs 0 <= 64)%nat.
Proof.
  intros Hr. do 10 (destruct r as [|r]; [cbn; lia|]). lia.
Qed.

Lemma cols_in_block (q : nat) : (q < 64)%nat -> (nth q cols 0 < 10)%nat.
Proof.
  intros Hq.
  assert (H : forallb (fun q => (nth q cols 0 <? 10)%nat) (seq 0 64) = true)
    by reflexivity.
  rewrite forallb_forall in H. apply Nat.ltb_lt, H, List.in_seq. lia.
Qed.

Lemma cols_sorted (r q : nat) :
  (r < 10)%nat ->
  (nth r offs 0 <= q)%nat -> (q + 1 < nth (Datatypes.S r) offs 0)%nat ->
  (nth q cols 0 < nth (q + 1) cols 0)%nat.
Proof.
  intros Hr Hlo Hhi.
  assert (H : forallb (fun r =>
                forallb (fun q => (nth q cols 0 <? nth (q + 1) cols 0)%nat)
                  (seq (nth r offs 0%nat)
                     (nth (Datatypes.S r) offs 0 - nth r offs 0 - 1)%nat))
                (seq 0 10) = true) by reflexivity.
  rewrite forallb_forall in H.
  specialize (H r ltac:(apply List.in_seq; lia)).
  rewrite forallb_forall in H.
  apply Nat.ltb_lt, H, List.in_seq. lia.
Qed.

Section Loop.

Variable ydata : list R.
Variable nstrip : Z.
Variable data : cvklu_data.

Let n : nat := Z.to_nat nstrip.

Let pass (J : SUNSparseMatrix) (a : nat) : SUNSparseMatrix :=
  jacobian_cell ydata nstrip data a J.

(** The entries of a cell, computed from the unknowns of the cell. *)
Let entries_of (i : nat) (m : list R) : list R :=
  jacobian_cell_entries data i
    (rd ydata (i * NSPECIES) * rd (scale data) (i * NSPECIES))
    (rd ydata (i * NSPECIES + 1) * rd (scale data) (i * NSPECIES + 1))
    (rd ydata (i * NSPECIES + 2) * rd (scale data) (i * NSPECIES + 2))
    (rd ydata (i * NSPECIES + 3) * rd (scale data) (i * NSPECIES + 3))
    (rd ydata (i * NSPECIES + 4) * rd (scale data) (i * NSPECIES + 4))
    (rd ydata (i * NSPECIES + 5) * rd (scale data) (i * NSPECIES + 5))
    (rd ydata (i * NSPECIES + 6) * rd (scale data) (i * NSPECIES + 6))
    (rd ydata (i * NSPECIES + 7) * rd (scale data) (i * NSPECIES + 7))
    (rd ydata (i * NSPECIES + 8) * rd (scale data) (i * NSPECIES + 8))
    (rd ydata (i * NSPECIES + 9) * rd (scale data) (i * NSPECIES + 9))
    m.

Lemma pass_data (a : nat) (J : SUNSparseMatrix) :
  sm_data (pass J a) = entries_of a (sm_data J).
Proof. reflexivity. Qed.

Lemma pass_indexvals (a : nat) (J : SUNSparseMatrix) :
  sm_indexvals (pass J a)
  = fst (jacobian_cell_pattern nstrip a (sm_indexvals J) (sm_indexptrs J)).
Proof. reflexivity. Qed.

Lemma pass_indexptrs (a : nat) (J : SUNSparseMatrix) :
  sm_indexptrs (pass J a)
  = snd (jacobian_cell_pattern nstrip a (sm_indexvals J) (sm_indexptrs J)).
Proof. reflexivity. Qed.

(** The three arrays have room for the [n] cells. *)
Let roomy (J : SUNSparseMatrix) : Prop :=
  (n * NSPARSE <= length (sm_data J))%nat /\
  (n * NSPARSE <= length (sm_indexvals J))%nat /\
  (n * NSPECIES < length (sm_indexptrs J))%nat.

Lemma pass_lengths (a : nat) (J : SUNSparseMatrix) :
  length (sm_data (pass J a)) = length (sm_data J) /\
  length (sm_indexvals (pass J a)) = length (sm_indexvals J) /\
  length (sm_indexptrs (pass J a)) = length (sm_indexptrs J).
Proof.
  rewrite pass_data, pass_indexvals, pass_indexptrs.
  split; [apply length_jacobian_cell_entries|]. split.
  - apply jacobian_cell_pattern_columns.
  - apply jacobian_cell_pattern_rows.
Qed.

Lemma pass_roomy (a : nat) (J : SUNSparseMatrix) :
  roomy J -> roomy (pass J a).
Proof.
  intros (H1 & H2 & H3). destruct (pass_lengths a J) as (L1 & L2 & L3).
  unfold roomy. rewrite L1, L2, L3. repeat split; assumption.
Qed.

(** The block of cell [i] is as the pass of cell [i] leaves it. *)
Let settled (i : nat) (J : SUNSparseMatrix) : Prop :=
  (exists m,
     (i * NSPARSE + NSPARSE <= length m)%nat /\
     forall q, (q < NSPARSE)%nat ->
       rd (sm_data J) (SPARSEIDX i q) = rd (entries_of i m) (SPARSEIDX i q))
  /\
  (forall p, (p < NSPARSE)%nat ->
     rdZ (sm_indexvals J) (i * NSPARSE + p)
     = Z.of_nat (i * NSPECIES + nth p cols 0%nat)) /\
  (forall r, (r < NSPECIES)%nat ->
     rdZ (sm_indexptrs J) (i * NSPECIES + r)
     = Z.of_nat (i * NSPARSE + nth r offs 0%nat)).

Lemma pass_settles (i : nat) (J : SUNSparseMatrix) :
  (i < n)%nat -> roomy J -> settled i (pass J i).
Proof.
  intros Hi (H1 & H2 & H3). unfold NSPARSE, NSPECIES in *.
  split; [|split].
  - exists (sm_data J). split; [unfold NSPARSE; nia|].
    intros q Hq. now rewrite pass_data.
  - rewrite pass_indexvals.
    apply jacobian_cell_pattern_columns. unfold NSPARSE. nia.
  - rewrite pass_indexptrs.
    apply jacobian_cell_pattern_rows; [lia|exact H3].
Qed.

Lemma pass_keeps (a i : nat) (J : SUNSparseMatrix) :
  a <> i -> (i < n)%nat -> settled i J -> settled i (pass J a).
Proof.
  intros Hne Hi ((m & Hm & Hd) & Hv & Hp).
  assert (Hout : forall q, (q < 64)%nat ->
            (i * 64 + q < a * 64 \/ a * 64 + 64 <= i * 64 + q)%nat) by lia.
  split; [|split].
  - exists m. split; [exact Hm|]. intros q Hq.
    rewrite pass_data. unfold entries_of at 1.
    rewrite jacobian_cell_entries_frame;
      [now apply Hd|unfold SPARSEIDX, NSPARSE in *; now apply Hout].
  - intros p Hp'. rewrite pass_indexvals.
    destruct (jacobian_cell_pattern_columns nstrip a (sm_indexvals J)
                (sm_indexptrs J)) as (_ & Hframe & _).
    rewrite Hframe; [now apply Hv|unfold NSPARSE in *; now apply Hout].
  - intros r Hr. rewrite pass_indexptrs.
    destruct (jacobian_cell_pattern_rows nstrip a (sm_indexvals J)
                (sm_indexptrs J)) as (_ & Hframe & _).
    rewrite Hframe; [now apply Hp| |]; unfold NSPECIES in *; lia.
Qed.

Let passes (l : list nat) (J : SUNSparseMatrix) : SUNSparseMatrix :=
  foldl pass J l.

Lemma passes_roomy (l : list nat) (J : SUNSparseMatrix) :
  roomy J -> roomy (passes l J).
Proof.
  revert J. induction l as [|a l IH]; intros J HJ; [exact HJ|].
  apply (IH (pass J a)). now apply pass_roomy.
Qed.

Lemma passes_settled (l : list nat) (i : nat) (J : SUNSparseMatrix) :
  (i < n)%nat -> roomy J -> i ∈ l \/ settled i J ->
  settled i (passes l J).
Proof.
  intros Hi. revert J. induction l as [|a l IH]; intros J HJ Hcase.
  - destruct Hcase as [Hin|Hs]; [now apply elem_of_nil in Hin|exact Hs].
  - apply (IH (pass J a)); [now apply pass_roomy|].
    destruct (Nat.eq_dec a i) as [->|Hne].
    + right. now apply pass_settles.
    + destruct Hcase as [Hin|Hs].
      * apply elem_of_cons in Hin as [->|Hin]; [contradiction|now left].
      * right. now apply pass_keeps.
Qed.

(** The pointer past the last row. *)
Let closed (J : SUNSparseMatrix) : Prop :=
  rdZ (sm_indexptrs J) (n * NSPECIES) = Z.of_nat (n * NSPARSE).

Lemma pass_closes (a : nat) (J : SUNSparseMatrix) :
  (a < n)%nat -> roomy J ->
  Z.of_nat a = (nstrip - 1)%Z \/ closed J -> closed (pass J a).
Proof.
  intros Ha (H1 & H2 & H3) Hcase. unfold closed, n in *.
  rewrite pass_indexptrs.
  destruct (jacobian_cell_pattern_rows nstrip a (sm_indexvals J)
              (sm_indexptrs J)) as (_ & _ & Hrows).
  destruct Hrows as (_ & Hlast & Hkeep); [lia|exact H3|].
  destruct (Z.eq_dec (Z.of_nat a) (nstrip - 1)%Z) as [Heq|Hne].
  - now apply Hlast.
  - rewrite Hkeep by exact Hne. destruct Hcase; [contradiction|assumption].
Qed.

Lemma passes_closed (l : list nat) (J : SUNSparseMatrix) :
  (forall a, a ∈ l -> (a < n)%nat) -> roomy J ->
  (exists a, a ∈ l /\ Z.of_nat a = (nstrip - 1)%Z) \/ closed J ->
  closed (passes l J).
Proof.
  revert J. induction l as [|a l IH]; intros J Hl HJ Hcase.
  - destruct Hcase as [(a & Hin & _)|Hc]; [now apply elem_of_nil in Hin|].
    exact Hc.
  - apply (IH (pass J a)).
    + intros b Hb. apply Hl. now apply list_elem_of_further.
    + now apply pass_roomy.
    + destruct (Z.eq_dec (Z.of_nat a) (nstrip - 1)%Z) as [Heq|Hne].
      * right. apply pass_closes; [apply Hl, list_elem_of_here|exact HJ|].
        now left.
      * destruct Hcase as [(b & Hin & Hb)|Hc].
        -- apply elem_of_cons in Hin as [->|Hin]; [contradiction|].
           left. eauto.
        -- right. apply pass_closes;
             [apply Hl, list_elem_of_here|exact HJ|now right].
Qed.

(** The state the function returns. *)
Lemma calculate_jacobian_cvklu_loop (t : R) (fy : list R)
    (J : SUNSparseMatrix) :
  calculate_jacobian_cvklu t ydata fy J nstrip data
  = (0%Z, passes (seq 0 n) (SUNMatZero J)).
Proof.
  unfold calculate_jacobian_cvklu, RAJA_forall, passes, pass, n. cbv zeta.
  now rewrite Z.sub_0_r.
Qed.

Lemma SUNMatZero_roomy (J : SUNSparseMatrix) :
  roomy J -> roomy (SUNMatZero J).
Proof.
  intros (H1 & H2 & H3). unfold roomy, SUNMatZero. cbn [sm_data sm_indexvals sm_indexptrs].
  now rewrite !length_replicate.
Qed.

Lemma result_settled (J : SUNSparseMatrix) (i : nat) :
  roomy J -> (i < n)%nat ->
  settled i (passes (seq 0 n) (SUNMatZero J)).
Proof.
  intros HJ Hi. apply passes_settled; [exact Hi|now apply SUNMatZero_roomy|].
  left. apply list_elem_of_In, List.in_seq. lia.
Qed.

Lemma result_closed (J : SUNSparseMatrix) :
  roomy J -> closed (passes (seq 0 n) (SUNMatZero J)).
Proof.
  intros HJ. apply passes_closed.
  - intros a Ha. apply list_elem_of_In, List.in_seq in Ha. lia.
  - now apply SUNMatZero_roomy.
  - destruct (Nat.eq_dec n 0%nat) as [Hn|Hn].
    + right. unfold closed, SUNMatZero. cbn [sm_indexptrs]. rewrite Hn.
      unfold rdZ. destruct HJ as (_ & _ & H3).
      rewrite lookup_replicate_2 by lia. reflexivity.
    + left. exists (n - 1)%nat. split.
      * apply list_elem_of_In, List.in_seq. lia.
      * unfold n in *. lia.
Qed.


(** The pointer of the row after row [r] of a cell. *)
Lemma next_pointer (A : SUNSparseMatrix) (i r : nat) :
  settled i A ->
  rdZ (sm_indexptrs A) (i * NSPECIES + NSPECIES)
  = Z.of_nat (i * NSPARSE + NSPARSE) ->
  (r < NSPECIES)%nat ->
  rdZ (sm_indexptrs A) (i * NSPECIES + r + 1)
  = Z.of_nat (i * NSPARSE + nth (Datatypes.S r) offs 0%nat).
Proof.
  intros (_ & _ & Hp) Hnext Hr. unfold NSPECIES in *.
  destruct (Nat.eq_dec r 9%nat) as [->|Hne].
  - replace (i * 10 + 9 + 1)%nat with (i * 10 + 10)%nat by lia.
    rewrite Hnext. reflexivity.
  - replace (i * 10 + r + 1)%nat with (i * 10 + Datatypes.S r)%nat by lia.
    apply Hp. lia.
Qed.



(** X7.  [calculate_jacobian_cvklu] returns [0] and leaves a
    well-formed CSR pattern: cell [i] owns the rows [10 i .. 10 i + 9]
    and the stored values [64 i .. 64 i + 63]; row pointers and column
    indices are those of the two tables; the last pointer is the number
    of stored values; every row is non-empty, sorted by column, and
    refers to the unknowns of its own cell only, so that the matrix is
    block diagonal. *)
Theorem calculate_jacobian_cvklu_pattern (t : R) (fy : list R)
    (J : SUNSparseMatrix) :
  (n * NSPARSE <= length (sm_data J))%nat ->
  (n * NSPARSE <= length (sm_indexvals J))%nat ->
  (n * NSPECIES < length (sm_indexptrs J))%nat ->
  let res := calculate_jacobian_cvklu t ydata fy J nstrip data in
  let vals := sm_indexvals (snd res) in
  let ptrs := sm_indexptrs (snd res) in
  fst res = 0%Z /\
  (forall i r, (i < n)%nat -> (r < NSPECIES)%nat ->
     rdZ ptrs (i * NSPECIES + r)
     = Z.of_nat (i * NSPARSE + nth r offs 0%nat)) /\
  rdZ ptrs (n * NSPECIES) = Z.of_nat (n * NSPARSE) /\
  (forall i p, (i < n)%nat -> (p < NSPARSE)%nat ->
     rdZ vals (i * NSPARSE + p)
     = Z.of_nat (i * NSPECIES + nth p cols 0%nat)) /\
  (forall i r, (i < n)%nat -> (r < NSPECIES)%nat ->
     let lo := rdZ ptrs (i * NSPECIES + r) in
     let hi := rdZ ptrs (i * NSPECIES + r + 1) in
     (lo < hi)%Z /\
     forall p, (lo <= Z.of_nat p < hi)%Z ->
       (Z.of_nat (i * NSPECIES) <= rdZ vals p
        < Z.of_nat (i * NSPECIES + NSPECIES))%Z /\
       ((Z.of_nat (p + 1) < hi)%Z -> (rdZ vals p < rdZ vals (p + 1))%Z)).
Proof.
  intros H1 H2 H3 res vals ptrs.
  assert (HJ : roomy J) by (repeat split; assumption).
  unfold vals, ptrs, res. rewrite calculate_jacobian_cvklu_loop.
  cbn [fst snd].
  pose proof (result_closed J HJ) as Hclosed.
  set (A := passes (seq 0 n) (SUNMatZero J)) in *.
  assert (Hset : forall i, (i < n)%nat -> settled i A)
    by (intros i Hi; now apply result_settled).
  assert (Hnext : forall i, (i < n)%nat ->
            rdZ (sm_indexptrs A) (i * NSPECIES + NSPECIES)
            = Z.of_nat (i * NSPARSE + NSPARSE)).
  { intros i Hi. destruct (Nat.eq_dec (i + 1)%nat n) as [Heq|Hne].
    - replace (i * NSPECIES + NSPECIES)%nat with (n * NSPECIES)%nat
        by (unfold NSPECIES; lia).
      replace (i * NSPARSE + NSPARSE)%nat with (n * NSPARSE)%nat
        by (unfold NSPARSE; lia).
      exact Hclosed.
    - destruct (Hset (i + 1)%nat ltac:(lia)) as (_ & _ & Hp).
      specialize (Hp 0%nat ltac:(unfold NSPECIES; lia)).
      replace (i * NSPECIES + NSPECIES)%nat
        with ((i + 1) * NSPECIES + 0)%nat by (unfold NSPECIES; lia).
      rewrite Hp. f_equal. unfold NSPARSE. cbn [nth offs]. lia. }
  split; [reflexivity|]. split; [|split; [|split]].
  - intros i r Hi Hr. now apply (Hset i Hi).
  - exact Hclosed.
  - intros i p Hi Hp. now apply (Hset i Hi).
  - intros i r Hi Hr. cbv zeta.
    pose proof (next_pointer A i r (Hset i Hi) (Hnext i Hi) Hr) as Hhi.
    destruct (Hset i Hi) as (_ & Hv & Hp).
    rewrite Hhi, (Hp r Hr).
    destruct (offs_increasing r Hr) as [Hlt Hle].
    split; [lia|]. intros p Hp'.
    assert (Hq : exists q, p = (i * NSPARSE + q)%nat /\
                   (nth r offs 0 <= q < nth (Datatypes.S r) offs 0)%nat).
    { exists (p - i * NSPARSE)%nat. lia. }
    destruct Hq as (q & -> & Hq).
    rewrite Hv by (unfold NSPARSE; lia).
    pose proof (cols_in_block q ltac:(lia)) as Hc.
    split; [unfold NSPECIES; lia|]. intros Hnext'.
    replace (i * NSPARSE + q + 1)%nat with (i * NSPARSE + (q + 1))%nat
      by lia.
    rewrite Hv by (unfold NSPARSE; lia).
    pose proof (cols_sorted r q Hr ltac:(lia) ltac:(lia)). lia.
Qed.

End Loop.


End Jacobian.

(** ** The other callbacks of the driver *)

Section Callbacks.
Import NVector Chem Driver Hydro Steps.

Lemma rd_past_end (a : list R) (p : nat) :
  (length a <= p)%nat -> rd a p = 0.
Proof. intros H. unfold rd. now rewrite lookup_ge_None_2. Qed.

(** The loop [for (i=0; i<nnz; i++) Jdata[i] *= c]. *)
Lemma scale_every_value (c : R) (a : list R) :
  let a' :=
    fst (for_loop 0 (Z.of_nat (length a))
           (fun i A => scale_at A (Z.to_nat i) c) a) in
  length a' = length a /\ forall p, rd a' p = rd a p * c.
Proof.
  cbv zeta.
  pose (Inv := fun (j : Z) (A : list R) =>
    length A = length a /\
    forall p, rd A p = if (Z.of_nat p <? j)%Z then rd a p * c else rd a p).
  assert (H : Inv (Z.max 0 (Z.of_nat (length a)))
                (fst (for_loop 0 (Z.of_nat (length a))
                        (fun i A => scale_at A (Z.to_nat i) c) a))).
  { apply (for_loop_invariant Inv).
    - split; [reflexivity|]. intros p.
      destruct (Z.ltb_spec (Z.of_nat p) 0); [lia|reflexivity].
    - intros j A Hj [HL HA]. split; [now rewrite length_scale_at|].
      intros p. destruct (Nat.eq_dec (Z.to_nat j) p) as [Heq|Hne].
      + rewrite rd_scale_at_eq by (try exact Heq; lia).
        rewrite Heq, HA.
        destruct (Z.ltb_spec (Z.of_nat p) j); [lia|].
        destruct (Z.ltb_spec (Z.of_nat p) (j + 1)); [reflexivity|lia].
      + rewrite rd_scale_at_ne by exact Hne. rewrite HA.
        destruct (Z.ltb_spec (Z.of_nat p) j);
          destruct (Z.ltb_spec (Z.of_nat p) (j + 1));
          try reflexivity; lia. }
  destruct H as [HL HA]. split; [exact HL|]. intros p. rewrite HA.
  destruct (Z.ltb_spec (Z.of_nat p) (Z.max 0 (Z.of_nat (length a))));
    [reflexivity|].
  rewrite rd_past_end by lia. ring.
Qed.

(** X9.  [Jimpl] hands back the Jacobian of the chemistry network with
    every stored value multiplied by [TimeUnits] and the sparsity
    pattern as [calculate_jacobian_cvklu] wrote it; the value returned
    is then [0], or [-1] when the timer cannot be stopped.  When the
    timer cannot be started, or one of the five vectors has no
    chemistry sub-vector, the value returned is [-1] and the matrix is
    not touched. *)
Theorem Jimpl_scales_by_time_unit (tm : TimerCalls) (t : R)
    (w fw : list (list R)) (Jac : SUNSparseMatrix) (udata : EulerData)
    (tmp1 tmp2 tmp3 : list (list R)) :
  let res := Jimpl tm t w fw Jac udata tmp1 tmp2 tmp3 in
  let ready :=
    (0 <=? timer_start tm)%Z
    && forallb (fun v => bool_decide (is_Some (v !! 5%nat)))
         [w; fw; tmp1; tmp2; tmp3] in
  let C :=
    snd (calculate_jacobian_cvklu t (default [] (w !! 5%nat))
           (default [] (fw !! 5%nat)) Jac
           (nxl udata * nyl udata * nzl udata) (RxNetData udata)) in
  (ready = false -> res = ((-1)%Z, Jac)) /\
  (ready = true ->
   fst res = (if (timer_stop tm <? 0)%Z then -1 else 0)%Z /\
   sm_indexvals (snd res) = sm_indexvals C /\
   sm_indexptrs (snd res) = sm_indexptrs C /\
   length (sm_data (snd res)) = length (sm_data C) /\
   forall p, rd (sm_data (snd res)) p = rd (sm_data C) p * TimeUnits udata).
Proof.
  cbv zeta. unfold Jimpl, N_VGetSubvector_MPIManyVector, check_flag.
  cbn [forallb Z.eqb Pos.eqb].
  destruct (Z.ltb_spec (timer_start tm) 0) as [Hneg|Hpos];
    destruct (Z.leb_spec 0 (timer_start tm)) as [Hle|Hgt]; try lia.
  1: { split; [reflexivity|discriminate]. }
  cbn [andb].
  destruct (bool_decide (is_Some (w !! 5%nat)));
    [|split; [reflexivity|discriminate]].
  destruct (bool_decide (is_Some (fw !! 5%nat)));
    [|split; [reflexivity|discriminate]].
  destruct (bool_decide (is_Some (tmp1 !! 5%nat)));
    [|split; [reflexivity|discriminate]].
  destruct (bool_decide (is_Some (tmp2 !! 5%nat)));
    [|split; [reflexivity|discriminate]].
  destruct (bool_decide (is_Some (tmp3 !! 5%nat)));
    [|split; [reflexivity|discriminate]].
  cbn [negb andb]. split; [discriminate|]. intros _.
  unfold calculate_jacobian_cvklu. cbn [fst snd].
  change (0 <? 0)%Z with false. cbv iota.
  set (C := RAJA_forall 0 _ _ _).
  destruct (scale_every_value (TimeUnits udata) (sm_data C)) as [HL HA].
  destruct (timer_stop tm <? 0)%Z; cbn [fst snd sm_data sm_indexvals
    sm_indexptrs]; repeat split; try exact HL; exact HA.
Qed.

End Callbacks.

Section ExplicitCallbacks.
Import NVector Chem Driver Hydro Steps.

(** A sweep over the tile in which each pass works on its own cell:
    what holds of a cell before its pass is kept by the passes of the
    other cells, and so is what its pass establishes. *)
Section SweepEach.

Variable udata : EulerData.
Variable S : Type.
Variable body : Z -> Z -> Z -> S -> S.
Variable ok : S -> Prop.
Variable pre post : S -> Z -> Z -> Z -> Prop.

Hypothesis each_ok :
  forall i j k s, in_tile udata i j k = true -> ok s -> ok (body i j k s).
Hypothesis each_sets :
  forall i j k s, in_tile udata i j k = true -> ok s -> pre s i j k ->
                  post (body i j k s) i j k.
Hypothesis each_keeps_pre :
  forall i j k s i' j' k',
    in_tile udata i j k = true -> in_tile udata i' j' k' = true ->
    (i, j, k) <> (i', j', k') -> ok s ->
    pre s i' j' k' -> pre (body i j k s) i' j' k'.
Hypothesis each_keeps_post :
  forall i j k s i' j' k',
    in_tile udata i j k = true -> in_tile udata i' j' k' = true ->
    (i, j, k) <> (i', j', k') -> ok s ->
    post s i' j' k' -> post (body i j k s) i' j' k'.

Let swept (K J I : Z) (i j k : Z) : Prop :=
  (k < K \/ (k = K /\ j < J) \/ (k = K /\ j = J /\ i < I))%Z.

Let Inv (K J I : Z) (s : S) : Prop :=
  ok s /\
  forall i j k, in_tile udata i j k = true ->
    (swept K J I i j k -> post s i j k) /\
    (~ swept K J I i j k -> pre s i j k).

Lemma Inv_weaken (K J I K' J' I' : Z) (s : S) :
  (forall i j k, in_tile udata i j k = true ->
     (swept K J I i j k <-> swept K' J' I' i j k)) ->
  Inv K J I s -> Inv K' J' I' s.
Proof.
  intros Heq [Hok H]. split; [exact Hok|]. intros i j k Ht.
  destruct (H i j k Ht) as [Hpost Hpre]. specialize (Heq i j k Ht).
  split; intros Hs; [apply Hpost|apply Hpre]; tauto.
Qed.

Lemma over_subdomain_each (s : S) :
  ok s ->
  (forall i j k, in_tile udata i j k = true -> pre s i j k) ->
  ok (over_subdomain udata body s) /\
  forall i j k, in_tile udata i j k = true ->
                post (over_subdomain udata body s) i j k.
Proof.
  intros Hok Hpre. unfold over_subdomain.
  assert (HK : Inv (Z.max 0 (nzl udata)) 0 0
                 (fst (for_loop 0 (nzl udata) (fun k s0 =>
                    fst (for_loop 0 (nyl udata) (fun j s1 =>
                      fst (for_loop 0 (nxl udata)
                             (fun i s2 => body i j k s2) s1)) s0)) s))).
  { apply (for_loop_invariant (fun K s' => Inv K 0 0 s')).
    - split; [exact Hok|]. intros i j k Ht. split; [|now intros _; apply Hpre].
      intros Hs. apply in_tile_spec in Ht. unfold swept in Hs. lia.
    - intros k s0 Hk H0.
      apply (Inv_weaken k (Z.max 0 (nyl udata)) 0).
      { intros i j k0 Ht. apply in_tile_spec in Ht. unfold swept. lia. }
      apply (for_loop_invariant (fun J s' => Inv k J 0 s')); [exact H0|].
      intros j s1 Hj H1.
      apply (Inv_weaken k j (Z.max 0 (nxl udata))).
      { intros i j0 k0 Ht. apply in_tile_spec in Ht. unfold swept. lia. }
      apply (for_loop_invariant (fun I s' => Inv k j I s')); [exact H1|].
      intros i s2 Hi [Hok2 H2].
      assert (Hin : in_tile udata i j k = true)
        by (apply in_tile_spec; lia).
      split; [now apply each_ok|].
      intros i0 j0 k0 Ht. destruct (H2 i0 j0 k0 Ht) as [Hpost2 Hpre2].
      destruct (Z.eq_dec k0 k) as [Ek|Ek];
        [destruct (Z.eq_dec j0 j) as [Ej|Ej];
         [destruct (Z.eq_dec i0 i) as [Ei|Ei]|]|].
      + subst. split; [|unfold swept; intros Hn; lia].
        intros _. apply each_sets; [exact Hin|exact Hok2|].
        apply (H2 i j k Hin). unfold swept. lia.
      + split; intros Hs.
        * apply each_keeps_post; [exact Hin|exact Ht|congruence|exact Hok2|].
          apply Hpost2. unfold swept in *. lia.
        * apply each_keeps_pre; [exact Hin|exact Ht|congruence|exact Hok2|].
          apply Hpre2. unfold swept in *. lia.
      + split; intros Hs.
        * apply each_keeps_post; [exact Hin|exact Ht|congruence|exact Hok2|].
          apply Hpost2. unfold swept in *. lia.
        * apply each_keeps_pre; [exact Hin|exact Ht|congruence|exact Hok2|].
          apply Hpre2. unfold swept in *. lia.
      + split; intros Hs.
        * apply each_keeps_post; [exact Hin|exact Ht|congruence|exact Hok2|].
          apply Hpost2. unfold swept in *. lia.
        * apply each_keeps_pre; [exact Hin|exact Ht|congruence|exact Hok2|].
          apply Hpre2. unfold swept in *. lia. }
  destruct HK as [HokK H]. split; [exact HokK|].
  intros i j k Ht. apply (H i j k Ht).
  apply in_tile_spec in Ht. unfold swept. lia.
Qed.

End SweepEach.

(** Loops whose bodies agree give the same result. *)
Lemma for_steps_ext {S : Type} (f g : Z -> S -> S) (n : nat) (j : Z)
    (s : S) :
  (forall j' s', f j' s' = g j' s') ->
  for_steps n j f s = for_steps n j g s.
Proof.
  intros H. revert j s. induction n as [|n IH]; intros j s;
    [reflexivity|].
  change (for_steps (Datatypes.S n) j f s)
    with (let (s', runs) := for_steps n (j + 1)%Z f (f j s) in
          (s', Datatypes.S runs)).
  change (for_steps (Datatypes.S n) j g s)
    with (let (s', runs) := for_steps n (j + 1)%Z g (g j s) in
          (s', Datatypes.S runs)).
  now rewrite H, IH.
Qed.

Lemma over_subdomain_ext {S : Type} (udata : EulerData)
    (f g : Z -> Z -> Z -> S -> S) (s : S) :
  (forall i j k s', f i j k s' = g i j k s') ->
  over_subdomain udata f s = over_subdomain udata g s.
Proof.
  intros H. unfold over_subdomain, for_loop. f_equal.
  apply for_steps_ext. intros k s0. f_equal.
  apply for_steps_ext. intros j s1. f_equal.
  apply for_steps_ext. intros i s2. apply H.
Qed.

Section Cells.

Variable IDX : Z -> Z -> Z -> Z -> Z -> Z -> nat.
Variable BUFIDX : Z -> Z -> Z -> Z -> Z -> Z -> Z -> Z -> nat.
Variable EnergyUnits : EulerData -> R.
Variable udata : EulerData.

Local Abbreviation fidx i j k :=
  (IDX i j k (nxl udata) (nyl udata) (nzl udata)).
Local Abbreviation cidx i j k :=
  (BUFIDX (nchem udata - 1) i j k (nchem udata) (nxl udata) (nyl udata)
     (nzl udata)).

(** The two loops that fill the total energy are the same loop. *)
Lemma fexpl_fill_energy_postprocess (w : list (list R)) :
  fexpl_fill_energy IDX BUFIDX EnergyUnits w udata
  = postprocess_energy IDX BUFIDX EnergyUnits w udata.
Proof.
  unfold fexpl_fill_energy, postprocess_energy. cbv zeta. f_equal.
  apply over_subdomain_ext. intros i j k et.
  unfold fexpl_energy_cell, postprocess_cell. cbv zeta. f_equal. ring.
Qed.

Hypothesis fidx_one_to_one :
  forall i j k i' j' k',
    in_tile udata i j k = true -> in_tile udata i' j' k' = true ->
    fidx i j k = fidx i' j' k' -> (i, j, k) = (i', j', k').

(** X10.  The loop of [PostprocessStep] sets the total energy of every
    cell of the tile to its internal energy, the last chemistry unknown
    divided by [EnergyUnits], plus its kinetic energy
    [(mx^2 + my^2 + mz^2) / (2 rho)]; it writes nothing else; and the
    loop by which [fexpl] fills the energy before it calls [fEuler]
    computes the same state. *)
Theorem postprocess_energy_is_internal_plus_kinetic
    (w : list (list R)) (et : list R) :
  w !! 4%nat = Some et ->
  (forall i j k, in_tile udata i j k = true ->
                 (fidx i j k < length et)%nat) ->
  let w' := postprocess_energy IDX BUFIDX EnergyUnits w udata in
  fexpl_fill_energy IDX BUFIDX EnergyUnits w udata = w' /\
  (forall f, f <> 4%nat -> w' !! f = w !! f) /\
  exists et',
    w' !! 4%nat = Some et' /\ length et' = length et /\
    (forall i j k, in_tile udata i j k = true ->
       rd et' (fidx i j k)
       = rd (array_of w 5) (cidx i j k) * (1.0 / EnergyUnits udata)
         + 0.5 / rd (array_of w 0) (fidx i j k)
           * (rd (array_of w 1) (fidx i j k) ^ 2
              + rd (array_of w 2) (fidx i j k) ^ 2
              + rd (array_of w 3) (fidx i j k) ^ 2)) /\
    (forall n, (forall i j k, in_tile udata i j k = true ->
                              fidx i j k <> n) ->
               rd et' n = rd et n).
Proof.
  intros Het Hroom w'.
  split; [apply fexpl_fill_energy_postprocess|].
  unfold w', postprocess_energy. cbv zeta.
  assert (Harr : array_of w 4 = et)
    by (unfold array_of, N_VGetSubvector_MPIManyVector; now rewrite Het).
  rewrite Harr.
  set (body := postprocess_cell IDX BUFIDX udata (ONE / EnergyUnits udata)
                 (array_of w 0) (array_of w 1) (array_of w 2)
                 (array_of w 3) (array_of w 5)).
  split.
  { intros f Hf. now rewrite list_lookup_insert_ne. }
  exists (over_subdomain udata body et).
  pose (ok := fun s : list R =>
    length s = length et /\
    forall n, (forall i j k, in_tile udata i j k = true ->
                             fidx i j k <> n) -> rd s n = rd et n).
  pose (post := fun (s : list R) (i j k : Z) =>
    rd s (fidx i j k)
    = rd (array_of w 5) (cidx i j k) * (ONE / EnergyUnits udata)
      + 0.5 / rd (array_of w 0) (fidx i j k)
        * (rd (array_of w 1) (fidx i j k) ^ 2
           + rd (array_of w 2) (fidx i j k) ^ 2
           + rd (array_of w 3) (fidx i j k) ^ 2)).
  destruct (over_subdomain_each udata (list R) body ok
              (fun _ _ _ _ => True) post) with (s := et)
    as [[HL Hrest] Hpost].
  - intros i j k s Ht [HL Hrest]. unfold body, postprocess_cell.
    cbv zeta. split; [now rewrite length_store|].
    intros n Hn. rewrite rd_store_ne by (apply Hn, Ht). now apply Hrest.
  - intros i j k s Ht [HL _] _. unfold post, body, postprocess_cell.
    cbv zeta. apply rd_store_eq; [reflexivity|].
    rewrite HL. now apply Hroom.
  - trivial.
  - intros i j k s i' j' k' Ht Ht' Hne [HL _] Hp.
    unfold post, body, postprocess_cell in *. cbv zeta.
    rewrite rd_store_ne; [exact Hp|].
    intros Heq. apply Hne. now apply fidx_one_to_one.
  - split; [reflexivity|]. intros n _. reflexivity.
  - trivial.
  - split.
    { apply list_lookup_insert_eq. now apply lookup_lt_Some in Het. }
    split; [exact HL|]. split; [|exact Hrest].
    intros i j k Ht. exact (Hpost i j k Ht).
Qed.

Hypothesis cidx_one_to_one :
  forall i j k i' j' k',
    in_tile udata i j k = true -> in_tile udata i' j' k' = true ->
    cidx i j k = cidx i' j' k' -> (i, j, k) = (i', j', k').

(** X11.  The closing loop of [fexpl] moves the rate of the total
    energy: in every cell of the tile the rate of the last chemistry
    unknown becomes what [fEuler] left as the rate of the total energy,
    unchanged by the unit factor, and the rate of the total energy
    becomes zero; the other four fluid rates are not touched. *)
Theorem fexpl_moves_energy_rate
    (wdot : list (list R)) (etdot chemdot : list R) :
  wdot !! 4%nat = Some etdot ->
  wdot !! 5%nat = Some chemdot ->
  (forall i j k, in_tile udata i j k = true ->
     (fidx i j k < length etdot)%nat /\
     (cidx i j k < length chemdot)%nat) ->
  let wdot' := fexpl_move_rate IDX BUFIDX wdot udata in
  (forall f, (f < 4)%nat -> wdot' !! f = wdot !! f) /\
  exists etdot' chemdot',
    wdot' !! 4%nat = Some etdot' /\ wdot' !! 5%nat = Some chemdot' /\
    length etdot' = length etdot /\ length chemdot' = length chemdot /\
    forall i j k, in_tile udata i j k = true ->
      rd etdot' (fidx i j k) = 0 /\
      rd chemdot' (cidx i j k) = rd etdot (fidx i j k).
Proof.
  intros Het Hchem Hroom wdot'.
  unfold wdot', fexpl_move_rate. cbv zeta.
  assert (H4 : array_of wdot 4 = etdot)
    by (unfold array_of, N_VGetSubvector_MPIManyVector; now rewrite Het).
  assert (H5 : array_of wdot 5 = chemdot)
    by (unfold array_of, N_VGetSubvector_MPIManyVector; now rewrite Hchem).
  rewrite H4, H5.
  set (body := fexpl_rate_cell IDX BUFIDX udata ONE).
  split.
  { intros f Hf. rewrite !list_lookup_insert_ne by lia. reflexivity. }
  pose (ok := fun s : list R * list R =>
    length (fst s) = length etdot /\ length (snd s) = length chemdot).
  pose (pre := fun (s : list R * list R) (i j k : Z) =>
    rd (fst s) (fidx i j k) = rd etdot (fidx i j k)).
  pose (post := fun (s : list R * list R) (i j k : Z) =>
    rd (fst s) (fidx i j k) = 0 /\
    rd (snd s) (cidx i j k) = rd etdot (fidx i j k)).
  destruct (over_subdomain_each udata (list R * list R) body ok pre post)
    with (s := (etdot, chemdot)) as [[HL4 HL5] Hpost].
  - intros i j k s Ht [HL4 HL5]. unfold ok, body, fexpl_rate_cell.
    cbv zeta. cbn [fst snd]. now rewrite !length_store.
  - intros i j k s Ht [HL4 HL5] Hpre. unfold post, body, fexpl_rate_cell.
    cbv zeta. cbn [fst snd]. destruct (Hroom i j k Ht) as [Hf Hc].
    split.
    + rewrite rd_store_eq by (try reflexivity; now rewrite HL4).
      unfold ZERO. lra.
    + rewrite rd_store_eq by (try reflexivity; now rewrite HL5).
      unfold pre in Hpre. rewrite Hpre.
      unfold ONE. lra.
  - intros i j k s i' j' k' Ht Ht' Hne _ Hpre.
    unfold pre, body, fexpl_rate_cell in *. cbv zeta. cbn [fst snd].
    rewrite rd_store_ne; [exact Hpre|].
    intros Heq. apply Hne. now apply fidx_one_to_one.
  - intros i j k s i' j' k' Ht Ht' Hne _ [Hp4 Hp5].
    unfold post, body, fexpl_rate_cell in *. cbv zeta. cbn [fst snd].
    split.
    + rewrite rd_store_ne; [exact Hp4|].
      intros Heq. apply Hne. now apply fidx_one_to_one.
    + rewrite rd_store_ne; [exact Hp5|].
      intros Heq. apply Hne. now apply cidx_one_to_one.
  - split; reflexivity.
  - intros i j k _. reflexivity.
  - set (st := over_subdomain udata body (etdot, chemdot)) in *.
    exists (fst st), (snd st).
    assert (L4 : (4 < length wdot)%nat) by now apply lookup_lt_Some in Het.
    assert (L5 : (5 < length wdot)%nat)
      by now apply lookup_lt_Some in Hchem.
    split.
    { rewrite list_lookup_insert_ne by lia.
      now apply list_lookup_insert_eq. }
    split.
    { apply list_lookup_insert_eq. now rewrite length_insert. }
    split; [exact HL4|]. split; [exact HL5|]. exact Hpost.
Qed.

End Cells.

Section Statuses.

Variable IDX : Z -> Z -> Z -> Z -> Z -> Z -> nat.
Variable BUFIDX : Z -> Z -> Z -> Z -> Z -> Z -> Z -> Z -> nat.
Variable EnergyUnits : EulerData -> R.
Variable apply_scaling : list (list R) -> EulerData -> Z * list (list R).
Variable unapply_scaling : list (list R) -> EulerData -> Z * list (list R).
Variable fEuler :
  R -> list (list R) -> list (list R) -> EulerData
  -> Z * list (list R) * list (list R).

(** X12.  What [fexpl] does when it fails.  With the timer failing to
    start nothing is touched.  The output is set to zero before the
    sub-vectors are fetched: with one of them missing the call returns
    [-1] and leaves a zero output, the state as it was.  A negative
    value of [fEuler] is handed on as it is, and the output is then as
    [fEuler] left it, the rate of the energy not moved.  The value
    returned is never positive. *)
Theorem fexpl_failures (tm : TimerCalls) (t : R)
    (w wdot : list (list R)) (udata : EulerData) :
  let res :=
    fexpl IDX BUFIDX EnergyUnits apply_scaling unapply_scaling fEuler
      tm t w wdot udata in
  let zeroed := N_VConst_MPIManyVector ZERO wdot in
  let scaled := apply_scaling w udata in
  let flux :=
    fEuler t (fexpl_fill_energy IDX BUFIDX EnergyUnits (snd scaled) udata)
      zeroed udata in
  ((timer_start tm < 0)%Z -> res = ((-1)%Z, w, wdot)) /\
  ((0 <= timer_start tm)%Z ->
   (length w < 6)%nat \/ (length wdot < 6)%nat ->
   res = ((-1)%Z, w, zeroed)) /\
  ((0 <= timer_start tm)%Z ->
   (6 <= length w)%nat -> (6 <= length wdot)%nat ->
   (0 <= fst scaled)%Z -> (fst (fst flux) < 0)%Z ->
   res = flux) /\
  (fst (fst res) <= 0)%Z.
Proof.
  cbv zeta. unfold fexpl, N_VGetSubvector_MPIManyVector, check_flag.
  cbn [Z.eqb Pos.eqb].
  assert (HL : length (N_VConst_MPIManyVector ZERO wdot) = length wdot)
    by apply length_map.
  destruct (Z.ltb_spec (timer_start tm) 0) as [Hneg|Hpos].
  { repeat split; try (intros; lia); cbn; lia. }
  split; [intros; lia|].
  destruct (w !! 0%nat) as [w0|] eqn:E0;
    [|apply lookup_ge_None in E0;
      repeat split; try (intros; lia); cbn; lia].
  destruct (w !! 1%nat) as [w1|] eqn:E1;
    [|apply lookup_ge_None in E1;
      repeat split; try (intros; lia); cbn; lia].
  destruct (w !! 2%nat) as [w2|] eqn:E2;
    [|apply lookup_ge_None in E2;
      repeat split; try (intros; lia); cbn; lia].
  destruct (w !! 3%nat) as [w3|] eqn:E3;
    [|apply lookup_ge_None in E3;
      repeat split; try (intros; lia); cbn; lia].
  destruct (w !! 4%nat) as [w4|] eqn:E4;
    [|apply lookup_ge_None in E4;
      repeat split; try (intros; lia); cbn; lia].
  destruct (w !! 5%nat) as [w5|] eqn:E5;
    [|apply lookup_ge_None in E5;
      repeat split; try (intros; lia); cbn; lia].
  apply lookup_lt_Some in E5.
  destruct (N_VConst_MPIManyVector ZERO wdot !! 4%nat) as [d4|] eqn:D4;
    [|apply lookup_ge_None in D4;
      repeat split; try (intros; lia); cbn; lia].
  destruct (N_VConst_MPIManyVector ZERO wdot !! 5%nat) as [d5|] eqn:D5;
    [|apply lookup_ge_None in D5;
      repeat split; try (intros; lia); cbn; lia].
  apply lookup_lt_Some in D5.
  split; [intros; lia|].
  destruct (Z.ltb_spec (fst (apply_scaling w udata)) 0) as [Hs|Hs].
  { split; [intros; lia|cbn; lia]. }
  set (flux := fEuler t _ _ udata).
  destruct (Z.ltb_spec (fst (fst flux)) 0) as [Hf|Hf].
  { split; [|cbn [fst]; lia]. intros _ _ _ _ _.
    now destruct flux as [[r a] b]. }
  split; [intros; lia|].
  destruct (fst (unapply_scaling _ udata) <? 0)%Z; [cbn; lia|].
  destruct (timer_stop tm <? 0)%Z; cbn; lia.
Qed.

(** X13.  [PostprocessStep] returns [0] or [-1].  It leaves the state
    untouched when the timer does not start or a sub-vector is
    missing; and when it returns [0] the state went through the three
    steps in turn: the scaling of the chemistry block, the energy
    loop, the removal of the scaling. *)
Theorem PostprocessStep_outcomes (tm : TimerCalls) (t : R)
    (w : list (list R)) (udata : EulerData) :
  let res :=
    PostprocessStep IDX BUFIDX EnergyUnits apply_scaling unapply_scaling
      tm t w udata in
  let scaled := apply_scaling w udata in
  let unscaled :=
    unapply_scaling
      (postprocess_energy IDX BUFIDX EnergyUnits (snd scaled) udata)
      udata in
  (fst res = 0%Z \/ fst res = (-1)%Z) /\
  ((timer_start tm < 0)%Z \/ (length w < 6)%nat -> res = ((-1)%Z, w)) /\
  (fst res = 0%Z <->
   (0 <= timer_start tm)%Z /\ (6 <= length w)%nat /\
   (0 <= fst scaled)%Z /\ (0 <= fst unscaled)%Z /\
   (0 <= timer_stop tm)%Z) /\
  (fst res = 0%Z -> snd res = snd unscaled).
Proof.
  cbv zeta.
  unfold PostprocessStep, N_VGetSubvector_MPIManyVector, check_flag.
  cbn [Z.eqb Pos.eqb].
  destruct (Z.ltb_spec (timer_start tm) 0) as [Hneg|Hpos].
  { cbn [fst snd]. repeat split; try (intros; lia); auto;
      try (intros H; lia). }
  destruct (w !! 0%nat) as [w0|] eqn:E0;
    [|apply lookup_ge_None in E0; cbn [fst snd];
      repeat split; try (intros; lia); auto; try (intros H; lia)].
  destruct (w !! 1%nat) as [w1|] eqn:E1;
    [|apply lookup_ge_None in E1; cbn [fst snd];
      repeat split; try (intros; lia); auto; try (intros H; lia)].
  destruct (w !! 2%nat) as [w2|] eqn:E2;
    [|apply lookup_ge_None in E2; cbn [fst snd];
      repeat split; try (intros; lia); auto; try (intros H; lia)].
  destruct (w !! 3%nat) as [w3|] eqn:E3;
    [|apply lookup_ge_None in E3; cbn [fst snd];
      repeat split; try (intros; lia); auto; try (intros H; lia)].
  destruct (w !! 4%nat) as [w4|] eqn:E4;
    [|apply lookup_ge_None in E4; cbn [fst snd];
      repeat split; try (intros; lia); auto; try (intros H; lia)].
  destruct (w !! 5%nat) as [w5|] eqn:E5;
    [|apply lookup_ge_None in E5; cbn [fst snd];
      repeat split; try (intros; lia); auto; try (intros H; lia)].
  apply lookup_lt_Some in E5.
  destruct (Z.ltb_spec (fst (apply_scaling w udata)) 0) as [Hs|Hs].
  { cbn [fst snd]. repeat split; try (intros; lia); auto;
      try (intros H; lia). }
  destruct (Z.ltb_spec (fst (unapply_scaling
              (postprocess_energy IDX BUFIDX EnergyUnits
                 (snd (apply_scaling w udata)) udata) udata)) 0)
    as [Hu|Hu].
  { cbn [fst snd]. repeat split; try (intros; lia); auto;
      try (intros H; lia). }
  destruct (Z.ltb_spec (timer_stop tm) 0) as [Ht|Ht]; cbn [fst snd];
    repeat split; try (intros; lia); auto; try (intros H; lia).
Qed.

End Statuses.


(** ** The tracers of the smoke test *)

Section Tracers.
Import NVector Chem Driver Hydro.

Variable INDX : Z -> Z -> Z -> Z -> Z -> Z -> nat.
Variable BUFINDX : Z -> Z -> Z -> Z -> Z -> Z -> Z -> Z -> nat.
Variable udata : EulerData.

Local Abbreviation bidx v i j k :=
  (BUFINDX v i j k (nchem udata) (nxl udata) (nyl udata) (nzl udata)).
Local Abbreviation tracer v := (ONE * IZR (v + 1) / IZR (nchem udata)).

Hypothesis bidx_one_to_one :
  forall v i j k v' i' j' k',
    (0 <= v < nchem udata)%Z -> (0 <= v' < nchem udata)%Z ->
    in_tile udata i j k = true -> in_tile udata i' j' k' = true ->
    bidx v i j k = bidx v' i' j' k' -> (v, i, j, k) = (v', i', j', k').

(** The loop over the tracers of one cell. *)
Lemma tracers_of_cell (i j k : Z) (chem : list R) :
  in_tile udata i j k = true ->
  (forall v, (0 <= v < nchem udata)%Z -> (bidx v i j k < length chem)%nat) ->
  let chem' :=
    fst (for_loop 0 (nchem udata)
           (fun v ch => store ch (bidx v i j k) (tracer v)) chem) in
  length chem' = length chem /\
  (forall v, (0 <= v < nchem udata)%Z ->
             rd chem' (bidx v i j k) = tracer v) /\
  (forall n, (forall v, (0 <= v < nchem udata)%Z -> bidx v i j k <> n) ->
             rd chem' n = rd chem n).
Proof.
  intros Ht Hroom. cbv zeta.
  pose (Inv := fun (V : Z) (ch : list R) =>
    length ch = length chem /\
    (forall v, (0 <= v < V)%Z -> rd ch (bidx v i j k) = tracer v) /\
    (forall n, (forall v, (0 <= v < nchem udata)%Z -> bidx v i j k <> n) ->
               rd ch n = rd chem n)).
  assert (H : Inv (Z.max 0 (nchem udata))
                (fst (for_loop 0 (nchem udata)
                        (fun v ch => store ch (bidx v i j k) (tracer v))
                        chem))).
  { apply (for_loop_invariant Inv).
    - split; [reflexivity|]. split; [intros v Hv; lia|reflexivity].
    - intros V ch HV (HL & Hdone & Hrest).
      split; [now rewrite length_store|]. split.
      + intros v Hv. destruct (Z.eq_dec v V) as [->|Hne].
        * apply rd_store_eq; [reflexivity|]. rewrite HL. now apply Hroom.
        * rewrite rd_store_ne; [apply Hdone; lia|].
          intros Heq.
          apply bidx_one_to_one in Heq; [congruence|lia|lia|exact Ht|exact Ht].
      + intros n Hn. rewrite rd_store_ne by now apply Hn.
        now apply Hrest. }
  destruct H as (HL & Hdone & Hrest). split; [exact HL|].
  split; [|exact Hrest]. intros v Hv. apply Hdone. lia.
Qed.

(** X17.  With tracers compiled in, [initial_conditions] of the smoke
    test returns [0] and gives tracer [v] of every cell of the tile the
    value [(v + 1) / nchem]: the tracers of a cell increase with [v]
    from [1 / nchem] to [1], the same in every cell. *)
Theorem initial_conditions_tracers
    (t : R) (w : list (list R)) (chem : list R) :
  (0 < nchem udata)%Z ->
  (5 < length w)%nat ->
  w !! 5%nat = Some chem ->
  (forall v i j k, (0 <= v < nchem udata)%Z ->
     in_tile udata i j k = true -> (bidx v i j k < length chem)%nat) ->
  let res := initial_conditions INDX BUFINDX t w udata in
  fst res = 0%Z /\
  exists chem',
    snd res !! 5%nat = Some chem' /\ length chem' = length chem /\
    forall v i j k, (0 <= v < nchem udata)%Z ->
      in_tile udata i j k = true ->
      rd chem' (bidx v i j k) = IZR (v + 1) / IZR (nchem udata) /\
      0 < rd chem' (bidx v i j k) <= 1.
Proof.
  intros Hn Hw Hchem Hroom res. unfold res, initial_conditions.
  unfold N_VGetSubvector_MPIManyVector.
  destruct (lookup_lt_is_Some_2 w 0 ltac:(lia)) as [w0 E0].
  destruct (lookup_lt_is_Some_2 w 1 ltac:(lia)) as [w1 E1].
  destruct (lookup_lt_is_Some_2 w 2 ltac:(lia)) as [w2 E2].
  destruct (lookup_lt_is_Some_2 w 3 ltac:(lia)) as [w3 E3].
  destruct (lookup_lt_is_Some_2 w 4 ltac:(lia)) as [w4 E4].
  rewrite E0, E1, E2, E3, E4.
  assert (Hgt : (nchem udata >? 0)%Z = true) by lia.
  rewrite Hgt, Hchem. cbv zeta.
  rewrite bool_decide_eq_true_2 by eauto.
  unfold check_flag. cbn [Z.eqb negb andb default fst snd].
  split; [reflexivity|].
  set (a0 := mk_arrays w0 w1 w2 w3 w4 chem).
  set (body := initial_conditions_cell INDX BUFINDX udata).
  pose (ok := fun a : arrays => length (a_chem a) = length chem).
  pose (post := fun (a : arrays) (i j k : Z) =>
    forall v, (0 <= v < nchem udata)%Z ->
              rd (a_chem a) (bidx v i j k) = tracer v).
  assert (Hcell : forall i j k a,
    a_chem (body i j k a)
    = fst (for_loop 0 (nchem udata)
             (fun v ch => store ch (bidx v i j k) (tracer v)) (a_chem a))).
  { intros i j k a. unfold body, initial_conditions_cell. cbv zeta.
    rewrite Hgt. reflexivity. }
  destruct (over_subdomain_each udata arrays body ok
              (fun _ _ _ _ => True) post) with (s := a0)
    as [HL Hpost].
  - intros i j k a Ht Ha. unfold ok in *. rewrite Hcell.
    destruct (tracers_of_cell i j k (a_chem a) Ht) as (HL & _).
    + intros v Hv. rewrite Ha. now apply Hroom.
    + now rewrite HL.
  - intros i j k a Ht Ha _. unfold post, ok in *. rewrite Hcell.
    destruct (tracers_of_cell i j k (a_chem a) Ht) as (_ & Hset & _).
    + intros v Hv. rewrite Ha. now apply Hroom.
    + exact Hset.
  - trivial.
  - intros i j k a i' j' k' Ht Ht' Hne Ha Hp. unfold post, ok in *.
    intros v Hv. rewrite Hcell.
    destruct (tracers_of_cell i j k (a_chem a) Ht) as (_ & _ & Hrest).
    + intros v0 Hv0. rewrite Ha. now apply Hroom.
    + rewrite Hrest; [now apply Hp|].
      intros v0 Hv0 Heq.
      apply bidx_one_to_one in Heq; [congruence|lia|lia|exact Ht|exact Ht'].
  - reflexivity.
  - trivial.
  - exists (a_chem (over_subdomain udata body a0)).
    split.
    { apply list_lookup_insert_eq. now rewrite !length_insert. }
    split; [exact HL|].
    intros v i j k Hv Ht. rewrite (Hpost i j k Ht v Hv).
    rewrite ONE_is_1.
    assert (H0 : 0 < IZR (nchem udata)) by (apply IZR_lt; lia).
    assert (H1 : 0 < IZR (v + 1)) by (apply IZR_lt; lia).
    assert (H2 : IZR (v + 1) <= IZR (nchem udata)) by (apply IZR_le; lia).
    split; [field; lra|]. split.
    + apply Rdiv_lt_0_compat; lra.
    + apply Rmult_le_reg_r with (IZR (nchem udata)); [exact H0|].
      replace (1 * IZR (v + 1) / IZR (nchem udata) * IZR (nchem udata))
        with (IZR (v + 1)) by (field; lra).
      lra.
Qed.

End Tracers.

End ExplicitCallbacks.

Section DriverMore.
Import NVector Chem Driver BDMPIMV Hydro.

(** X14.  When [fimpl] returns [0], the chemistry sub-vector of the
    output is the right-hand side of the network multiplied by
    [TimeUnits]; the copy kept in [fchemcur] for the matrix-free
    product, when that vector is allocated, is this scaled sub-vector,
    entry for entry; and the chemistry structure of the user data is
    the one the network routine left, with the temperatures and rates
    of this state. *)
Theorem fimpl_caches_scaled_rate
    (tm : TimerCalls) (t : R) (w wdot : list (list R))
    (udata : EulerData) :
  let res := fimpl tm t w wdot udata in
  let r :=
    calculate_rhs_cvklu t (default [] (w !! 5%nat))
      (default [] (N_VConst_MPIManyVector ZERO wdot !! 5%nat))
      (nxl udata * nyl udata * nzl udata) (RxNetData udata) in
  fst (fst res) = 0%Z ->
  snd (fst res) !! 5%nat
  = Some (N_VScale (TimeUnits udata) (snd (fst r))) /\
  RxNetData (snd res) = snd r /\
  (is_Some (fchemcur udata) ->
   fchemcur (snd res) = snd (fst res) !! 5%nat) /\
  (fchemcur udata = None -> fchemcur (snd res) = None).
Proof.
  cbv zeta. unfold fimpl, N_VGetSubvector_MPIManyVector. cbv zeta.
  destruct (check_flag (FlagInt (timer_start tm)) 1); [discriminate|].
  destruct (check_flag (FlagPtr (bool_decide (is_Some (w !! 5%nat)))) 0);
    [discriminate|].
  unfold check_flag at 1. cbn [Z.eqb].
  destruct (N_VConst_MPIManyVector ZERO wdot !! 5%nat) as [z5|] eqn:E5.
  2: { rewrite bool_decide_eq_false_2 by (intros [x Hx]; discriminate).
       discriminate. }
  rewrite bool_decide_eq_true_2 by eauto. cbn [negb default].
  apply lookup_lt_Some in E5.
  set (r := calculate_rhs_cvklu _ _ _ _ _).
  assert (Hr : fst (fst r) = 0%Z) by apply calculate_rhs_cvklu_status.
  rewrite Hr. unfold check_flag at 1. cbn [Z.eqb Z.ltb Z.compare].
  assert (Hlook :
    <[5%nat := N_VScale (TimeUnits (set_RxNetData (snd r) udata))
                 (snd (fst r))]>
      (<[5%nat := snd (fst r)]> (N_VConst_MPIManyVector ZERO wdot))
      !! 5%nat
    = Some (N_VScale (TimeUnits udata) (snd (fst r)))).
  { apply list_lookup_insert_eq. now rewrite length_insert. }
  destruct (check_flag (FlagInt (timer_stop tm)) 1); [discriminate|].
  intros _. cbn [fst snd]. split; [exact Hlook|].
  destruct (fchemcur udata) as [cur|] eqn:Ecur.
  - change (fchemcur (set_RxNetData (snd r) udata)) with (fchemcur udata).
    rewrite Ecur, bool_decide_eq_true_2 by eauto.
    split; [reflexivity|]. split; [|discriminate].
    intros _. cbn [fchemcur set_fchemcur]. rewrite N_VScale_ONE.
    symmetry. exact Hlook.
  - change (fchemcur (set_RxNetData (snd r) udata)) with (fchemcur udata).
    rewrite Ecur, bool_decide_eq_false_2 by (intros [x Hx]; discriminate).
    split; [reflexivity|]. split; [intros [x Hx]; discriminate|].
    intros _. exact Ecur.
Qed.




(** X16.  A rank that leaves [Solve_BDMPIMV] before the reduction,
    for a timer that does not start or a missing sub-vector, does not
    take part in it: the collective is completed exactly when no rank
    does so, and a rank that returns early hands back [-1] with the
    last flag as it was, or [SUNLS_MEM_FAIL] in both. *)
Theorem Solve_BDMPIMV_early_return
    (calls : list SolveCalls) (lastflags : list Z) :
  length lastflags = length calls ->
  let early (c : SolveCalls) : Prop :=
    (lsolve_start c < 0)%Z \/ xsub c = false \/ bsub c = false \/
    (lsolvempi_start c < 0)%Z in
  (solve_all calls lastflags = None <-> Exists early calls) /\
  forall c lf ret lf',
    Solve_BDMPIMV c lf = Returned ret lf' ->
    early c /\
    ((ret = (-1)%Z /\ lf' = lf) \/
     (ret = SUNLS_MEM_FAIL /\ lf' = SUNLS_MEM_FAIL)).
Proof.
  intros Hlen early.
  assert (Hone : forall c lf,
    match Solve_BDMPIMV c lf with
    | Returned ret lf' =>
        early c /\
        ((ret = (-1)%Z /\ lf' = lf) \/
         (ret = SUNLS_MEM_FAIL /\ lf' = SUNLS_MEM_FAIL))
    | Allreduce _ _ => ~ early c
    end).
  { intros c lf. unfold Solve_BDMPIMV, check_flag, early.
    cbn [Z.eqb Pos.eqb].
    destruct (Z.ltb_spec (lsolve_start c) 0); [split; auto|].
    destruct (xsub c) eqn:Ex, (bsub c) eqn:Eb; cbn [negb orb];
      try (split; auto; fail).
    destruct (Z.ltb_spec (lsolvempi_start c) 0);
      [split; auto 6|].
    intros [H1|[H1|[H1|H1]]]; (lia || discriminate). }
  split.
  - unfold solve_all.
    revert lastflags Hlen.
    induction calls as [|c cs IH]; intros [|lf lfs] Hlen;
      try discriminate.
    + cbn. split; [discriminate|]. intros H. inversion H.
    + cbn [zip_with]. specialize (Hone c lf).
      specialize (IH lfs ltac:(cbn in Hlen; lia)).
      rewrite Exists_cons.
      destruct (Solve_BDMPIMV c lf) as [ret lf'|ierrs resume].
      * cbn. split; [intros _; left; apply Hone|reflexivity].
      * cbn [mapM contribution mbind option_bind mret option_ret].
        destruct (mapM contribution (zip_with Solve_BDMPIMV cs lfs))
          as [sends|] eqn:Es.
        -- cbn. split; [discriminate|].
           intros [H|H]; [contradiction|].
           apply IH in H. cbn in H. discriminate.
        -- cbn. split; [|reflexivity]. intros _. right.
           apply IH. reflexivity.
  - intros c lf ret lf' H. specialize (Hone c lf). now rewrite H in Hone.
Qed.

End DriverMore.


(** ** The further statements on concrete inputs *)

Section OnFurtherSamples.
Import NVector Chem Driver BDMPIMV Hydro Steps Sample.

(** One cell, written over zeros and over ones. *)
Lemma calculate_rhs_cvklu_overwrites_witness :
  calculate_rhs_cvklu 0 y1 (replicate 10 0) 1 data1
  = calculate_rhs_cvklu 0 y1 (replicate 10 1) 1 data1.
Proof.
  destruct (calculate_rhs_cvklu_overwrites y1 0 (replicate 10 0)
              (replicate 10 1) 1 data1) as (_ & _ & Hall).
  - reflexivity.
  - simpl. lia.
  - apply Hall. reflexivity.
Defined.





(** One cell: rows 0 to 9, the last pointer is 64. *)
Lemma calculate_jacobian_cvklu_pattern_witness :
  let res := calculate_jacobian_cvklu 0 y1 (replicate 10 0) J1 1 data1 in
  fst res = 0%Z /\ rdZ (sm_indexptrs (snd res)) 10 = 64%Z.
Proof.
  destruct (calculate_jacobian_cvklu_pattern y1 1 data1 0 (replicate 10 0)
              J1) as (Hret & _ & Hlast & _).
  - simpl. lia.
  - simpl. lia.
  - simpl. lia.
  - split; [exact Hret|exact Hlast].
Defined.


Lemma INDX7_one_to_one i j k i' j' k' :
  in_tile udata7 i j k = true -> in_tile udata7 i' j' k' = true ->
  INDX7 i j k (nxl udata7) (nyl udata7) (nzl udata7)
  = INDX7 i' j' k' (nxl udata7) (nyl udata7) (nzl udata7) ->
  (i, j, k) = (i', j', k').
Proof.
  intros Ht Ht' Heq. apply in_tile_spec in Ht, Ht'.
  unfold INDX7 in Heq. simpl in *.
  assert (i = i' /\ j = j' /\ k = k') as (-> & -> & ->) by lia.
  reflexivity.
Qed.

(** The 7 x 7 x 7 tile of zeros: the length of the energy field is
    kept. *)
Lemma postprocess_energy_is_internal_plus_kinetic_witness :
  exists et',
    postprocess_energy INDX7 BUFINDX7 EnergyUnits1 fields7 udata7 !! 4%nat
    = Some et' /\ length et' = 343%nat.
Proof.
  destruct (postprocess_energy_is_internal_plus_kinetic INDX7 BUFINDX7
              EnergyUnits1 udata7 INDX7_one_to_one fields7
              (replicate 343 0)) as (_ & _ & et' & Het & HL & _).
  - reflexivity.
  - intros i j k Ht. rewrite length_replicate. now apply INDX7_in_range.
  - exists et'. split; [exact Het|]. rewrite HL. apply length_replicate.
Defined.

Lemma one_cell_tile i j k :
  in_tile udata1 i j k = true -> i = 0%Z /\ j = 0%Z /\ k = 0%Z.
Proof. intros Ht. apply in_tile_spec in Ht. simpl in Ht. lia. Qed.

(** One cell: the rate of the energy is moved to the last chemistry
    unknown. *)
Lemma fexpl_moves_energy_rate_witness :
  exists etdot' chemdot',
    fexpl_move_rate INDX7 BUFINDX7 [[0]; [0]; [0]; [0]; [3]; y1] udata1
      !! 4%nat = Some etdot' /\
    fexpl_move_rate INDX7 BUFINDX7 [[0]; [0]; [0]; [0]; [3]; y1] udata1
      !! 5%nat = Some chemdot' /\
    rd etdot' 0 = 0 /\ rd chemdot' 9 = 3.
Proof.
  destruct (fexpl_moves_energy_rate INDX7 BUFINDX7 udata1) with
    (wdot := [[0]; [0]; [0]; [0]; [3]; y1]) (etdot := [3]) (chemdot := y1)
    as (_ & e' & c' & He & Hc & _ & _ & Hcell).
  - intros i j k i' j' k' Ht Ht' _.
    apply one_cell_tile in Ht, Ht'. destruct Ht as (-> & -> & ->).
    now destruct Ht' as (-> & -> & ->).
  - intros i j k i' j' k' Ht Ht' _.
    apply one_cell_tile in Ht, Ht'. destruct Ht as (-> & -> & ->).
    now destruct Ht' as (-> & -> & ->).
  - reflexivity.
  - reflexivity.
  - intros i j k Ht. apply one_cell_tile in Ht. destruct Ht as (-> & -> & ->).
    unfold INDX7, BUFINDX7. simpl. lia.
  - exists e', c'. split; [exact He|]. split; [exact Hc|].
    exact (Hcell 0%Z 0%Z 0%Z eq_refl).
Defined.

(** A successful call on a one-cell state. *)
Lemma fimpl_caches_scaled_rate_witness :
  fst (fst (fimpl timers_ok 0 w6 w6 udata1)) = 0%Z /\
  fchemcur (snd (fimpl timers_ok 0 w6 w6 udata1))
  = snd (fst (fimpl timers_ok 0 w6 w6 udata1)) !! 5%nat.
Proof.
  assert (H : fst (fst (fimpl timers_ok 0 w6 w6 udata1)) = 0%Z)
    by reflexivity.
  split; [exact H|].
  destruct (fimpl_caches_scaled_rate timers_ok 0 w6 w6 udata1 H)
    as (_ & _ & Hcache & _).
  apply Hcache. unfold udata1. simpl. eauto.
Defined.

(** Two ranks, the second with a timer that does not start. *)
Lemma Solve_BDMPIMV_early_return_witness :
  solve_all
    [solve_rank 0;
     {| lsolve_start := (-1); xsub := true; bsub := true; ierr := 0;
        lsolvempi_start := 0; allreduce_ret := 0; lsolvempi_stop := 0;
        lsolve_stop := 0 |}]
    [0%Z; 0%Z]
  = None.
Proof.
  destruct (Solve_BDMPIMV_early_return
              [solve_rank 0;
               {| lsolve_start := (-1); xsub := true; bsub := true;
                  ierr := 0; lsolvempi_start := 0; allreduce_ret := 0;
                  lsolvempi_stop := 0; lsolve_stop := 0 |}]
              [0%Z; 0%Z] eq_refl) as [[_ Hnone] _].
  apply Hnone. apply Exists_cons_tl, Exists_cons_hd. left. simpl. lia.
Defined.

(** One cell with ten tracers: the last one is 1. *)
Lemma initial_conditions_tracers_witness :
  fst (initial_conditions INDX7 BUFINDX7 0 w6 udata1) = 0%Z /\
  exists chem',
    snd (initial_conditions INDX7 BUFINDX7 0 w6 udata1) !! 5%nat
    = Some chem' /\
    rd chem' 9 = IZR 10 / IZR 10.
Proof.
  destruct (initial_conditions_tracers INDX7 BUFINDX7 udata1) with
    (t := 0) (w := w6) (chem := y1) as (Hret & chem' & Hc & _ & Hv).
  - intros v i j k v' i' j' k' Hv Hv' Ht Ht' Heq.
    apply one_cell_tile in Ht, Ht'. destruct Ht as (-> & -> & ->).
    destruct Ht' as (-> & -> & ->).
    unfold BUFINDX7 in Heq. simpl in *.
    assert (v = v') as -> by lia. reflexivity.
  - simpl. lia.
  - simpl. lia.
  - reflexivity.
  - intros v i j k Hv Ht. apply one_cell_tile in Ht.
    destruct Ht as (-> & -> & ->). unfold BUFINDX7. simpl in *. lia.
  - split; [exact Hret|]. exists chem'. split; [exact Hc|].
    exact (proj1 (Hv 9%Z 0%Z 0%Z 0%Z ltac:(simpl; lia) eq_refl)).
Defined.

End OnFurtherSamples.
